(** * codrevex: a shallow embedding of the code reviewer's analysis core

    The development follows the Python package [code_reviewer]:
    - [PyStr]    the [str] methods the package relies on,
    - [Fs]       the files the package reads,
    - [Os]       the directories and files the package writes,
    - [Git]      [git_analyzer.py]   (diff reading),
    - [ast]      the syntax trees of Python's [ast] module and [ast.walk],
    - [Ast]      [ast_analyzer.py]   (structure extraction, complexity),
    - [Py]       Python values, exceptions and the conversions applied to them,
    - [Review]   [code_reviewer.py]  (response validation),
    - [TestGen]  [test_generator.py] (pattern learning, test placement),
    - [Cli]      [cli.py]            (the exit status of a review).

    Python [int] is [Z]; [str] is [string], read as a sequence of
    characters with code points below 256; [Optional] is [option]; a raised
    exception is the left summand of a result type. *)

From stdpp Require Import base gmap strings.
From Stdlib Require Import String Ascii List ZArith QArith Lia Bool Permutation.
From Stdlib Require Import DecimalString SpecFloat.
Import ListNotations.
Close Scope Q_scope.
Open Scope string_scope.

(* ===================================================================== *)
(** * Python strings *)
(* ===================================================================== *)

Module PyStr.

(** The line feed, ["\n"] in the Python sources. *)
Definition NL : ascii := "010"%char.

(** [s.startswith(p)] *)
Definition startswith (s p : string) : bool := String.prefix p s.

(** [len(s)] *)
Definition len (s : string) : Z := Z.of_nat (String.length s).

(** [s.count(sub)]: the number of non-overlapping occurrences of [sub],
    found scanning from the left; after a match the scan resumes behind it.
    [skip] is the number of characters still covered by the last match. *)
Fixpoint count_scan (sub : string) (skip : nat) (s : string) : nat :=
  match s with
  | EmptyString => match sub with EmptyString => 1 | _ => 0 end
  | String _ s' =>
      match skip with
      | S k => count_scan sub k s'
      | O => if String.prefix sub s
             then S (count_scan sub (String.length sub - 1) s')
             else count_scan sub 0 s'
      end
  end.

Definition count (s sub : string) : Z := Z.of_nat (count_scan sub 0 s).

(** [s.split("\n")]: the maximal line-feed-free pieces of [s], in order. *)
Fixpoint split_nl (s : string) : list string :=
  match s with
  | EmptyString => [EmptyString]
  | String c s' =>
      if Ascii.eqb c NL then EmptyString :: split_nl s'
      else match split_nl s' with
           | l :: ls => String c l :: ls
           | [] => [String c EmptyString]
           end
  end.

(** [sep.join(parts)] *)
Fixpoint join (sep : string) (parts : list string) : string :=
  match parts with
  | [] => EmptyString
  | [p] => p
  | p :: ps => p ++ sep ++ join sep ps
  end.

(** The line boundaries of [str.splitlines] among code points below 256:
    LF, VT, FF, CR, FS, GS, RS and NEL (CR LF counts once). *)
Definition is_linebreak (c : ascii) : bool :=
  let n := nat_of_ascii c in
  (Nat.eqb n 10 || Nat.eqb n 11 || Nat.eqb n 12 || Nat.eqb n 13
   || Nat.eqb n 28 || Nat.eqb n 29 || Nat.eqb n 30 || Nat.eqb n 133)%bool.

Definition CR : ascii := "013"%char.

(** [s.splitlines()], with the line under construction carried in [cur];
    a trailing line break opens no further line. *)
Fixpoint splitlines_aux (cur : string) (s : string) : list string :=
  match s with
  | EmptyString => match cur with EmptyString => [] | _ => [cur] end
  | String c s' =>
      if is_linebreak c then
        match s' with
        | String d s'' =>
            if (Ascii.eqb c CR && Ascii.eqb d NL)%bool
            then cur :: splitlines_aux EmptyString s''
            else cur :: splitlines_aux EmptyString s'
        | EmptyString => [cur]
        end
      else splitlines_aux (cur ++ String c EmptyString) s'
  end.

Definition splitlines (s : string) : list string := splitlines_aux EmptyString s.

(** [sub in s] *)
Fixpoint contains (s sub : string) : bool :=
  if String.prefix sub s then true
  else match s with
       | EmptyString => false
       | String _ s' => contains s' sub
       end.

(** [s.find(sub, start)] for [0 <= start]: the least index [i >= start]
    at which [sub] occurs, or [-1]. *)
Fixpoint find_from (sub : string) (i : nat) (s : string) : Z :=
  if String.prefix sub s then Z.of_nat i
  else match s with
       | EmptyString => -1
       | String _ s' => find_from sub (S i) s'
       end.

Fixpoint drop (n : nat) (s : string) : string :=
  match n, s with
  | S k, String _ s' => drop k s'
  | _, _ => s
  end.

Fixpoint take (n : nat) (s : string) : string :=
  match n, s with
  | S k, String c s' => String c (take k s')
  | _, _ => EmptyString
  end.

Definition find (s sub : string) (start : nat) : Z :=
  if (String.length s <? start)%nat then -1
  else find_from sub start (drop start s).

(** [s[start:stop]] for [0 <= start]; a negative [stop] counts from the
    end of [s], as Python slices do. *)
Definition slice (s : string) (start : nat) (stop : Z) : string :=
  let n := len s in
  let stop' := if (stop <? 0)%Z then Z.max 0 (n + stop) else Z.min stop n in
  take (Z.to_nat stop' - start) (drop start s).

(** Characters [str.strip()] removes, among code points below 256. *)
Definition is_space (c : ascii) : bool :=
  let n := nat_of_ascii c in
  ((9 <=? n) && (n <=? 13) || (28 <=? n) && (n <=? 32)
   || Nat.eqb n 133 || Nat.eqb n 160)%nat%bool.

Fixpoint lstrip (s : string) : string :=
  match s with
  | String c s' => if is_space c then lstrip s' else s
  | EmptyString => EmptyString
  end.

Fixpoint rstrip (s : string) : string :=
  match s with
  | EmptyString => EmptyString
  | String c s' =>
      match rstrip s' with
      | EmptyString => if is_space c then EmptyString else String c EmptyString
      | r => String c r
      end
  end.

Definition strip (s : string) : string := rstrip (lstrip s).

(** [s.endswith(p)] *)
Definition endswith (s p : string) : bool :=
  (String.length p <=? String.length s)%nat
  && String.eqb (drop (String.length s - String.length p) s) p.

(** ** Prefixes and occurrences *)

Lemma append_assoc (a b c : string) : (a ++ b) ++ c = a ++ b ++ c.
Proof.
  induction a as [|x a IH]; [reflexivity|].
  change (String x ((a ++ b) ++ c) = String x (a ++ b ++ c)). now f_equal.
Qed.

Lemma prefix_cons (a b : ascii) (p s : string) :
  String.prefix (String a p) (String b s) = Ascii.eqb a b && String.prefix p s.
Proof.
  simpl. destruct (ascii_dec a b) as [->|Hne].
  - now rewrite Ascii.eqb_refl.
  - apply Ascii.eqb_neq in Hne. now rewrite Hne.
Qed.

Lemma prefix_app (p s : string) :
  String.prefix p s = true <-> exists r, s = p ++ r.
Proof.
  revert s. induction p as [|a p IH]; intros s.
  - split; [intros _; now exists s | now destruct s].
  - destruct s as [|b s].
    + split; [discriminate | intros [r Hr]; discriminate].
    + rewrite prefix_cons, andb_true_iff, Ascii.eqb_eq, IH. split.
      * intros [-> [r ->]]. now exists r.
      * intros [r Hr]. injection Hr as -> ->. split; [reflexivity | now exists r].
Qed.

(** [sub] stands verbatim in [s]. *)
Definition occurs (sub s : string) : Prop := exists l r, s = l ++ sub ++ r.

Lemma contains_occurs (s sub : string) : contains s sub = true <-> occurs sub s.
Proof.
  unfold occurs. induction s as [|c s IH].
  - cbn [contains]. destruct (String.prefix sub "") eqn:Hp.
    + split; [intros _|reflexivity]. apply prefix_app in Hp as [r Hr].
      now exists "", r.
    + split; [discriminate|]. intros (l & r & H).
      destruct l; [|discriminate]. cbn [append] in H.
      assert (String.prefix sub "" = true) by (apply prefix_app; now exists r).
      congruence.
  - cbn [contains]. destruct (String.prefix sub (String c s)) eqn:Hp.
    + split; [intros _|reflexivity]. apply prefix_app in Hp as [r Hr].
      now exists "", r.
    + rewrite IH. split.
      * intros (l & r & ->). now exists (String c l), r.
      * intros (l & r & H). destruct l as [|c' l].
        -- cbn [append] in H.
           assert (String.prefix sub (String c s) = true) by (apply prefix_app; now exists r).
           congruence.
        -- cbn [append] in H. injection H as -> ->. now exists l, r.
Qed.

(** ** Slices between fences *)

(** The character [c] does not occur in [s]. *)
Fixpoint lacks (c : ascii) (s : string) : bool :=
  match s with
  | EmptyString => true
  | String a s' => negb (Ascii.eqb a c) && lacks c s'
  end.

Lemma str_length_app (a b : string) :
  String.length (a ++ b) = (String.length a + String.length b)%nat.
Proof.
  induction a as [|x a IH]; [reflexivity|].
  change (S (String.length (a ++ b)) = S (String.length a + String.length b)).
  now rewrite IH.
Qed.

Lemma str_drop_app (a b : string) : drop (String.length a) (a ++ b) = b.
Proof.
  induction a as [|x a IH]; [now destruct b|].
  change (drop (String.length a) (a ++ b) = b). exact IH.
Qed.

Lemma str_take_app (a b : string) : take (String.length a) (a ++ b) = a.
Proof.
  induction a as [|x a IH]; [now destruct b|].
  change (String x (take (String.length a) (a ++ b)) = String x a). now rewrite IH.
Qed.

Lemma take_all (n : nat) (s : string) : (String.length s <= n)%nat -> take n s = s.
Proof.
  revert n. induction s as [|x s IH]; intros n Hn; [now destruct n|].
  destruct n as [|n]; [cbn in Hn; lia|].
  cbn [take]. rewrite IH; [reflexivity | cbn in Hn; lia].
Qed.

Lemma take_length (n : nat) (s : string) : (String.length (take n s) <= n)%nat.
Proof.
  revert s. induction n as [|n IH]; intros s; [now destruct s|].
  destruct s as [|x s]; [cbn; lia|]. cbn [take String.length]. specialize (IH s). lia.
Qed.

Lemma take_prefix (n : nat) (s : string) : String.prefix (take n s) s = true.
Proof.
  revert s. induction n as [|n IH]; intros s; [now destruct s|].
  destruct s as [|x s]; [reflexivity|].
  cbn [take]. rewrite prefix_cons, Ascii.eqb_refl. apply IH.
Qed.

(** Before its first character can occur, a pattern is not found. *)
Lemma find_from_app (c : ascii) (sub pre rest : string) (i : nat) :
  lacks c pre = true ->
  find_from (String c sub) i (pre ++ String c sub ++ rest)
  = Z.of_nat (i + String.length pre).
Proof.
  revert i. induction pre as [|a pre IH]; intros i Hpre.
  - change ("" ++ String c sub ++ rest) with (String c sub ++ rest).
    assert (Hp : String.prefix (String c sub) (String c sub ++ rest) = true)
      by (apply prefix_app; now eexists).
    destruct (String c sub ++ rest) eqn:E; cbn [find_from]; rewrite Hp;
      cbn [String.length]; lia.
  - cbn [lacks] in Hpre. apply andb_prop in Hpre as [Ha Hpre]. apply negb_true_iff in Ha.
    change (String a pre ++ String c sub ++ rest)
      with (String a (pre ++ String c sub ++ rest)).
    cbn [find_from]. rewrite prefix_cons, Ascii.eqb_sym, Ha. cbn [andb].
    rewrite IH by exact Hpre. cbn [String.length]. lia.
Qed.

Lemma find_from_lacks (c : ascii) (sub s : string) (i : nat) :
  lacks c s = true -> find_from (String c sub) i s = (-1)%Z.
Proof.
  revert i. induction s as [|a s IH]; intros i Hs; [reflexivity|].
  cbn [lacks] in Hs. apply andb_prop in Hs as [Ha Hs]. apply negb_true_iff in Ha.
  cbn [find_from]. rewrite prefix_cons, Ascii.eqb_sym, Ha. cbn [andb]. now apply IH.
Qed.

(** The text between an opening fence and the next closing fence: the
    slice from behind the first [fence] to the first [close] behind it. *)
Definition between (s fence close : string) : string :=
  let start := Z.to_nat (find s fence 0 + Z.of_nat (String.length fence)) in
  slice s start (find s close start).

Lemma find_0 (s sub : string) : find s sub 0 = find_from sub 0 s.
Proof. unfold find. now destruct s. Qed.

Lemma find_behind (a b sub : string) :
  find (a ++ b) sub (String.length a) = find_from sub (String.length a) b.
Proof.
  unfold find. rewrite str_length_app, str_drop_app.
  destruct (String.length a + String.length b <? String.length a)%nat eqn:E;
    [apply Nat.ltb_lt in E; lia | reflexivity].
Qed.

(** A fenced body that holds no backtick, behind a text that holds none,
    is what stands between the fences. *)
Lemma between_fenced (label pre body post : string) :
  lacks "`" pre = true -> lacks "`" body = true ->
  between (pre ++ String "`" label ++ body ++ "```" ++ post) (String "`" label) "```" = body.
Proof.
  intros Hpre Hbody. unfold between.
  rewrite find_0, find_from_app by exact Hpre.
  replace (Z.to_nat (Z.of_nat (0 + String.length pre)
                     + Z.of_nat (String.length (String "`" label))))
    with (String.length (pre ++ String "`" label)) by (rewrite str_length_app; lia).
  rewrite <- (append_assoc pre (String "`" label)).
  rewrite find_behind.
  change "```" with (String "`" "``") at 1.
  rewrite (find_from_app "`" "``" body post) by exact Hbody.
  unfold slice, len.
  pose proof (str_length_app (pre ++ String "`" label) (body ++ "```" ++ post)) as Hlen.
  pose proof (str_length_app body ("```" ++ post)) as Hlen'.
  remember (String.length (pre ++ String "`" label)) as n eqn:Hn.
  replace (Z.of_nat (n + String.length body) <? 0)%Z with false
    by (symmetry; apply Z.ltb_ge; lia).
  rewrite Z.min_l by lia.
  replace (Z.to_nat (Z.of_nat (n + String.length body)) - n)%nat
    with (String.length body) by lia.
  rewrite Hn, str_drop_app. apply str_take_app.
Qed.

(** An opening fence that no closing fence follows: the slice runs to the
    last character of the text and leaves it out. *)
Lemma between_unclosed (label pre body : string) :
  lacks "`" pre = true -> lacks "`" body = true ->
  between (pre ++ String "`" label ++ body) (String "`" label) "```"
  = take (String.length body - 1) body.
Proof.
  intros Hpre Hbody. unfold between.
  rewrite find_0, find_from_app by exact Hpre.
  replace (Z.to_nat (Z.of_nat (0 + String.length pre)
                     + Z.of_nat (String.length (String "`" label))))
    with (String.length (pre ++ String "`" label)) by (rewrite str_length_app; lia).
  rewrite <- (append_assoc pre (String "`" label)).
  rewrite find_behind.
  change "```" with (String "`" "``").
  rewrite find_from_lacks by exact Hbody.
  unfold slice, len.
  pose proof (str_length_app (pre ++ String "`" label) body) as Hlen.
  remember (String.length (pre ++ String "`" label)) as n eqn:Hn.
  change (-1 <? 0)%Z with true. cbv iota.
  replace (Z.to_nat (Z.max 0 (Z.of_nat (String.length ((pre ++ String "`" label) ++ body)) + -1))
           - n)%nat
    with (String.length body - 1)%nat by lia.
  now rewrite Hn, str_drop_app.
Qed.

(** ** Occurrences in joined texts *)

Lemma occurs_trans (a b c : string) : occurs a b -> occurs b c -> occurs a c.
Proof.
  intros (l1 & r1 & ->) (l2 & r2 & ->). exists (l2 ++ l1), (r1 ++ r2).
  now rewrite !append_assoc.
Qed.

Lemma occurs_app_l (a b c : string) : occurs a b -> occurs a (b ++ c).
Proof.
  intros (l & r & ->). exists l, (r ++ c). now rewrite !append_assoc.
Qed.

Lemma occurs_app_r (a b c : string) : occurs a c -> occurs a (b ++ c).
Proof.
  intros (l & r & ->). exists (b ++ l), r. now rewrite !append_assoc.
Qed.

Lemma append_nil_r (s : string) : s ++ "" = s.
Proof.
  induction s as [|c s IH]; [reflexivity|].
  change (String c (s ++ "") = String c s). now rewrite IH.
Qed.

Lemma occurs_refl (a : string) : occurs a a.
Proof. exists "", "". now rewrite append_nil_r. Qed.

(** Every part stands verbatim in the joined text. *)
Lemma occurs_join (sep part : string) (parts : list string) :
  In part parts -> occurs part (join sep parts).
Proof.
  induction parts as [|p parts IH]; intros Hin; [contradiction|].
  destruct parts as [|q parts].
  - destruct Hin as [->|[]]. apply occurs_refl.
  - change (join sep (p :: q :: parts)) with (p ++ sep ++ join sep (q :: parts)).
    destruct Hin as [->|Hin].
    + apply occurs_app_l, occurs_refl.
    + now apply occurs_app_r, occurs_app_r, IH.
Qed.

End PyStr.

(* ===================================================================== *)
(** * Files *)
(* ===================================================================== *)

Module Fs.

(** A regular file, as [open(path, encoding="utf-8")] sees it: text, or
    bytes that do not decode as UTF-8. *)
Inductive file :=
| TextFile (content : string)
| BinaryFile.

(** The exceptions reading a file raises, with [str(e)]. *)
Inductive read_error :=
| OSError (msg : string)
| UnicodeDecodeError (msg : string).

Definition error_text (e : read_error) : string :=
  match e with OSError msg => msg | UnicodeDecodeError msg => msg end.

(** [open(path, "r", encoding="utf-8").read()] *)
Definition read_text (fs : gmap string file) (path : string) : read_error + string :=
  match fs !! path with
  | Some (TextFile content) => inr content
  | Some BinaryFile =>
      inl (UnicodeDecodeError "'utf-8' codec can't decode byte: invalid start byte")
  | None => inl (OSError ("[Errno 2] No such file or directory: '" ++ path ++ "'"))
  end.

End Fs.

(* ===================================================================== *)
(** * Directories and files *)
(* ===================================================================== *)

(** The calls of [pathlib] and [open] that [write_test_to_file] makes, on a
    disk with directories. *)
Module Os.

(** What stands at a path: a directory or a regular file. *)
Inductive node :=
| Directory
| Regular (f : Fs.file).

(** The exceptions of the calls that make directories and open files. *)
Inductive error :=
| FileNotFoundError | FileExistsError | NotADirectoryError | IsADirectoryError
| PermissionError | UnicodeDecodeError.

(** A disk: what stands at each path, a path being the tuple of its parts
    ([Path.parts]), and the paths the operating system refuses to create or
    to open for writing (permissions, a read-only file system). Paths are
    taken part by part: no part is [..] and no node is a symbolic link. *)
Record disk := mkDisk {
  nodes : gmap (list string) node;
  denied : list string -> bool
}.

(** [text.split("/")] *)
Fixpoint components (text : string) : list string :=
  match text with
  | EmptyString => [""]
  | String c text' =>
      if Ascii.eqb c "/" then "" :: components text'
      else match components text' with
           | x :: xs => String c x :: xs
           | [] => [String c ""]
           end
  end.

(** The root of a POSIX path ([posixpath.splitroot]): none for a relative
    path, [//] for a path that begins with exactly two slashes, [/] for any
    other absolute path. *)
Definition root (text : string) : list string :=
  match text with
  | String "/" (String "/" (String "/" _)) => ["/"]
  | String "/" (String "/" _) => ["//"]
  | String "/" _ => ["/"]
  | _ => []
  end.

(** [Path(text).parts]: the root, if any, and the components that are
    neither empty nor a single dot. *)
Definition parts (text : string) : list string :=
  (root text
   ++ filter (fun x => negb (String.eqb x "") && negb (String.eqb x ".")) (components text))%list.

(** The paths that are their own parent: the working directory and the
    roots. They are directories of every disk. *)
Definition anchored (p : list string) : bool :=
  match p with
  | [] => true
  | [r] => String.eqb r "/" || String.eqb r "//"
  | _ => false
  end.

(** [Path.parent], on the parts. *)
Definition parent (p : list string) : list string :=
  if anchored p then p else removelast p.

(** What stands at [p], by itself. *)
Definition stat (d : disk) (p : list string) : option node :=
  if anchored p then Some Directory else nodes d !! p.

(** The walk of the operating system through the directories [rest] below
    [seen]: the error of the first part that is missing or no directory. *)
Fixpoint walk_dirs (d : disk) (seen rest : list string) : option error :=
  match rest with
  | [] => None
  | part :: rest' =>
      let q := (seen ++ [part])%list in
      match stat d q with
      | None => Some FileNotFoundError
      | Some (Regular _) => Some NotADirectoryError
      | Some Directory => walk_dirs d q rest'
      end
  end.

(** The resolution of [p]: the error of the walk to its directory, or what
    stands at [p], if anything. *)
Definition lookup_path (d : disk) (p : list string) : error + option node :=
  match walk_dirs d [] (removelast p) with
  | Some e => inl e
  | None => inr (stat d p)
  end.

Definition put (d : disk) (p : list string) (n : node) : disk :=
  mkDisk (<[p := n]> (nodes d)) (denied d).

(** [Path.exists] *)
Definition exists_ (d : disk) (p : list string) : bool :=
  match lookup_path d p with
  | inr (Some _) => true
  | _ => false
  end.

(** [Path.is_dir] *)
Definition is_dir (d : disk) (p : list string) : bool :=
  match lookup_path d p with
  | inr (Some Directory) => true
  | _ => false
  end.

(** [os.mkdir] *)
Definition os_mkdir (d : disk) (p : list string) : error + disk :=
  match lookup_path d p with
  | inl e => inl e
  | inr (Some _) => inl FileExistsError
  | inr None => if denied d p then inl PermissionError else inr (put d p Directory)
  end.

(** [Path.mkdir(parents=False, exist_ok=True)] *)
Definition mkdir_exist_ok (d : disk) (p : list string) : error + disk :=
  match os_mkdir d p with
  | inr d' => inr d'
  | inl FileNotFoundError => inl FileNotFoundError
  | inl e => if is_dir d p then inr d else inl e
  end.

(** [Path.mkdir(parents=True, exist_ok=True)], on the parts in reverse: a
    missing parent is made first, in the same way, and the directory is
    then made with [parents=False]. *)
Fixpoint mkdir_reversed (d : disk) (reversed : list string) : error + disk :=
  match os_mkdir d (rev reversed) with
  | inr d' => inr d'
  | inl FileNotFoundError =>
      match reversed with
      | [] => inl FileNotFoundError
      | _ :: reversed_parent =>
          match mkdir_reversed d reversed_parent with
          | inl e => inl e
          | inr d1 => mkdir_exist_ok d1 (rev reversed)
          end
      end
  | inl e => if is_dir d (rev reversed) then inr d else inl e
  end.

Definition mkdir_parents (d : disk) (p : list string) : error + disk :=
  mkdir_reversed d (rev p).

(** [open(p, "r", encoding="utf-8").read()] *)
Definition read_text (d : disk) (p : list string) : error + string :=
  match lookup_path d p with
  | inl e => inl e
  | inr None => inl FileNotFoundError
  | inr (Some Directory) => inl IsADirectoryError
  | inr (Some (Regular (Fs.TextFile content))) => inr content
  | inr (Some (Regular Fs.BinaryFile)) => inl UnicodeDecodeError
  end.

(** [open(p, mode)] for a mode that writes: what stood at [p]. *)
Definition open_for_writing (d : disk) (p : list string) : error + option Fs.file :=
  match lookup_path d p with
  | inl e => inl e
  | inr (Some Directory) => inl IsADirectoryError
  | inr (Some (Regular f)) => if denied d p then inl PermissionError else inr (Some f)
  | inr None => if denied d p then inl PermissionError else inr None
  end.

(** [open(p, "w", encoding="utf-8").write(text)] *)
Definition write_text (d : disk) (p : list string) (text : string) : error + disk :=
  match open_for_writing d p with
  | inl e => inl e
  | inr _ => inr (put d p (Regular (Fs.TextFile text)))
  end.

(** [open(p, "a", encoding="utf-8").write(text)] *)
Definition append_text (d : disk) (p : list string) (text : string) : error + disk :=
  match open_for_writing d p with
  | inl e => inl e
  | inr (Some (Fs.TextFile content)) => inr (put d p (Regular (Fs.TextFile (content ++ text))))
  | inr (Some Fs.BinaryFile) => inr (put d p (Regular Fs.BinaryFile))
  | inr None => inr (put d p (Regular (Fs.TextFile text)))
  end.

(** ** Facts *)

Lemma stat_put_eq (d : disk) (p : list string) (n : node) :
  anchored p = false -> stat (put d p n) p = Some n.
Proof. intros Hp. unfold stat, put. rewrite Hp. cbn. apply lookup_insert_eq. Qed.

Lemma stat_put_ne (d : disk) (p q : list string) (n : node) :
  q <> p -> stat (put d p n) q = stat d q.
Proof.
  intros Hq. unfold stat, put. destruct (anchored q); [reflexivity|].
  cbn. now apply lookup_insert_ne.
Qed.


Lemma stat_none_anchored (d : disk) (p : list string) :
  stat d p = None -> anchored p = false.
Proof. unfold stat. destruct (anchored p); [discriminate | reflexivity]. Qed.

(** [d'] keeps the directories of [d]. *)
Definition keeps_dirs (d d' : disk) : Prop :=
  forall q, stat d q = Some Directory -> stat d' q = Some Directory.

Lemma walk_dirs_keeps (d d' : disk) :
  keeps_dirs d d' ->
  forall rest seen, walk_dirs d seen rest = None -> walk_dirs d' seen rest = None.
Proof.
  intros Hkeep. induction rest as [|part rest IH]; intros seen; [reflexivity|].
  cbn [walk_dirs]. destruct (stat d (seen ++ [part])) as [[|f]|] eqn:Hq; try discriminate.
  rewrite (Hkeep _ Hq). apply IH.
Qed.

Lemma walk_dirs_app (d : disk) (r1 r2 seen : list string) :
  walk_dirs d seen (r1 ++ r2)
  = match walk_dirs d seen r1 with
    | None => walk_dirs d (seen ++ r1) r2
    | Some e => Some e
    end.
Proof.
  revert seen. induction r1 as [|part r1 IH]; intros seen.
  - cbn. now rewrite app_nil_r.
  - cbn [app walk_dirs]. destruct (stat d (seen ++ [part])) as [[|f]|]; try reflexivity.
    rewrite IH. now rewrite <- app_assoc.
Qed.

(** A directory whose path resolves: every part of the path is a
    directory. *)
Lemma is_dir_walk (d : disk) (p : list string) :
  is_dir d p = true <-> walk_dirs d [] p = None.
Proof.
  unfold is_dir, lookup_path. destruct p as [|a p'] using rev_ind.
  - cbn. split; reflexivity.
  - clear IHp'. rewrite removelast_last. rewrite walk_dirs_app. cbn [app walk_dirs].
    destruct (walk_dirs d [] p'); [split; discriminate|].
    destruct (stat d (p' ++ [a])) as [[|f]|]; split; (reflexivity || discriminate).
Qed.

Lemma lookup_path_below (d : disk) (p : list string) :
  is_dir d (parent p) = true -> lookup_path d p = inr (stat d p).
Proof.
  unfold parent. destruct (anchored p) eqn:Hp.
  - intros _. unfold lookup_path. destruct p as [|r [|? ?]]; try discriminate; reflexivity.
  - intros Hdir. apply is_dir_walk in Hdir. unfold lookup_path. now rewrite Hdir.
Qed.

(** What making directories does to a disk: it refuses the same paths,
    keeps what stood at every path, and adds only directories, at prefixes
    of the path made. *)
Record grown (d d' : disk) (p : list string) : Prop := {
  grown_denied : denied d' = denied d;
  grown_keeps : forall q n, stat d q = Some n -> stat d' q = Some n;
  grown_adds : forall q, stat d q = None ->
                 stat d' q = None
                 \/ (stat d' q = Some Directory /\ exists r, p = (q ++ r)%list)
}.

Lemma grown_refl (d : disk) (p : list string) : grown d d p.
Proof. split; auto. Qed.

Lemma grown_put (d : disk) (p : list string) :
  stat d p = None -> grown d (put d p Directory) p.
Proof.
  intros Hp. split.
  - reflexivity.
  - intros q n Hq. rewrite stat_put_ne; [exact Hq|]. intros ->. congruence.
  - intros q Hq. destruct (decide (q = p)) as [->|Hne].
    + right. split; [apply stat_put_eq; now apply stat_none_anchored with d|].
      exists []. now rewrite app_nil_r.
    + left. now rewrite stat_put_ne.
Qed.

Lemma grown_trans (d d1 d2 : disk) (p x : list string) :
  grown d d1 p -> grown d1 d2 (p ++ x) -> grown d d2 (p ++ x).
Proof.
  intros [Hd Hk Ha] [Hd' Hk' Ha']. split.
  - congruence.
  - auto.
  - intros q Hq. destruct (Ha q Hq) as [Hnone|(Hdir & r & ->)].
    + exact (Ha' q Hnone).
    + right. split; [now apply Hk'|]. exists (r ++ x)%list. now rewrite app_assoc.
Qed.

Lemma grown_keeps_dirs (d d' : disk) (p : list string) : grown d d' p -> keeps_dirs d d'.
Proof. intros [_ Hk _] q Hq. now apply Hk. Qed.

Lemma lookup_path_inr (d : disk) (p : list string) (n : option node) :
  lookup_path d p = inr n -> walk_dirs d [] (removelast p) = None /\ stat d p = n.
Proof.
  unfold lookup_path. destruct (walk_dirs d [] (removelast p)); [discriminate|].
  intros [= <-]. now split.
Qed.

Lemma os_mkdir_made (d d' : disk) (p : list string) :
  os_mkdir d p = inr d' -> grown d d' p /\ is_dir d' p = true.
Proof.
  unfold os_mkdir. destruct (lookup_path d p) as [e|[n|]] eqn:Hlook; try discriminate.
  destruct (denied d p); [discriminate|]. intros [= <-].
  apply lookup_path_inr in Hlook as [Hwalk Hstat].
  pose proof (grown_put d p Hstat) as Hgrown. split; [exact Hgrown|].
  unfold is_dir, lookup_path.
  rewrite (walk_dirs_keeps d _ (grown_keeps_dirs _ _ _ Hgrown) _ _ Hwalk).
  rewrite stat_put_eq; [reflexivity|]. now apply stat_none_anchored with d.
Qed.

Lemma mkdir_exist_ok_made (d d' : disk) (p : list string) :
  mkdir_exist_ok d p = inr d' -> grown d d' p /\ is_dir d' p = true.
Proof.
  unfold mkdir_exist_ok. destruct (os_mkdir d p) as [e|d1] eqn:Hmk.
  - destruct e; try discriminate;
      (destruct (is_dir d p) eqn:Hdir; [|discriminate]; intros [= <-];
       split; [apply grown_refl | exact Hdir]).
  - intros [= <-]. now apply os_mkdir_made.
Qed.

Lemma mkdir_reversed_made (reversed : list string) :
  forall d d', mkdir_reversed d reversed = inr d' ->
    grown d d' (rev reversed) /\ is_dir d' (rev reversed) = true.
Proof.
  induction reversed as [|x reversed_parent IH]; intros d d'; cbn [mkdir_reversed].
  - destruct (os_mkdir d (rev [])) as [e|d1] eqn:Hmk.
    + destruct e; try discriminate;
        (destruct (is_dir d (rev [])) eqn:Hdir; [|discriminate]; intros [= <-];
         split; [apply grown_refl | exact Hdir]).
    + intros [= <-]. now apply os_mkdir_made.
  - destruct (os_mkdir d (rev (x :: reversed_parent))) as [e|d1] eqn:Hmk.
    + destruct e; try discriminate;
        try (destruct (is_dir d (rev (x :: reversed_parent))) eqn:Hdir; [|discriminate];
             intros [= <-]; split; [apply grown_refl | exact Hdir]).
      destruct (mkdir_reversed d reversed_parent) as [e|d1] eqn:Hparent; [discriminate|].
      intros Hself. apply IH in Hparent as [Hgrown _].
      apply mkdir_exist_ok_made in Hself as [Hgrown' Hdir].
      split; [|exact Hdir]. cbn [rev] in *. now apply grown_trans with d1.
    + intros [= <-]. now apply os_mkdir_made.
Qed.

(** Making the directories of a path: what the disk becomes. *)
Lemma mkdir_parents_made (d d' : disk) (p : list string) :
  mkdir_parents d p = inr d' -> grown d d' p /\ is_dir d' p = true.
Proof.
  unfold mkdir_parents. intros H. apply mkdir_reversed_made in H.
  now rewrite rev_involutive in H.
Qed.

(** A directory that is there is left as it is. *)
Lemma mkdir_parents_there (d : disk) (p : list string) :
  is_dir d p = true -> mkdir_parents d p = inr d.
Proof.
  intros Hdir. unfold mkdir_parents.
  assert (Hmk : os_mkdir d p = inl FileExistsError).
  { unfold os_mkdir. unfold is_dir in Hdir.
    destruct (lookup_path d p) as [e|[[|f]|]]; try discriminate. reflexivity. }
  destruct (rev p) as [|x r] eqn:Hrev.
  - assert (p = []) as -> by (apply (f_equal (@rev string)) in Hrev; now rewrite rev_involutive in Hrev).
    cbn [mkdir_reversed rev]. rewrite Hmk. now rewrite Hdir.
  - cbn [mkdir_reversed]. rewrite <- Hrev, rev_involutive. rewrite Hmk. now rewrite Hdir.
Qed.

(** The target of a write is none of the directories made for it. *)
Lemma grown_parent_stat (d d' : disk) (p : list string) :
  grown d d' (parent p) -> stat d' p = stat d p.
Proof.
  intros [_ Hk Ha]. destruct (stat d p) as [n|] eqn:Hp; [now apply Hk|].
  destruct (Ha p Hp) as [Hnone|(_ & r & Hr)]; [exact Hnone|].
  exfalso. apply stat_none_anchored in Hp. unfold parent in Hr. rewrite Hp in Hr.
  apply (f_equal (@List.length string)) in Hr. rewrite length_app in Hr.
  destruct p as [|a p'] using rev_ind; [discriminate|].
  rewrite removelast_last, length_app in Hr. cbn in Hr. lia.
Qed.

End Os.

(* ===================================================================== *)
(** * git_analyzer.py *)
(* ===================================================================== *)

Module Git.
Import PyStr.

(** [DiffInfo] *)
Record DiffInfo := mkDiffInfo {
  file_path : string;
  change_type : string;   (* A (added), M (modified), D (deleted), R (renamed) *)
  additions : Z;
  deletions : Z;
  diff_content : string;
  old_path : option string
}.

(** [DiffInfo.is_python_file] *)
Definition is_python_file (d : DiffInfo) : bool := endswith (file_path d) ".py".

(** What [diff_item.diff] holds, by what the code can observe of it:
    [None] or [b""] (falsy), bytes that decode as UTF-8, or bytes on which
    [decode] raises [UnicodeDecodeError]. *)
Inductive patch_blob :=
| NoPatch
| Utf8Patch (text : string)
| UndecodablePatch.

(** The subset of GitPython's diff attributes the analyzer relies on
    ([_DiffItem]). *)
Record DiffItem := mkDiffItem {
  new_file : bool;
  deleted_file : bool;
  renamed : bool;
  b_path : option string;
  a_path : option string;
  diff : patch_blob
}.

(** [str(p)] for an optional path. *)
Definition str_of_path (p : option string) : string :=
  match p with Some s => s | None => "None" end.

(** Truthiness of an optional string: [None] and [""] are falsy. *)
Definition truthy_path (p : option string) : bool :=
  match p with Some s => negb (String.eqb s "") | None => false end.

Definition py_max (a b : Z) : Z := Z.max a b.

(** The body of the loop of [_parse_diff_index]. *)
Definition parse_diff_item (it : DiffItem) : DiffInfo :=
  let change_type :=
    if new_file it then "A"
    else if deleted_file it then "D"
    else if renamed it then "R"
    else "M" in
  let file_path := str_of_path (if truthy_path (b_path it) then b_path it else a_path it) in
  let old_path := if renamed it then Some (str_of_path (a_path it)) else None in
  let diff_content :=
    match diff it with
    | Utf8Patch text => text
    | NoPatch => ""
    | UndecodablePatch => ""
    end in
  let additions := (count diff_content (String NL "+") - count diff_content (String NL "+++"))%Z in
  let deletions := (count diff_content (String NL "-") - count diff_content (String NL "---"))%Z in
  mkDiffInfo file_path change_type (py_max 0 additions) (py_max 0 deletions)
             diff_content old_path.

(** [GitAnalyzer._parse_diff_index] *)
Definition _parse_diff_index (diff_index : list DiffItem) : list DiffInfo :=
  map parse_diff_item diff_index.

(** What [repo.index.diff("HEAD")] does. GitPython first resolves the name
    [HEAD] to a commit and then runs git: the call returns the diff items,
    or git fails and it raises [GitCommandError], or [HEAD] names no object,
    as in a repository without a commit, and the resolution raises gitdb's
    [BadName], which is no [GitCommandError]. *)
Inductive head_diff :=
| HeadDiff (diff_index : list DiffItem)
| HeadGitCommandError
| HeadBadName.

(** The exception that leaves [get_staged_diff]. *)
Inductive error :=
| BadName.

(** The state of the repository the analyzer queries. [index_diff_worktree]
    is [repo.index.diff(None)], [index_diff_head] the outcome of
    [repo.index.diff("HEAD")]; [index_entries] are the keys [(path, stage)]
    of [repo.index.entries], in order. *)
Record Repo := mkRepo {
  index_diff_worktree : list DiffItem;
  index_diff_head : head_diff;
  index_entries : list (string * Z);
  worktree : gmap string Fs.file
}.

(** The body of the loop of [_get_initial_commit_diff]. *)
Definition initial_diff_entry (r : Repo) (key : string * Z) : DiffInfo :=
  let path := fst key in
  let diff_content :=
    match Fs.read_text (worktree r) path with
    | inr content =>
        join (String NL "") (map (fun line => "+" ++ line) (splitlines content))
    | inl (Fs.OSError _) => ""
    | inl (Fs.UnicodeDecodeError _) => ""
    end in
  mkDiffInfo path "A"
    (if String.eqb diff_content "" then 0%Z else count diff_content (String NL "+"))
    0%Z diff_content None.

(** [GitAnalyzer._get_initial_commit_diff] *)
Definition _get_initial_commit_diff (r : Repo) : list DiffInfo :=
  map (initial_diff_entry r) (index_entries r).

(** [GitAnalyzer.get_unstaged_diff] *)
Definition get_unstaged_diff (r : Repo) : list DiffInfo :=
  _parse_diff_index (index_diff_worktree r).

(** [GitAnalyzer.get_staged_diff]: only [GitCommandError] is caught and
    answered with [_get_initial_commit_diff]; any other exception of the
    comparison leaves the method. *)
Definition get_staged_diff (r : Repo) : error + list DiffInfo :=
  match index_diff_head r with
  | HeadDiff diff_index => inr (_parse_diff_index diff_index)
  | HeadGitCommandError => inr (_get_initial_commit_diff r)
  | HeadBadName => inl BadName
  end.

(** ** Reading the counts off the lines of the patch *)

(** Occurrences of [sub] in [s], counted position by position. *)
Fixpoint occurrences (sub s : string) : nat :=
  match s with
  | EmptyString => 0
  | String _ s' => (if String.prefix sub s then 1 else 0) + occurrences sub s'
  end.

(** No line feed in [s]. *)
Fixpoint nl_free (s : string) : bool :=
  match s with
  | EmptyString => true
  | String c s' => negb (Ascii.eqb c NL) && nl_free s'
  end.

(** No line feed among the first [n] characters of [s]. *)
Fixpoint nl_free_upto (n : nat) (s : string) : bool :=
  match n, s with
  | S k, String c s' => negb (Ascii.eqb c NL) && nl_free_upto k s'
  | _, _ => true
  end.

(** The lines that follow the first line of a patch. *)
Definition later_lines (patch : string) : list string := tl (split_nl patch).

(** A line carrying the marker [m] that is not a header line [mmm]. *)
Definition marked (m : string) (line : string) : bool :=
  startswith line m && negb (startswith line (m ++ m ++ m)).

Definition count_marked (m : string) (lines : list string) : Z :=
  Z.of_nat (List.length (filter (marked m) lines)).

(** A header line of a patch: it begins with [+++] or [---]. *)
Definition header_line (line : string) : bool :=
  startswith line "+++" || startswith line "---".

(** ** Lemmas on counting *)

Lemma prefix_nl_free_upto (q : string) :
  nl_free q = true ->
  forall s, String.prefix q s = true -> nl_free_upto (String.length q) s = true.
Proof.
  induction q as [|b q IH]; intros Hq s Hp; [reflexivity|].
  destruct s as [|a s]; [reflexivity|].
  rewrite prefix_cons in Hp. apply andb_prop in Hp as [Hab Hp].
  apply Ascii.eqb_eq in Hab. subst b.
  simpl in Hq. apply andb_prop in Hq as [Ha Hq].
  simpl. rewrite Ha. simpl. now apply IH.
Qed.

(** A pattern that opens with a line feed and holds no other one cannot
    overlap itself, so skipping behind a match loses no occurrence. *)
Lemma count_scan_occurrences (q : string) :
  nl_free q = true ->
  forall s k, nl_free_upto k s = true ->
  count_scan (String NL q) k s = occurrences (String NL q) s.
Proof.
  intros Hq. induction s as [|a s IH]; intros k Hk; [reflexivity|].
  cbn [count_scan occurrences]. destruct k as [|k].
  - destruct (String.prefix (String NL q) (String a s)) eqn:Hp.
    + rewrite prefix_cons in Hp. apply andb_prop in Hp as [_ Hp].
      replace (String.length (String NL q) - 1)%nat with (String.length q)
        by (cbn [String.length]; lia).
      rewrite IH by now apply prefix_nl_free_upto.
      reflexivity.
    + now rewrite IH.
  - cbn [nl_free_upto] in Hk. apply andb_prop in Hk as [Ha Hk].
    rewrite prefix_cons. rewrite Ascii.eqb_sym.
    apply negb_true_iff in Ha. rewrite Ha. simpl. now apply IH.
Qed.

Lemma split_nl_cons (s : string) : exists l ls, split_nl s = l :: ls.
Proof.
  destruct s as [|c s]; simpl; [now eauto|].
  destruct (Ascii.eqb c NL); [now eauto|].
  destruct (split_nl s); now eauto.
Qed.

(** A line-feed-free prefix of a text is a prefix of its first line. *)
Lemma prefix_first_line (q : string) :
  nl_free q = true ->
  forall s, String.prefix q (hd EmptyString (split_nl s)) = String.prefix q s.
Proof.
  induction q as [|b q IH]; intros Hq s.
  - destruct s; simpl; [reflexivity|]. now destruct (hd _ _).
  - simpl in Hq. apply andb_prop in Hq as [Hb Hq]. apply negb_true_iff in Hb.
    destruct s as [|a s]; [reflexivity|].
    cbn [split_nl]. destruct (Ascii.eqb a NL) eqn:Ha.
    + apply Ascii.eqb_eq in Ha. subst a. rewrite prefix_cons, Hb. reflexivity.
    + destruct (split_nl_cons s) as (l & ls & Hs).
      specialize (IH Hq s). rewrite Hs in *. cbn [hd] in *.
      now rewrite !prefix_cons, IH.
Qed.

(** Occurrences of "line feed, then [q]" are the later lines on [q]. *)
Lemma occurrences_later_lines (q : string) :
  nl_free q = true ->
  forall s, occurrences (String NL q) s
            = List.length (filter (String.prefix q) (later_lines s)).
Proof.
  intros Hq. unfold later_lines. induction s as [|a s IH]; [reflexivity|].
  cbn [occurrences split_nl]. rewrite prefix_cons, IH.
  destruct (Ascii.eqb a NL) eqn:Ha.
  - rewrite Ascii.eqb_sym, Ha. cbn [tl andb].
    pose proof (prefix_first_line q Hq s) as Hf.
    destruct (split_nl_cons s) as (l & ls & Hs). rewrite Hs in *.
    cbn [hd tl filter] in *. rewrite Hf.
    destruct (String.prefix q s); reflexivity.
  - rewrite Ascii.eqb_sym, Ha.
    destruct (split_nl_cons s) as (l & ls & Hs). rewrite Hs. reflexivity.
Qed.

Lemma count_later_lines (q s : string) :
  nl_free q = true ->
  count s (String NL q) = Z.of_nat (List.length (filter (String.prefix q) (later_lines s))).
Proof.
  intros Hq. unfold count.
  rewrite count_scan_occurrences by (assumption || reflexivity).
  now rewrite occurrences_later_lines.
Qed.

Lemma filter_split_length {A} (f g : A -> bool) (l : list A) :
  (forall x, g x = true -> f x = true) ->
  List.length (filter f l)
  = (List.length (filter (fun x => f x && negb (g x)) l) + List.length (filter g l))%nat.
Proof.
  intros Hgf. induction l as [|x l IH]; [reflexivity|].
  cbn [filter]. destruct (g x) eqn:Hg.
  - rewrite (Hgf x Hg). cbn. lia.
  - destruct (f x); cbn; lia.
Qed.

Lemma prefix_trans3 (m line : string) :
  String.prefix (m ++ m ++ m) line = true -> String.prefix m line = true.
Proof.
  revert line. generalize (m ++ m)%string as r.
  induction m as [|a m IH]; intros r line H; [now destruct line|].
  destruct line as [|b line]; [discriminate|].
  change (String a m ++ r) with (String a (m ++ r)) in H.
  rewrite prefix_cons in *.
  apply andb_prop in H as [-> H]. simpl. now apply (IH r).
Qed.

(** The difference the code computes is the number of marked later lines. *)
Lemma marker_difference (m s : string) :
  nl_free m = true ->
  (count s (String NL m) - count s (String NL (m ++ m ++ m)))%Z
  = count_marked m (later_lines s).
Proof.
  intros Hm.
  assert (Hmmm : nl_free (m ++ m ++ m) = true).
  { assert (Happ : forall a b, nl_free a = true -> nl_free b = true -> nl_free (a ++ b) = true).
    { induction a as [|c a IH]; intros b Ha Hb; [assumption|].
      simpl in *. apply andb_prop in Ha as [-> Ha]. simpl. now apply IH. }
    now repeat apply Happ. }
  rewrite !count_later_lines by assumption.
  unfold count_marked, marked, startswith.
  rewrite (filter_split_length (String.prefix m) (String.prefix (m ++ m ++ m)))
    by apply prefix_trans3.
  lia.
Qed.

Lemma count_marked_nonneg (m : string) (lines : list string) :
  (0 <= count_marked m lines)%Z.
Proof. unfold count_marked. lia. Qed.

Lemma count_marked_headers (m : string) (lines : list string) :
  (m = "+" \/ m = "-") ->
  forallb header_line lines = true -> count_marked m lines = 0%Z.
Proof.
  intros Hm. unfold count_marked. induction lines as [|l ls IH]; [reflexivity|].
  cbn [forallb filter]. intros H. apply andb_prop in H as [Hl Hls].
  assert (marked m l = false) as ->; [|now apply IH].
  unfold header_line, marked, startswith in *.
  assert (Hfirst : forall x y : ascii, Ascii.eqb x y = false ->
            String.prefix (String x (String x (String x ""))) l = true ->
            String.prefix (String y "") l = false).
  { intros x y Hxy Hp. destruct l as [|a l]; [discriminate|].
    rewrite prefix_cons in *. apply andb_prop in Hp as [Ha _].
    apply Ascii.eqb_eq in Ha. subst a. now rewrite Ascii.eqb_sym, Hxy. }
  destruct Hm as [-> | ->];
    [change ("+" ++ "+" ++ "+") with "+++" | change ("-" ++ "-" ++ "-") with "---"];
    apply orb_prop in Hl as [Hl|Hl]; rewrite ?Hl, ?andb_false_r; try reflexivity.
  - now rewrite (Hfirst "-"%char "+"%char).
  - now rewrite (Hfirst "+"%char "-"%char).
Qed.

(** ** Change records read from a diff index *)

(** A modified file whose patch is the single line [+x]. *)
Definition one_line_patch : DiffItem :=
  mkDiffItem false false false (Some "a.py") (Some "a.py") (Utf8Patch "+x").

(** C7, as stated, fails: the patch [+x] has one line that begins with a
    single [+], and the change record built from it counts 0 additions.
    The code counts the markers that follow a line feed, so the first line
    of a patch is never counted. *)
Lemma parse_diff_index_first_line_uncounted :
  _parse_diff_index [one_line_patch] = [mkDiffInfo "a.py" "M" 0 0 "+x" None]
  /\ count_marked "+" (split_nl "+x") = 1%Z.
Proof. split; reflexivity. Qed.

(** C7 (amended): for every change record produced from a diff index, the
    addition count is the number of lines after the first line of the
    patch that begin with [+] and not with [+++], the deletion count the
    number of those that begin with [-] and not with [---]; both counts are
    never negative, and a patch whose only lines are header lines yields 0
    additions and 0 deletions. *)
Theorem parse_diff_index_counts (diff_index : list DiffItem) (d : DiffInfo) :
  In d (_parse_diff_index diff_index) ->
  additions d = count_marked "+" (later_lines (diff_content d))
  /\ deletions d = count_marked "-" (later_lines (diff_content d))
  /\ (0 <= additions d)%Z /\ (0 <= deletions d)%Z
  /\ (forallb header_line (split_nl (diff_content d)) = true ->
      additions d = 0%Z /\ deletions d = 0%Z).
Proof.
  unfold _parse_diff_index. rewrite in_map_iff. intros (it & <- & _).
  unfold parse_diff_item. cbn [additions deletions diff_content].
  set (text := match diff it with Utf8Patch t => t | _ => "" end).
  change (String NL "+++") with (String NL ("+" ++ "+" ++ "+")).
  change (String NL "---") with (String NL ("-" ++ "-" ++ "-")).
  rewrite !marker_difference by reflexivity.
  pose proof (count_marked_nonneg "+" (later_lines text)) as Hp.
  pose proof (count_marked_nonneg "-" (later_lines text)) as Hm.
  unfold py_max. rewrite !Z.max_r by assumption.
  repeat split; try assumption.
  - apply count_marked_headers; [now left|].
    unfold later_lines. destruct (split_nl text); [reflexivity|].
    cbn [forallb] in H. now apply andb_prop in H as [_ H].
  - apply count_marked_headers; [now right|].
    unfold later_lines. destruct (split_nl text); [reflexivity|].
    cbn [forallb] in H. now apply andb_prop in H as [_ H].
Qed.

(** A patch as git writes it: a hunk header, one kept and one added line. *)
Definition hunk_patch : DiffItem :=
  mkDiffItem false false false (Some "a.py") (Some "a.py")
    (Utf8Patch ("@@ -1 +1,2 @@" ++ String NL " x" ++ String NL "+y")).

Lemma parse_diff_index_counts_witness :
  let d := parse_diff_item hunk_patch in
  additions d = count_marked "+" (later_lines (diff_content d))
  /\ deletions d = count_marked "-" (later_lines (diff_content d))
  /\ (0 <= additions d)%Z /\ (0 <= deletions d)%Z
  /\ (forallb header_line (split_nl (diff_content d)) = true ->
      additions d = 0%Z /\ deletions d = 0%Z).
Proof.
  apply (parse_diff_index_counts [hunk_patch] (parse_diff_item hunk_patch)).
  left. reflexivity.
Defined.

(** ** The staged changes of a repository without a commit *)

Lemma nl_free_app (a b : string) :
  nl_free a = true -> nl_free b = true -> nl_free (a ++ b) = true.
Proof.
  induction a as [|c a IH]; intros Ha Hb; [assumption|].
  change (nl_free (String c (a ++ b)) = true).
  cbn [nl_free] in *. apply andb_prop in Ha as [-> Ha]. now apply IH.
Qed.

Lemma linebreak_NL (c : ascii) : is_linebreak c = false -> Ascii.eqb c NL = false.
Proof.
  intros H. destruct (Ascii.eqb c NL) eqn:E; [|reflexivity].
  apply Ascii.eqb_eq in E. subst c. discriminate.
Qed.

(** No line that [splitlines] yields holds a line feed. *)
Lemma splitlines_aux_nl_free (n : nat) :
  forall s cur, (String.length s <= n)%nat -> nl_free cur = true ->
  Forall (fun line => nl_free line = true) (splitlines_aux cur s).
Proof.
  induction n as [|n IH]; intros s cur Hlen Hcur.
  - destruct s; [|cbn in Hlen; lia]. cbn. destruct cur; now repeat constructor.
  - destruct s as [|c s]; [cbn; destruct cur; now repeat constructor|].
    cbn [String.length] in Hlen. cbn [splitlines_aux].
    destruct (is_linebreak c) eqn:Hc.
    + destruct s as [|d s]; [now repeat constructor|].
      cbn [String.length] in Hlen.
      destruct (Ascii.eqb c CR && Ascii.eqb d NL);
        constructor; try assumption; apply IH; cbn [String.length]; try lia; reflexivity.
    + apply IH; [lia|]. apply nl_free_app; [assumption|].
      cbn [nl_free]. now rewrite (linebreak_NL c Hc).
Qed.

Lemma splitlines_nl_free (s : string) :
  Forall (fun line => nl_free line = true) (splitlines s).
Proof. now apply (splitlines_aux_nl_free (String.length s)). Qed.

Lemma split_nl_app (p rest : string) :
  nl_free p = true -> split_nl (p ++ String NL rest) = p :: split_nl rest.
Proof.
  induction p as [|c p IH]; intros Hp.
  - change (split_nl (String NL rest) = "" :: split_nl rest). reflexivity.
  - change (split_nl (String c (p ++ String NL rest)) = String c p :: split_nl rest).
    cbn [nl_free] in Hp. apply andb_prop in Hp as [Hc Hp]. apply negb_true_iff in Hc.
    cbn [split_nl]. rewrite Hc, (IH Hp). reflexivity.
Qed.

Lemma split_nl_line (p : string) : nl_free p = true -> split_nl p = [p].
Proof.
  induction p as [|c p IH]; intros Hp; [reflexivity|].
  cbn [nl_free] in Hp. apply andb_prop in Hp as [Hc Hp]. apply negb_true_iff in Hc.
  cbn [split_nl]. rewrite Hc, (IH Hp). reflexivity.
Qed.

(** Joining lines with line feeds and splitting at them gives the lines. *)
Lemma split_nl_join (p : string) (lines : list string) :
  Forall (fun line => nl_free line = true) (p :: lines) ->
  split_nl (join (String NL "") (p :: lines)) = p :: lines.
Proof.
  revert p. induction lines as [|q lines IH]; intros p H.
  - apply split_nl_line. now inversion H.
  - inversion H as [|? ? Hp Hrest]; subst.
    change (join (String NL "") (p :: q :: lines))
      with (p ++ String NL (join (String NL "") (q :: lines))).
    rewrite split_nl_app by assumption. now rewrite IH.
Qed.

(** The additions of a staged file that reads as text: one less than the
    number of its lines (and 0 for a file without a line). *)
Lemma initial_diff_entry_additions (r : Repo) (path : string) (stage : Z) (content : string) :
  worktree r !! path = Some (Fs.TextFile content) ->
  let d := initial_diff_entry r (path, stage) in
  file_path d = path /\ change_type d = "A" /\ deletions d = 0%Z
  /\ diff_content d
     = join (String NL "") (map (fun line => "+" ++ line) (splitlines content))
  /\ additions d = Z.of_nat (List.length (splitlines content) - 1).
Proof.
  intros Hfile d. subst d. unfold initial_diff_entry, Fs.read_text.
  cbn [fst]. rewrite Hfile. cbn [file_path change_type deletions diff_content additions].
  repeat split.
  pose proof (splitlines_nl_free content) as Hfree.
  destruct (splitlines content) as [|l ls]; [reflexivity|].
  cbn [map].
  set (marked_lines := ("+" ++ l) :: map (fun line => "+" ++ line) ls).
  assert (Hall : Forall (fun line => nl_free line = true) marked_lines).
  { unfold marked_lines. rewrite <- (map_cons (fun line => "+" ++ line)).
    apply Forall_map. eapply Forall_impl; [|exact Hfree].
    intros a Ha. now apply nl_free_app. }
  replace (String.eqb (join (String NL "") marked_lines) "") with false.
  2:{ unfold marked_lines. destruct ls; reflexivity. }
  rewrite (count_later_lines "+") by reflexivity.
  unfold later_lines. subst marked_lines. rewrite split_nl_join by exact Hall.
  cbn [tl]. replace (List.length (l :: ls) - 1)%nat with (List.length ls)
    by (cbn [List.length]; lia).
  f_equal.
  clear. induction ls as [|x ls IH]; [reflexivity|].
  cbn [map filter].
  assert (String.prefix "+" ("+" ++ x) = true) as -> by (apply prefix_app; now exists x).
  cbn [List.length]. now rewrite IH.
Qed.


(** A repository without a commit with one staged new file [a.py] of two
    lines: [HEAD] names no object, so the comparison raises [BadName]. *)
Definition two_line_repo : Repo :=
  mkRepo [] HeadBadName [("a.py", 0%Z)]
    {[ "a.py" := Fs.TextFile ("x = 1" ++ String NL "y = 2" ++ String NL "") ]}.

(** The same index and working tree in a repository where git itself fails
    on the comparison, the one case [get_staged_diff] catches. *)
Definition two_line_repo_git_failure : Repo :=
  mkRepo [] HeadGitCommandError (index_entries two_line_repo) (worktree two_line_repo).

(** C6 at the scenario of the specification: in the repository without a
    commit the staged file is not reported at all, the [BadName] of the
    comparison leaves [get_staged_diff]; and where the comparison raises
    [GitCommandError] and the fallback does run, as when
    [_get_initial_commit_diff] is called directly, the file is one added
    change whose patch is its two lines prefixed with [+], with 0 deletions,
    but with 1 addition where the claim says 2: the count of [+] markers
    that follow a line feed misses the first line. *)
Theorem get_staged_diff_two_line_file :
  get_staged_diff two_line_repo = inl BadName
  /\ _get_initial_commit_diff two_line_repo
     = [mkDiffInfo "a.py" "A" 1 0 ("+x = 1" ++ String NL "+y = 2") None]
  /\ get_staged_diff two_line_repo_git_failure
     = inr [mkDiffInfo "a.py" "A" 1 0 ("+x = 1" ++ String NL "+y = 2") None].
Proof. repeat split; vm_compute; reflexivity. Qed.

(** ** The shape of the change records *)

(** The change kinds a record can carry. *)
Definition change_kinds : list string := ["A"; "D"; "R"; "M"].

(** What a diff item fixes of its record: the kind by the precedence of
    its flags, and the path by preferring the destination. *)
Lemma parse_diff_item_kind (it : DiffItem) :
  In (change_type (parse_diff_item it)) change_kinds
  /\ (new_file it = true -> change_type (parse_diff_item it) = "A")
  /\ (new_file it = false -> deleted_file it = true ->
      change_type (parse_diff_item it) = "D")
  /\ (change_type (parse_diff_item it) = "R" -> renamed it = true)
  /\ (change_type (parse_diff_item it) = "M" ->
      new_file it = false /\ deleted_file it = false /\ renamed it = false).
Proof.
  unfold parse_diff_item. cbn [change_type change_kinds].
  destruct (new_file it), (deleted_file it), (renamed it); cbn [In];
    repeat split; intros; try discriminate; try reflexivity;
    unfold change_kinds; cbn [In]; auto 6.
Qed.

(** X1: the records of a diff index keep the number and order of its
    items; every record has one of the four change kinds, a prior path
    exactly when the renamed flag of its item is set (so every renamed
    record has one), and a patch that is absent or does not decode gives
    the empty patch with no additions and no deletions. *)
Theorem parse_diff_index_records (diff_index : list DiffItem) :
  List.length (_parse_diff_index diff_index) = List.length diff_index
  /\ (forall i it, nth_error diff_index i = Some it ->
        exists d, nth_error (_parse_diff_index diff_index) i = Some d
          /\ In (change_type d) change_kinds
          /\ (new_file it = true -> change_type d = "A")
          /\ (new_file it = false -> deleted_file it = true -> change_type d = "D")
          /\ (change_type d = "R" -> renamed it = true /\ old_path d <> None)
          /\ (old_path d <> None <-> renamed it = true)
          /\ (diff it = NoPatch \/ diff it = UndecodablePatch ->
              diff_content d = "" /\ additions d = 0%Z /\ deletions d = 0%Z)).
Proof.
  unfold _parse_diff_index. split; [apply length_map|].
  intros i it Hit. exists (parse_diff_item it).
  split; [now apply map_nth_error|].
  destruct (parse_diff_item_kind it) as (Hkind & Hnew & Hdel & Hren & _).
  split; [exact Hkind|]. split; [exact Hnew|]. split; [exact Hdel|].
  split.
  { intros HR. apply Hren in HR. split; [exact HR|].
    unfold parse_diff_item. cbn [old_path]. now rewrite HR. }
  split.
  { unfold parse_diff_item. cbn [old_path].
    destruct (renamed it); split; intros H; try reflexivity; try discriminate.
    now contradiction H. }
  intros [H|H]; unfold parse_diff_item; rewrite H; repeat split.
Qed.

(** A new file that also carries the renamed flag, without a patch. *)
Definition new_renamed_item : DiffItem :=
  mkDiffItem true false true (Some "b.py") (Some "a.py") NoPatch.

Lemma parse_diff_index_records_witness :
  exists d, nth_error (_parse_diff_index [new_renamed_item]) 0 = Some d
    /\ change_type d = "A" /\ old_path d = Some "a.py" /\ additions d = 0%Z.
Proof.
  destruct (parse_diff_index_records [new_renamed_item]) as [_ H].
  destruct (H 0%nat new_renamed_item eq_refl) as (d & Hd & _ & Hnew & _).
  exists d. split; [exact Hd|]. injection Hd as <-. now repeat split.
Defined.




(** X3: [_get_initial_commit_diff] reports a staged file that reads as
    text with the patch made of its lines, each prefixed with [+] and joined
    by line feeds, and with one addition less than it has lines (none for a
    file without a line). *)
Theorem initial_commit_text_file (r : Repo) (path : string) (stage : Z) (content : string) :
  In (path, stage) (index_entries r) ->
  worktree r !! path = Some (Fs.TextFile content) ->
  In (mkDiffInfo path "A"
        (Z.of_nat (List.length (splitlines content) - 1)) 0
        (join (String NL "") (map (fun line => "+" ++ line) (splitlines content)))
        None)
     (_get_initial_commit_diff r).
Proof.
  intros Hin Hfile. unfold _get_initial_commit_diff.
  apply in_map_iff. exists (path, stage). split; [|exact Hin].
  destruct (initial_diff_entry_additions r path stage content Hfile)
    as (Hpath & Hkind & Hdel & Hpatch & Hadd).
  destruct (initial_diff_entry r (path, stage)) as [fp ct ad de dc op] eqn:Hd.
  cbn [file_path change_type deletions diff_content additions] in *. subst.
  f_equal. unfold initial_diff_entry in Hd. now injection Hd.
Qed.

Lemma initial_commit_text_file_witness :
  In (mkDiffInfo "a.py" "A" 1 0 ("+x = 1" ++ String NL "+y = 2") None)
     (_get_initial_commit_diff two_line_repo).
Proof.
  apply (initial_commit_text_file two_line_repo "a.py" 0%Z
           ("x = 1" ++ String NL "y = 2" ++ String NL ""));
    [now left | reflexivity].
Defined.

End Git.

(* ===================================================================== *)
(** * ast_analyzer.py *)
(* ===================================================================== *)

(** The node classes of Python's [ast] module the analyzer tells apart;
    every other class is an [Other] node. *)
Module ast.

Inductive class :=
| Module_ | FunctionDef | AsyncFunctionDef | ClassDef
| If | IfExp | While | For | AsyncFor | ExceptHandler | BoolOp
| Import_ | ImportFrom | Assign | Name | alias | arguments | arg
| Other (class_name : string).

Definition class_eqb (a b : class) : bool :=
  match a, b with
  | Module_, Module_ | FunctionDef, FunctionDef
  | AsyncFunctionDef, AsyncFunctionDef | ClassDef, ClassDef
  | If, If | IfExp, IfExp | While, While | For, For | AsyncFor, AsyncFor
  | ExceptHandler, ExceptHandler | BoolOp, BoolOp
  | Import_, Import_ | ImportFrom, ImportFrom | Assign, Assign
  | Name, Name | alias, alias | arguments, arguments | arg, arg => true
  | Other x, Other y => String.eqb x y
  | _, _ => false
  end.

(** The attributes of a node that are not nodes themselves. [name] also
    stands for [Name.id] and [arg.arg]. *)
Record attributes := mkAttributes {
  name : string;
  asname : option string;
  module : option string;
  lineno : Z;
  col_offset : Z;
  end_lineno : option Z
}.

#[local] Set Warnings "-register-all".

(** A node: its class, its attributes, and its child nodes in field order,
    each under the name of the field that holds it ([body], [values],
    [decorator_list], ...). *)
Inductive node :=
| Node (cls : class) (attrs : attributes) (children : list (string * node)).

Definition cls (n : node) : class := let 'Node c _ _ := n in c.
Definition attrs (n : node) : attributes := let 'Node _ a _ := n in a.
Definition children (n : node) : list (string * node) := let 'Node _ _ k := n in k.

(** [ast.iter_child_nodes] *)
Definition iter_child_nodes (n : node) : list node := map snd (children n).

(** [n.<field>] as a list of nodes (a field holding one node or [None] is
    a list of one or no node). *)
Definition field (n : node) (f : string) : list node :=
  map snd (filter (fun c => String.eqb (fst c) f) (children n)).

(** The number of nodes of a tree. *)
Fixpoint size (n : node) : nat :=
  let 'Node _ _ k := n in
  S ((fix sizes (l : list (string * node)) : nat :=
        match l with
        | [] => 0%nat
        | c :: l' => (size (snd c) + sizes l')%nat
        end) k).

(** [ast.walk]: the nodes of the tree, breadth first. [todo] is the deque
    of the generator; each step pops its left end and appends the children
    of the popped node. *)
Fixpoint walk_queue (fuel : nat) (todo : list node) : list node :=
  match fuel, todo with
  | S fuel', n :: rest => n :: walk_queue fuel' (rest ++ iter_child_nodes n)
  | _, _ => []
  end.

Definition walk (n : node) : list node := walk_queue (size n) [n].

Definition option_eqb {A} (eqb : A -> A -> bool) (x y : option A) : bool :=
  match x, y with
  | Some a, Some b => eqb a b
  | None, None => true
  | _, _ => false
  end.

Definition attributes_eqb (a b : attributes) : bool :=
  String.eqb (name a) (name b)
  && option_eqb String.eqb (asname a) (asname b)
  && option_eqb String.eqb (module a) (module b)
  && Z.eqb (lineno a) (lineno b) && Z.eqb (col_offset a) (col_offset b)
  && option_eqb Z.eqb (end_lineno a) (end_lineno b).

(** Equality of nodes. Python compares nodes by identity; two nodes of one
    parsed tree differ in class or position, so equality of class,
    attributes and children tells them apart in the same way. *)
Fixpoint node_eqb (a b : node) : bool :=
  match a, b with
  | Node c1 a1 k1, Node c2 a2 k2 =>
      class_eqb c1 c2 && attributes_eqb a1 a2
      && (fix all2 (l1 l2 : list (string * node)) : bool :=
            match l1, l2 with
            | [], [] => true
            | x :: l1', y :: l2' =>
                String.eqb (fst x) (fst y) && node_eqb (snd x) (snd y) && all2 l1' l2'
            | _, _ => false
            end) k1 k2
  end.

(** The nodes of the subtree rooted at [n], the root first. *)
Fixpoint subtree (n : node) : list node :=
  let 'Node _ _ k := n in
  n :: (fix subtrees (l : list (string * node)) : list node :=
          match l with
          | [] => []
          | c :: l' => (subtree (snd c) ++ subtrees l')%list
          end) k.

Lemma subtree_unfold (n : node) :
  subtree n = n :: flat_map subtree (iter_child_nodes n).
Proof.
  destruct n as [c a k]. cbn [subtree]. f_equal.
  unfold iter_child_nodes. cbn [children].
  induction k as [|x k IH]; [reflexivity|]. cbn [map flat_map]. now rewrite IH.
Qed.

Definition sizes (l : list node) : nat := list_sum (map size l).

Lemma size_unfold (n : node) : size n = S (sizes (iter_child_nodes n)).
Proof.
  destruct n as [c a k]. cbn [size]. f_equal.
  unfold sizes, iter_child_nodes. cbn [children].
  induction k as [|x k IH]; [reflexivity|]. cbn [map list_sum]. now rewrite IH.
Qed.

Lemma sizes_app (l1 l2 : list node) : sizes (l1 ++ l2) = (sizes l1 + sizes l2)%nat.
Proof. unfold sizes. now rewrite map_app, list_sum_app. Qed.

Lemma sizes_cons (n : node) (l : list node) :
  sizes (n :: l) = S (sizes (iter_child_nodes n) + sizes l).
Proof.
  unfold sizes at 1. simpl. rewrite size_unfold. reflexivity.
Qed.

(** With fuel for every node of the queue, the traversal yields the nodes
    of the queued subtrees, each once. *)
Lemma walk_queue_subtrees (fuel : nat) :
  forall todo, (sizes todo <= fuel)%nat ->
  Permutation (walk_queue fuel todo) (flat_map subtree todo).
Proof.
  induction fuel as [|fuel IH]; intros todo Hfuel.
  - destruct todo as [|n rest]; [constructor|].
    rewrite sizes_cons in Hfuel. lia.
  - destruct todo as [|n rest]; [constructor|].
    rewrite sizes_cons in Hfuel.
    cbn [walk_queue flat_map]. rewrite subtree_unfold. cbn [app].
    constructor.
    rewrite IH.
    + rewrite flat_map_app. apply Permutation_app_comm.
    + rewrite sizes_app. lia.
Qed.

(** [ast.walk] yields every node of the subtree exactly once. *)
Lemma walk_subtree (n : node) : Permutation (walk n) (subtree n).
Proof.
  unfold walk. rewrite walk_queue_subtrees.
  - cbn [flat_map]. now rewrite app_nil_r.
  - rewrite sizes_cons, size_unfold. unfold sizes at 2. simpl. lia.
Qed.

(** ** Equality of nodes *)

(** Induction over a tree, with the property known of every child. *)
Fixpoint node_rect_children (P : node -> Prop)
    (step : forall c a k, Forall (fun x => P (snd x)) k -> P (Node c a k))
    (n : node) : P n :=
  match n with
  | Node c a k =>
      step c a k
        ((fix children_ok (l : list (string * node)) : Forall (fun x => P (snd x)) l :=
            match l with
            | [] => @List.Forall_nil _ _
            | x :: l' =>
                @List.Forall_cons _ _ x l' (node_rect_children P step (snd x))
                  (children_ok l')
            end) k)
  end.

Lemma class_eqb_eq (a b : class) : class_eqb a b = true <-> a = b.
Proof.
  split.
  - destruct a, b; cbn; try discriminate; try reflexivity.
    intros H. apply String.eqb_eq in H. now subst.
  - intros <-. destruct a; cbn; try reflexivity. apply String.eqb_refl.
Qed.

Lemma option_eqb_eq {A} (eqb : A -> A -> bool) (x y : option A) :
  (forall a b, eqb a b = true <-> a = b) ->
  option_eqb eqb x y = true <-> x = y.
Proof.
  intros Heq. destruct x as [a|], y as [b|]; cbn; try (split; (discriminate || reflexivity)).
  rewrite Heq. split; [now intros -> | now intros [= ->]].
Qed.

Lemma attributes_eqb_eq (a b : attributes) : attributes_eqb a b = true <-> a = b.
Proof.
  unfold attributes_eqb. rewrite !andb_true_iff.
  rewrite String.eqb_eq, !(option_eqb_eq String.eqb) by apply String.eqb_eq.
  rewrite !Z.eqb_eq, (option_eqb_eq Z.eqb) by apply Z.eqb_eq.
  destruct a, b; cbn. split.
  - intros (((((-> & ->) & ->) & ->) & ->) & ->). reflexivity.
  - intros [= -> -> -> -> -> ->]. repeat split.
Qed.

(** [node_eqb] decides equality of trees. *)
Lemma node_eqb_eq (a b : node) : node_eqb a b = true <-> a = b.
Proof.
  revert b. induction a as [c1 a1 k1 IH] using node_rect_children.
  intros [c2 a2 k2]. cbn [node_eqb].
  rewrite !andb_true_iff, class_eqb_eq, attributes_eqb_eq.
  match goal with
  | |- context [?f k1 k2 = true] =>
      assert (Hkids : f k1 k2 = true <-> k1 = k2)
  end.
  { clear c1 c2 a1 a2. revert k2.
    induction IH as [|[t1 x] k1 Hx _ IHk]; intros [|[t2 y] k2];
      try (split; (discriminate || reflexivity)).
    cbn [fst snd] in *. rewrite !andb_true_iff, String.eqb_eq, Hx, IHk. split.
    - intros [[-> ->] ->]. reflexivity.
    - intros [= -> -> ->]. repeat split. }
  rewrite Hkids. split.
  - intros [[-> ->] ->]. reflexivity.
  - intros [= -> -> ->]. repeat split.
Qed.

Lemma existsb_node_eqb (n : node) (l : list node) :
  existsb (node_eqb n) l = true <-> In n l.
Proof.
  rewrite existsb_exists. split.
  - intros (m & Hm & Heq). apply node_eqb_eq in Heq. now subst.
  - intros H. exists n. split; [exact H | now apply node_eqb_eq].
Qed.

Lemma walk_In (n m : node) : In m (walk n) <-> In m (subtree n).
Proof.
  split; apply Permutation_in; [|symmetry]; apply walk_subtree.
Qed.

(** The nodes a field holds are child nodes. *)
Lemma field_children (n m : node) (f : string) :
  In m (field n f) -> In m (iter_child_nodes n).
Proof.
  unfold field, iter_child_nodes. rewrite !in_map_iff.
  intros (c & Hc & Hin). apply filter_In in Hin as [Hin _]. now exists c.
Qed.

(** A node of the subtree of a node of a tree is a node of the tree. *)
Lemma subtree_trans (t : node) :
  forall a b, In a (subtree t) -> In b (subtree a) -> In b (subtree t).
Proof.
  induction t as [c at_ k IH] using node_rect_children.
  intros a b Ha Hb. rewrite subtree_unfold in Ha. destruct Ha as [<-|Ha]; [exact Hb|].
  rewrite subtree_unfold. right.
  apply in_flat_map in Ha as (child & Hchild & Ha). apply in_flat_map.
  exists child. split; [exact Hchild|].
  unfold iter_child_nodes in Hchild. cbn [children] in Hchild.
  apply in_map_iff in Hchild as (x & <- & Hx).
  rewrite List.Forall_forall in IH. exact (IH x Hx a b Ha Hb).
Qed.

(** A child of a node of a tree is a node of the tree. *)
Lemma child_subtree (t a m : node) :
  In a (subtree t) -> In m (iter_child_nodes a) -> In m (subtree t).
Proof.
  intros Ha Hm. apply (subtree_trans t a m Ha).
  rewrite subtree_unfold. right. apply in_flat_map. exists m. split; [exact Hm|].
  rewrite subtree_unfold. now left.
Qed.

End ast.

Module Ast.
Import PyStr.

(** [FunctionInfo] *)
Record FunctionInfo := mkFunctionInfo {
  name : string;
  lineno : Z;
  end_lineno : Z;
  args : list string;
  returns : option string;
  is_async : bool;
  is_method : bool;
  docstring : option string;
  decorators : list string;
  complexity : Z
}.

(** [ClassInfo] *)
Record ClassInfo := mkClassInfo {
  class_name : string;
  class_lineno : Z;
  class_end_lineno : Z;
  bases : list string;
  methods : list FunctionInfo;
  class_docstring : option string;
  class_decorators : list string
}.

(** [ImportInfo] *)
Record ImportInfo := mkImportInfo {
  module : string;
  names : list string;
  import_lineno : Z;
  is_from_import : bool
}.

(** [CodeMetrics]; Python's floats are read as rationals. *)
Record CodeMetrics := mkCodeMetrics {
  lines_of_code : Z;
  cyclomatic_complexity : Q;
  maintainability_index : Q;
  halstead_metrics : list (string * Q);
  functions_count : Z;
  classes_count : Z;
  average_function_complexity : Q
}.

(** [FileAnalysis] *)
Record FileAnalysis := mkFileAnalysis {
  file_path : string;
  functions : list FunctionInfo;
  classes : list ClassInfo;
  imports : list ImportInfo;
  global_variables : list string;
  metrics : option CodeMetrics;
  parse_errors : list string
}.

(** [FileAnalysis(file_path=file_path)] *)
Definition new_analysis (file_path : string) : FileAnalysis :=
  mkFileAnalysis file_path [] [] [] [] None [].

(** What the analyzer calls outside the package: the parser and printer of
    Python's [ast] module and radon's three visitors. [ast_parse] returns
    the text of the [SyntaxError] on the left; a radon visitor returns
    [None] where the Python call raises. [h_visit] returns the [total]
    triple (volume, difficulty, effort), or [None] inside when the result
    is falsy or has no [total]. *)
Class Externals := {
  ast_parse : string -> string -> string + ast.node;
  ast_unparse : ast.node -> string;
  ast_get_docstring : ast.node -> option string;
  cc_visit : string -> option (list Q);
  mi_visit : string -> option Q;
  h_visit : string -> option (option (Q * Q * Q))
}.

Definition is_def (n : ast.node) : bool :=
  match ast.cls n with
  | ast.FunctionDef | ast.AsyncFunctionDef => true
  | _ => false
  end.

(** One step of the complexity loop of [_parse_function]. *)
Definition complexity_step (complexity : Z) (child : ast.node) : Z :=
  match ast.cls child with
  | ast.If | ast.While | ast.For | ast.ExceptHandler => complexity + 1
  | ast.BoolOp => complexity + (Z.of_nat (List.length (ast.field child "values")) - 1)
  | _ => complexity
  end.

(** The complexity loop of [_parse_function]: from the base complexity 1,
    one step per node [ast.walk] yields. *)
Definition walk_complexity (node : ast.node) : Z :=
  fold_left complexity_step (ast.walk node) 1%Z.

Section Analyzer.
Context {ext : Externals}.

(** The text of one parameter in [_parse_function]. *)
Definition arg_text (a : ast.node) : string :=
  match ast.field a "annotation" with
  | ann :: _ => ast.name (ast.attrs a) ++ ": " ++ ast_unparse ann
  | [] => ast.name (ast.attrs a)
  end.

(** [ASTAnalyzer._parse_function] *)
Definition _parse_function (node : ast.node) : FunctionInfo :=
  let args := map arg_text (flat_map (fun a => ast.field a "args") (ast.field node "args")) in
  let returns := option_map ast_unparse (hd_error (ast.field node "returns")) in
  let docstring := ast_get_docstring node in
  let decorators := map ast_unparse (ast.field node "decorator_list") in
  let complexity := walk_complexity node in
  let lineno := ast.lineno (ast.attrs node) in
  mkFunctionInfo (ast.name (ast.attrs node)) lineno
    (match ast.end_lineno (ast.attrs node) with
     | Some e => if Z.eqb e 0 then lineno else e
     | None => lineno
     end)
    args returns
    (match ast.cls node with ast.AsyncFunctionDef => true | _ => false end)
    false docstring decorators complexity.

Definition set_is_method (f : FunctionInfo) : FunctionInfo :=
  mkFunctionInfo (name f) (lineno f) (end_lineno f) (args f) (returns f)
    (is_async f) true (docstring f) (decorators f) (complexity f).

(** [ASTAnalyzer._parse_class] *)
Definition _parse_class (node : ast.node) : ClassInfo :=
  let bases := map ast_unparse (ast.field node "bases") in
  let methods :=
    map (fun item => set_is_method (_parse_function item))
        (filter is_def (ast.field node "body")) in
  let lineno := ast.lineno (ast.attrs node) in
  mkClassInfo (ast.name (ast.attrs node)) lineno
    (match ast.end_lineno (ast.attrs node) with
     | Some e => if Z.eqb e 0 then lineno else e
     | None => lineno
     end)
    bases methods (ast_get_docstring node)
    (map ast_unparse (ast.field node "decorator_list")).

(** [ASTAnalyzer._is_method] *)
Definition _is_method (node tree : ast.node) : bool :=
  existsb (fun parent =>
             match ast.cls parent with
             | ast.ClassDef => existsb (ast.node_eqb node) (ast.field parent "body")
             | _ => false
             end)
          (ast.walk tree).

(** [ASTAnalyzer._extract_functions] *)
Definition _extract_functions (tree : ast.node) : list FunctionInfo :=
  map _parse_function
      (filter (fun node => is_def node && negb (_is_method node tree)) (ast.walk tree)).

(** [ASTAnalyzer._extract_classes] *)
Definition _extract_classes (tree : ast.node) : list ClassInfo :=
  map _parse_class
      (filter (fun node => match ast.cls node with ast.ClassDef => true | _ => false end)
              (ast.walk tree)).

Definition truthy_str (s : option string) : bool :=
  match s with Some t => negb (String.eqb t "") | None => false end.

(** The imports one node contributes in [_extract_imports]. *)
Definition imports_of_node (node : ast.node) : list ImportInfo :=
  match ast.cls node with
  | ast.Import_ =>
      map (fun a =>
             let alias_name := ast.name (ast.attrs a) in
             mkImportInfo alias_name
               [if truthy_str (ast.asname (ast.attrs a))
                then default "" (ast.asname (ast.attrs a)) else alias_name]
               (ast.lineno (ast.attrs node)) false)
          (ast.field node "names")
  | ast.ImportFrom =>
      [mkImportInfo
         (if truthy_str (ast.module (ast.attrs node))
          then default "" (ast.module (ast.attrs node)) else "")
         (map (fun a => ast.name (ast.attrs a)) (ast.field node "names"))
         (ast.lineno (ast.attrs node)) true]
  | _ => []
  end.

(** [ASTAnalyzer._extract_imports] *)
Definition _extract_imports (tree : ast.node) : list ImportInfo :=
  flat_map imports_of_node (ast.walk tree).

(** [ASTAnalyzer._extract_global_variables] *)
Definition _extract_global_variables (tree : ast.node) : list string :=
  flat_map (fun node =>
              match ast.cls node, ast.field node "targets" with
              | ast.Assign, target :: _ =>
                  match ast.cls target with
                  | ast.Name => [ast.name (ast.attrs target)]
                  | _ => []
                  end
              | _, _ => []
              end)
           (ast.walk tree).

Definition Qsum (l : list Q) : Q := fold_right Qplus 0%Q l.

(** [ASTAnalyzer._calculate_metrics] *)
Definition _calculate_metrics (source_code : string)
    (functions : list FunctionInfo) (classes : list ClassInfo) : CodeMetrics :=
  let lines_of_code :=
    Z.of_nat (List.length
      (filter (fun line => negb (String.eqb (strip line) "")) (splitlines source_code))) in
  let '(avg_complexity, total_complexity) :=
    match cc_visit source_code with
    | Some cc_results =>
        (match cc_results with
         | [] => 1%Q
         | _ => (Qsum cc_results / inject_Z (Z.of_nat (List.length cc_results)))%Q
         end,
         Qsum cc_results)
    | None => (1%Q, 1%Q)
    end in
  let maintainability :=
    match mi_visit source_code with
    | Some mi_score => mi_score
    | None => 100%Q
    end in
  let halstead_dict :=
    match h_visit source_code with
    | Some (Some (volume, difficulty, effort)) =>
        [("volume", volume); ("difficulty", difficulty); ("effort", effort)]
    | Some None => [("volume", 0%Q); ("difficulty", 0%Q); ("effort", 0%Q)]
    | None => []
    end in
  mkCodeMetrics lines_of_code total_complexity maintainability halstead_dict
    (Z.of_nat (List.length functions)) (Z.of_nat (List.length classes)) avg_complexity.

(** [ASTAnalyzer.analyze_file] *)
Definition analyze_file (fs : gmap string Fs.file) (file_path : string) : FileAnalysis :=
  let analysis := new_analysis file_path in
  match Fs.read_text fs file_path with
  | inl e =>
      mkFileAnalysis file_path (functions analysis) (classes analysis)
        (imports analysis) (global_variables analysis) (metrics analysis)
        (parse_errors analysis ++ ["Failed to read file: " ++ Fs.error_text e])
  | inr source_code =>
      match ast_parse source_code file_path with
      | inl e =>
          mkFileAnalysis file_path (functions analysis) (classes analysis)
            (imports analysis) (global_variables analysis) (metrics analysis)
            (parse_errors analysis ++ ["Syntax error: " ++ e])
      | inr tree =>
          let functions := _extract_functions tree in
          let classes := _extract_classes tree in
          let imports := _extract_imports tree in
          let global_variables := _extract_global_variables tree in
          mkFileAnalysis file_path functions classes imports global_variables
            (Some (_calculate_metrics source_code functions classes))
            (parse_errors analysis)
      end
  end.

(** [ASTAnalyzer.find_test_functions] *)
Definition find_test_functions (fs : gmap string Fs.file) (file_path : string)
    : list FunctionInfo :=
  filter (fun func => startswith (name func) "test_") (functions (analyze_file fs file_path)).

End Analyzer.

(** ** Cyclomatic complexity *)

(** The node classes the complexity loop adds 1 for. *)
Definition counted_branch (n : ast.node) : bool :=
  match ast.cls n with
  | ast.If | ast.While | ast.For | ast.ExceptHandler => true
  | _ => false
  end.

Definition is_BoolOp (n : ast.node) : bool :=
  match ast.cls n with ast.BoolOp => true | _ => false end.

(** The operands of a boolean expression. *)
Definition operands (n : ast.node) : Z := Z.of_nat (List.length (ast.field n "values")).

Definition Zsum (l : list Z) : Z := fold_right Z.add 0%Z l.

(** The number of nodes of the subtree of [n] that satisfy [p]. *)
Definition count_nodes (p : ast.node -> bool) (n : ast.node) : Z :=
  Z.of_nat (List.length (filter p (ast.subtree n))).

(** The sum of [k - 1] over the boolean expressions of the subtree of [n],
    [k] the number of operands of each. *)
Definition short_circuit_extra (n : ast.node) : Z :=
  Zsum (map (fun b => operands b - 1)%Z (filter is_BoolOp (ast.subtree n))).

(** The conditional, loop and exception-handler nodes of Python's syntax,
    as the specification names them: the statement [if] and the
    conditional expression, the loops [while], [for] and [async for], and
    the handlers of [try]. *)
Definition stated_branch (n : ast.node) : bool :=
  match ast.cls n with
  | ast.If | ast.IfExp => true
  | ast.While | ast.For | ast.AsyncFor => true
  | ast.ExceptHandler => true
  | _ => false
  end.

(** The complexity the specification states, in its words. *)
Definition stated_complexity (n : ast.node) : Z :=
  (1 + count_nodes stated_branch n + short_circuit_extra n)%Z.

(** What one node adds to the complexity. *)
Definition weight (n : ast.node) : Z := complexity_step 0 n.

Lemma complexity_step_weight (c : Z) (n : ast.node) :
  complexity_step c n = (c + weight n)%Z.
Proof. unfold weight, complexity_step. destruct (ast.cls n); lia. Qed.

Lemma fold_complexity_step (l : list ast.node) (c : Z) :
  fold_left complexity_step l c = (c + Zsum (map weight l))%Z.
Proof.
  revert c. induction l as [|n l IH]; intros c; cbn [fold_left map Zsum fold_right].
  - lia.
  - rewrite IH, complexity_step_weight. unfold Zsum. lia.
Qed.

Lemma Zsum_weight_perm (l1 l2 : list ast.node) :
  Permutation l1 l2 -> Zsum (map weight l1) = Zsum (map weight l2).
Proof.
  induction 1; cbn [map Zsum fold_right] in *; unfold Zsum in *; lia.
Qed.

Lemma Zsum_weight_split (l : list ast.node) :
  Zsum (map weight l)
  = (Z.of_nat (List.length (filter counted_branch l))
     + Zsum (map (fun b => operands b - 1) (filter is_BoolOp l)))%Z.
Proof.
  induction l as [|n l IH]; [reflexivity|].
  cbn [map filter Zsum fold_right]. fold (Zsum (map weight l)). rewrite IH.
  unfold weight, complexity_step, counted_branch, is_BoolOp, operands.
  destruct (ast.cls n); cbn [List.length map Zsum fold_right]; unfold Zsum; lia.
Qed.

Lemma walk_complexity_formula (node : ast.node) :
  walk_complexity node
  = (1 + count_nodes counted_branch node + short_circuit_extra node)%Z.
Proof.
  unfold walk_complexity, count_nodes, short_circuit_extra.
  rewrite fold_complexity_step, (Zsum_weight_perm _ _ (ast.walk_subtree node)).
  rewrite Zsum_weight_split. lia.
Qed.

(** Syntax trees of two small definitions. *)
Local Open Scope Z_scope.

Definition leaf (c : ast.class) (name : string) (line : Z) : ast.node :=
  ast.Node c (ast.mkAttributes name None None line 4 (Some line)) [].

Definition params (line : Z) (names : list string) : ast.node :=
  ast.Node ast.arguments (ast.mkAttributes "" None None line 6 (Some line))
    (map (fun x => ("args", leaf ast.arg x line)) names).

(** [def f(x):] / [if x:] / [return 1] / [return 2] *)
Definition def_f : ast.node :=
  ast.Node ast.FunctionDef (ast.mkAttributes "f" None None 1 0 (Some 4))
    [("args", params 1 ["x"]);
     ("body", ast.Node ast.If (ast.mkAttributes "" None None 2 4 (Some 3))
                [("test", leaf ast.Name "x" 2);
                 ("body", ast.Node (ast.Other "Return") (ast.mkAttributes "" None None 3 8 (Some 3))
                            [("value", leaf (ast.Other "Constant") "" 3)])]);
     ("body", ast.Node (ast.Other "Return") (ast.mkAttributes "" None None 4 4 (Some 4))
                [("value", leaf (ast.Other "Constant") "" 4)])].

(** [async def g(xs):] / [async for x in xs:] / [pass] *)
Definition async_def_g : ast.node :=
  ast.Node ast.AsyncFunctionDef (ast.mkAttributes "g" None None 1 0 (Some 3))
    [("args", params 1 ["xs"]);
     ("body", ast.Node ast.AsyncFor (ast.mkAttributes "" None None 2 4 (Some 3))
                [("target", leaf ast.Name "x" 2);
                 ("iter", leaf ast.Name "xs" 2);
                 ("body", leaf (ast.Other "Pass") "" 3)])].

Local Close Scope Z_scope.

(** C1, as stated, fails: [async_def_g] holds one loop node, an
    [async for], so the stated complexity is 2; the analyzer computes 1,
    whatever the parser and printer are. *)
Lemma parse_function_async_for_uncounted :
  (forall ext : Externals, complexity (_parse_function async_def_g) = 1%Z)
  /\ stated_complexity async_def_g = 2%Z.
Proof. split; [intros ext|]; reflexivity. Qed.

(** C1 (amended): for every callable definition the analyzer parses, the
    complexity is 1, plus 1 for each [if] statement, [while] loop, [for]
    loop and exception handler anywhere in the subtree of the definition
    (an [async for] loop or a conditional expression adds nothing), plus
    [k - 1] for each boolean expression with [k] operands; a definition
    with none of these nodes has complexity 1, and [def f(x):] with the
    single branch [if x:] has complexity 2. *)
Theorem parse_function_complexity :
  forall (ext : Externals) (node : ast.node),
    complexity (_parse_function node)
    = (1 + count_nodes counted_branch node + short_circuit_extra node)%Z
    /\ (filter counted_branch (ast.subtree node) = []
        /\ filter is_BoolOp (ast.subtree node) = []
        -> complexity (_parse_function node) = 1%Z)
    /\ complexity (_parse_function def_f) = 2%Z.
Proof.
  intros ext node. cbn [_parse_function complexity].
  rewrite !walk_complexity_formula. split; [reflexivity|split].
  - unfold count_nodes, short_circuit_extra. intros [-> ->]. reflexivity.
  - reflexivity.
Qed.

(** Every record the analyzer extracts, a top-level function or a method of
    a class, is built by [_parse_function] from a definition node, and
    carries the complexity of that node. *)
Lemma extracted_callable_complexity
    (ext : Externals) (tree : ast.node) (f : FunctionInfo) :
  In f (_extract_functions tree)
  \/ (exists c, In c (_extract_classes tree) /\ In f (methods c)) ->
  exists node,
    is_def node = true
    /\ name f = ast.name (ast.attrs node)
    /\ complexity f
       = (1 + count_nodes counted_branch node + short_circuit_extra node)%Z.
Proof.
  intros [Hf | (c & Hc & Hf)].
  - unfold _extract_functions in Hf. apply in_map_iff in Hf as (node & <- & Hnode).
    apply filter_In in Hnode as [_ Hdef]. apply andb_prop in Hdef as [Hdef _].
    exists node. repeat split; [exact Hdef|].
    cbn [_parse_function complexity]. apply walk_complexity_formula.
  - unfold _extract_classes in Hc. apply in_map_iff in Hc as (cnode & <- & _).
    cbn [_parse_class methods] in Hf. apply in_map_iff in Hf as (node & <- & Hnode).
    apply filter_In in Hnode as [_ Hdef].
    exists node. repeat split; [exact Hdef|].
    cbn [set_is_method _parse_function complexity]. apply walk_complexity_formula.
Qed.

(** ** Analysis of one file *)

(** Externals for the closed examples: a parser that knows the source text
    of [def_f] and reports a syntax error on any other text, a printer that
    gives the name of a node, and radon unavailable. *)
Definition source_f : string :=
  "def f(x):" ++ String NL "    if x:" ++ String NL "        return 1"
  ++ String NL "    return 2" ++ String NL "".

Definition sample_externals : Externals := {|
  ast_parse := fun source _ =>
    if String.eqb source source_f
    then inr (ast.Node ast.Module_ (ast.mkAttributes "" None None 0 0 None) [("body", def_f)])
    else inl "invalid syntax (<unknown>, line 1)";
  ast_unparse := fun n => ast.name (ast.attrs n);
  ast_get_docstring := fun _ => None;
  cc_visit := fun _ => None;
  mi_visit := fun _ => None;
  h_visit := fun _ => None
|}.

(** A read failure or a syntax failure leaves one entry in [parse_errors]. *)
Lemma analyze_file_failure (ext : Externals) (fs : gmap string Fs.file) (path : string) :
  (forall source, Fs.read_text fs path = inr source ->
                  exists e, ast_parse source path = inl e) ->
  exists msg, parse_errors (analyze_file fs path) = [msg].
Proof.
  intros Hfail. unfold analyze_file.
  destruct (Fs.read_text fs path) as [e|source]; [now eexists|].
  destruct (Hfail source eq_refl) as [e ->]. now eexists.
Qed.

(** C2: if the analysis of a file has a non-empty [parse_errors] list, its
    [functions], [classes], [imports] and [global_variables] lists are
    empty and [metrics] is [None]. *)
Theorem analyze_file_all_or_nothing
    (ext : Externals) (fs : gmap string Fs.file) (path : string) :
  parse_errors (analyze_file fs path) <> [] ->
  functions (analyze_file fs path) = []
  /\ classes (analyze_file fs path) = []
  /\ imports (analyze_file fs path) = []
  /\ global_variables (analyze_file fs path) = []
  /\ metrics (analyze_file fs path) = None.
Proof.
  unfold analyze_file.
  destruct (Fs.read_text fs path) as [e|source]; [now repeat split|].
  destruct (ast_parse source path) as [e|tree]; [now repeat split|].
  cbn [parse_errors new_analysis]. intros H. now contradiction H.
Qed.

(** A file with a syntax error, and a path that names no file. *)
Definition broken_tree : gmap string Fs.file := {[ "bad.py" := Fs.TextFile "def (" ]}.

Lemma analyze_file_all_or_nothing_witness :
  functions (analyze_file (ext := sample_externals) broken_tree "bad.py") = []
  /\ classes (analyze_file (ext := sample_externals) broken_tree "bad.py") = []
  /\ imports (analyze_file (ext := sample_externals) broken_tree "bad.py") = []
  /\ global_variables (analyze_file (ext := sample_externals) broken_tree "bad.py") = []
  /\ metrics (analyze_file (ext := sample_externals) broken_tree "bad.py") = None.
Proof.
  apply (analyze_file_all_or_nothing sample_externals broken_tree "bad.py").
  vm_compute. discriminate.
Defined.

Example analyze_file_syntax_error :
  parse_errors (analyze_file (ext := sample_externals) broken_tree "bad.py")
  = ["Syntax error: invalid syntax (<unknown>, line 1)"].
Proof. vm_compute. reflexivity. Qed.

Example analyze_file_source_f :
  map name (functions (analyze_file (ext := sample_externals)
                         {[ "f.py" := Fs.TextFile source_f ]} "f.py")) = ["f"]
  /\ map complexity (functions (analyze_file (ext := sample_externals)
                         {[ "f.py" := Fs.TextFile source_f ]} "f.py")) = [2%Z].
Proof. split; vm_compute; reflexivity. Qed.

(** ** Outcomes of an analysis *)

(** X4: the analysis of a file either failed, with exactly one message in
    [parse_errors], nothing extracted and no metrics, or succeeded, with no
    message and metrics whose function and class counts are the lengths of
    the extracted lists; the analysis names the file in both cases. *)
Theorem analyze_file_outcome (ext : Externals) (fs : gmap string Fs.file) (path : string) :
  file_path (analyze_file fs path) = path
  /\ ((exists msg, parse_errors (analyze_file fs path) = [msg])
       /\ functions (analyze_file fs path) = []
       /\ classes (analyze_file fs path) = []
       /\ imports (analyze_file fs path) = []
       /\ global_variables (analyze_file fs path) = []
       /\ metrics (analyze_file fs path) = None
      \/ parse_errors (analyze_file fs path) = []
         /\ exists m, metrics (analyze_file fs path) = Some m
              /\ functions_count m = Z.of_nat (List.length (functions (analyze_file fs path)))
              /\ classes_count m = Z.of_nat (List.length (classes (analyze_file fs path)))
              /\ (0 <= lines_of_code m)%Z).
Proof.
  unfold analyze_file.
  destruct (Fs.read_text fs path) as [e|source].
  { split; [reflexivity|]. left. cbn. repeat split. now eexists. }
  destruct (ast_parse source path) as [e|tree].
  { split; [reflexivity|]. left. cbn. repeat split. now eexists. }
  split; [reflexivity|]. right. cbn [parse_errors new_analysis metrics functions classes].
  split; [reflexivity|]. eexists. split; [reflexivity|].
  unfold _calculate_metrics.
  destruct (cc_visit source) as [[|? ?]|]; cbn; repeat split; lia.
Qed.

(** ** Functions and methods *)

(** [n] stands in the body of a class of the tree. *)
Definition in_class_body (tree n : ast.node) : Prop :=
  exists parent, In parent (ast.subtree tree)
                 /\ ast.cls parent = ast.ClassDef
                 /\ In n (ast.field parent "body").

Lemma is_method_in_class_body (n tree : ast.node) :
  _is_method n tree = true <-> in_class_body tree n.
Proof.
  unfold _is_method, in_class_body. rewrite existsb_exists. split.
  - intros (parent & Hwalk & Hbody). exists parent.
    apply ast.walk_In in Hwalk. split; [exact Hwalk|].
    destruct (ast.cls parent); try discriminate.
    split; [reflexivity | now apply ast.existsb_node_eqb].
  - intros (parent & Hsub & Hcls & Hbody). exists parent.
    split; [now apply ast.walk_In|]. rewrite Hcls. now apply ast.existsb_node_eqb.
Qed.

(** Two definition nodes of the tree stand on different lines. A
    definition is a compound statement and starts a line of its own, so
    the trees [ast.parse] returns have the property. *)
Definition distinct_def_lines (tree : ast.node) : Prop :=
  forall a b, In a (ast.subtree tree) -> In b (ast.subtree tree) ->
    is_def a = true -> is_def b = true ->
    ast.lineno (ast.attrs a) = ast.lineno (ast.attrs b) -> a = b.

(** The nodes [_extract_functions] keeps. *)
Lemma function_nodes (ext : Externals) (tree : ast.node) :
  exists nodes,
    _extract_functions tree = map _parse_function nodes
    /\ forall n, In n nodes <->
         In n (ast.subtree tree) /\ is_def n = true /\ ~ in_class_body tree n.
Proof.
  eexists. split; [reflexivity|]. intros n.
  rewrite filter_In, ast.walk_In, andb_true_iff, negb_true_iff.
  rewrite <- is_method_in_class_body.
  destruct (_is_method n tree); intuition congruence.
Qed.

(** The definitions in the body of a class node of the tree are in the tree
    and in the body of a class. *)
Lemma method_nodes (tree parent n : ast.node) :
  In parent (ast.subtree tree) -> ast.cls parent = ast.ClassDef ->
  In n (ast.field parent "body") ->
  In n (ast.subtree tree) /\ in_class_body tree n.
Proof.
  intros Hparent Hcls Hbody. split.
  - apply (ast.child_subtree tree parent n Hparent).
    now apply ast.field_children with (f := "body").
  - now exists parent.
Qed.

(** Under distinct lines, no function record has the line of a definition
    in a class body. *)
Lemma method_line_not_function (ext : Externals) (tree n : ast.node) :
  distinct_def_lines tree ->
  In n (ast.subtree tree) -> is_def n = true -> in_class_body tree n ->
  forall f, In f (_extract_functions tree) -> lineno f <> ast.lineno (ast.attrs n).
Proof.
  intros Hlines Hn Hdef Hbody f Hf Hline.
  destruct (function_nodes ext tree) as (nodes & Heq & Hnodes). rewrite Heq in Hf.
  apply in_map_iff in Hf as (m & <- & Hm). apply Hnodes in Hm as (Hm & Hmdef & Hmout).
  cbn [_parse_function lineno] in Hline.
  apply Hmout. now rewrite (Hlines m n Hm Hn Hmdef Hdef Hline).
Qed.

(** X5: the definitions of a tree are split between the two lists. The
    function list is made of the records of exactly the definition nodes
    that stand in no class body (nested functions included); a definition
    node in the body of a class node is a method of the record of that very
    class, which is in the class list; and in a tree whose definitions stand
    on different lines no record is in both: the line of a definition in a
    class body is the line of no function record, and the line of a
    definition in no class body is the line of no method record. *)
Theorem callable_partition (ext : Externals) (tree : ast.node) :
  (exists nodes,
     _extract_functions tree = map _parse_function nodes
     /\ forall n, In n nodes <->
          In n (ast.subtree tree) /\ is_def n = true /\ ~ in_class_body tree n)
  /\ (forall parent n,
        In parent (ast.subtree tree) -> ast.cls parent = ast.ClassDef ->
        In n (ast.field parent "body") -> is_def n = true ->
        In (_parse_class parent) (_extract_classes tree)
        /\ In (set_is_method (_parse_function n)) (methods (_parse_class parent)))
  /\ (distinct_def_lines tree ->
      forall n, In n (ast.subtree tree) -> is_def n = true ->
        (in_class_body tree n ->
         forall f, In f (_extract_functions tree) -> lineno f <> ast.lineno (ast.attrs n))
        /\ (~ in_class_body tree n ->
            forall c f, In c (_extract_classes tree) -> In f (methods c) ->
              lineno f <> ast.lineno (ast.attrs n))).
Proof.
  split; [apply function_nodes|]. split.
  - intros parent n Hparent Hcls Hbody Hdef. split.
    + unfold _extract_classes. apply in_map, filter_In.
      split; [now apply ast.walk_In | now rewrite Hcls].
    + cbn [_parse_class methods].
      apply (in_map (fun item => set_is_method (_parse_function item))).
      apply filter_In. now split.
  - intros Hlines n Hn Hdef. split.
    + now apply method_line_not_function.
    + intros Hout c f Hc Hf Hline. unfold _extract_classes in Hc.
      apply in_map_iff in Hc as (cnode & <- & Hcnode).
      apply filter_In in Hcnode as [Hcnode Hcls]. apply ast.walk_In in Hcnode.
      cbn [_parse_class methods] in Hf.
      apply in_map_iff in Hf as (m & <- & Hm). apply filter_In in Hm as [Hm Hmdef].
      cbn [set_is_method _parse_function lineno] in Hline.
      assert (Hclass : ast.cls cnode = ast.ClassDef)
        by (destruct (ast.cls cnode); try discriminate; reflexivity).
      destruct (method_nodes tree cnode m Hcnode Hclass Hm) as [Hmtree Hmbody].
      apply Hout. now rewrite <- (Hlines m n Hmtree Hn Hmdef Hdef Hline).
Qed.

(** A module that holds a class with one method, and one function. *)
Definition module_of (body : list ast.node) : ast.node :=
  ast.Node ast.Module_ (ast.mkAttributes "" None None 0 0 None)
    (map (fun n => ("body", n)) body).

Definition class_with_method : ast.node :=
  ast.Node ast.ClassDef (ast.mkAttributes "K" None None 1 0 (Some 2%Z))
    [("body", leaf ast.FunctionDef "m" 2)].

Definition class_and_function : ast.node :=
  module_of [class_with_method; leaf ast.FunctionDef "g" 4].

Lemma class_and_function_lines : distinct_def_lines class_and_function.
Proof.
  intros a b Ha Hb Hda Hdb Hline. cbn in Ha, Hb.
  destruct Ha as [<-|[<-|[<-|[<-|[]]]]]; try discriminate Hda;
    destruct Hb as [<-|[<-|[<-|[<-|[]]]]]; try discriminate Hdb;
    try reflexivity; discriminate Hline.
Qed.

Lemma callable_partition_witness :
  In (set_is_method (_parse_function (ext := sample_externals) (leaf ast.FunctionDef "m" 2)))
     (methods (_parse_class (ext := sample_externals) class_with_method))
  /\ (forall f, In f (_extract_functions (ext := sample_externals) class_and_function) ->
        lineno f <> 2%Z)
  /\ (forall c f, In c (_extract_classes (ext := sample_externals) class_and_function) ->
        In f (methods c) -> lineno f <> 4%Z).
Proof.
  destruct (callable_partition sample_externals class_and_function)
    as (_ & Hmethod & Hsplit).
  split; [|split].
  - apply (Hmethod class_with_method (leaf ast.FunctionDef "m" 2));
      [cbn; auto | reflexivity | cbn; auto | reflexivity].
  - apply (Hsplit class_and_function_lines (leaf ast.FunctionDef "m" 2));
      [cbn; auto | reflexivity |].
    exists class_with_method. cbn. auto.
  - apply (Hsplit class_and_function_lines (leaf ast.FunctionDef "g" 4));
      [cbn; auto | reflexivity |].
    intros (parent & Hsub & Hcls & Hbody). cbn in Hsub.
    destruct Hsub as [<-|[<-|[<-|[<-|[]]]]]; try discriminate Hcls.
    cbn in Hbody. destruct Hbody as [Hbody|[]]. discriminate Hbody.
Defined.

(** ** The definition at a line *)

(** The span of [f] contains the line. *)
Definition spans (line_number : Z) (f : FunctionInfo) : bool :=
  (lineno f <=? line_number)%Z && (line_number <=? end_lineno f)%Z.

Section Queries.
Context {ext : Externals}.

(** [ASTAnalyzer.get_function_at_line] *)
Definition get_function_at_line (fs : gmap string Fs.file) (file_path : string)
    (line_number : Z) : option FunctionInfo :=
  let analysis := analyze_file fs file_path in
  match List.find (spans line_number) (functions analysis) with
  | Some func => Some func
  | None => List.find (spans line_number) (flat_map methods (classes analysis))
  end.

End Queries.

(** X6: the definition found at a line is a function or a method of the
    analysis whose span contains the line, a function whenever the span of
    some function contains it; and when none is found, no function and no
    method of the analysis spans the line. *)
Theorem get_function_at_line_spec
    (ext : Externals) (fs : gmap string Fs.file) (path : string) (line : Z) :
  match get_function_at_line fs path line with
  | Some f =>
      (lineno f <= line <= end_lineno f)%Z
      /\ (In f (functions (analyze_file fs path))
          \/ exists c, In c (classes (analyze_file fs path)) /\ In f (methods c))
      /\ ((exists g, In g (functions (analyze_file fs path)) /\ spans line g = true) ->
          In f (functions (analyze_file fs path)))
  | None =>
      forall f,
        In f (functions (analyze_file fs path))
        \/ (exists c, In c (classes (analyze_file fs path)) /\ In f (methods c)) ->
        ~ (lineno f <= line <= end_lineno f)%Z
  end.
Proof.
  assert (Hspans : forall f, spans line f = true <-> (lineno f <= line <= end_lineno f)%Z).
  { intros f. unfold spans. rewrite andb_true_iff, !Z.leb_le. reflexivity. }
  unfold get_function_at_line.
  destruct (List.find (spans line) (functions (analyze_file fs path))) as [f|] eqn:Hfun.
  - apply find_some in Hfun as [Hin Hsp]. repeat split; try (now apply Hspans); auto.
  - destruct (List.find (spans line) (flat_map methods (classes (analyze_file fs path))))
      as [f|] eqn:Hmeth.
    + apply find_some in Hmeth as [Hin Hsp]. apply in_flat_map in Hin as (c & Hc & Hf).
      repeat split; try (now apply Hspans); [right; now exists c|].
      intros (g & Hg & Hgs). pose proof (find_none _ _ Hfun g Hg). congruence.
    + intros f [Hf | (c & Hc & Hf)] Hline; apply Hspans in Hline.
      * pose proof (find_none _ _ Hfun f Hf). congruence.
      * assert (Hin : In f (flat_map methods (classes (analyze_file fs path))))
          by (apply in_flat_map; now exists c).
        pose proof (find_none _ _ Hmeth f Hin). congruence.
Qed.

End Ast.

(* ===================================================================== *)
(** * code_reviewer.py *)
(* ===================================================================== *)

(** Python values as [json.loads] and the tool input carry them. A [dict]
    is the list of its items in insertion order, its keys distinct. *)
Module Py.

#[local] Set Warnings "-register-all".

Inductive value :=
| PNone
| PBool (b : bool)
| PInt (z : Z)
| PFloat (f : spec_float)
| PStr (s : string)
| PList (items : list value)
| PDict (items : list (string * value)).

(** The exceptions a review can meet: those of the response validation,
    and gitdb's [BadName] of a comparison with a [HEAD] that names no
    object. *)
Inductive exn :=
| JSONDecodeError | KeyError | ValueError
| AttributeError | TypeError | OverflowError
| BadName.

(** A computation that returns an [A] or raises. *)
Definition result (A : Type) : Type := exn + A.

Definition ret {A} (a : A) : result A := inr a.
Definition raise {A} (e : exn) : result A := inl e.

Definition bind {A B} (m : result A) (k : A -> result B) : result B :=
  match m with
  | inl e => inl e
  | inr a => k a
  end.

Notation "'let*' x ':=' m 'in' k" := (bind m (fun x => k))
  (at level 10, x name, m at level 100, k at level 200).

(** A list comprehension whose element expression can raise. *)
Fixpoint map_result {A B} (f : A -> result B) (l : list A) : result (list B) :=
  match l with
  | [] => ret []
  | a :: l' => let* b := f a in let* bs := map_result f l' in ret (b :: bs)
  end.

(** [d[key]] looked up in the items of a dict. *)
Fixpoint lookup (items : list (string * value)) (key : string) : option value :=
  match items with
  | [] => None
  | (k, v) :: items' => if String.eqb k key then Some v else lookup items' key
  end.

(** [v.get(key, default)]: only a dict has the method. *)
Definition get (v : value) (key : string) (default : value) : result value :=
  match v with
  | PDict items => ret (match lookup items key with Some x => x | None => default end)
  | _ => raise AttributeError
  end.

Fixpoint chars (s : string) : list value :=
  match s with
  | EmptyString => []
  | String c s' => PStr (String c EmptyString) :: chars s'
  end.

(** [for x in v]: the elements of a list, the keys of a dict, the
    characters of a string; nothing else iterates. *)
Definition iter (v : value) : result (list value) :=
  match v with
  | PList items => ret items
  | PDict items => ret (map (fun kv => PStr (fst kv)) items)
  | PStr s => ret (chars s)
  | _ => raise TypeError
  end.

Definition float_is_zero (f : spec_float) : bool :=
  match f with S754_zero _ => true | _ => false end.

(** [bool(v)] *)
Definition truthy (v : value) : bool :=
  match v with
  | PNone => false
  | PBool b => b
  | PInt z => negb (Z.eqb z 0)
  | PFloat f => negb (float_is_zero f)
  | PStr s => negb (String.eqb s "")
  | PList items => match items with [] => false | _ => true end
  | PDict items => match items with [] => false | _ => true end
  end.

(** [int(f)] for a float: the value with its fraction cut off. *)
Definition int_of_float (f : spec_float) : result Z :=
  match f with
  | S754_zero _ => ret 0%Z
  | S754_infinity _ => raise OverflowError
  | S754_nan => raise ValueError
  | S754_finite sign m e =>
      let magnitude :=
        if (0 <=? e)%Z then (Z.pos m * 2 ^ e)%Z else (Z.pos m / 2 ^ (- e))%Z in
      ret (if sign then (- magnitude)%Z else magnitude)
  end.

(** What the validation calls outside the package: [json.loads] ([None]
    where it raises [JSONDecodeError]), [repr] of a value that is no
    string, and [int] of a string ([None] where it raises [ValueError]). *)
Class Runtime := {
  json_loads : string -> option value;
  repr : value -> string;
  int_of_str : string -> option Z
}.

(** [int(v)] *)
Definition int `{Runtime} (v : value) : result Z :=
  match v with
  | PInt z => ret z
  | PBool b => ret (if b then 1%Z else 0%Z)
  | PFloat f => int_of_float f
  | PStr s => match int_of_str s with Some z => ret z | None => raise ValueError end
  | PNone | PList _ | PDict _ => raise TypeError
  end.

(** [str(v)] *)
Definition str `{Runtime} (v : value) : string :=
  match v with
  | PStr s => s
  | _ => repr v
  end.

End Py.

Module Review.
Import PyStr Py.

(** [ReviewIssue]. The fields hold what the reply held: the dataclass does
    not check them against its annotations. *)
Record ReviewIssue := mkReviewIssue {
  severity : value;       (* CRITICAL, HIGH, MEDIUM, LOW *)
  file_path : value;
  line_number : value;
  category : value;       (* security, performance, quality, best-practices *)
  description : value;
  suggestion : value;
  code_example : value
}.

(** [ReviewResult] *)
Record ReviewResult := mkReviewResult {
  overall_score : value;  (* 0-100 *)
  issues : list ReviewIssue;
  summary : value;
  recommendations : value;
  diff_analyzed : string
}.

Definition is_str (v : value) (s : string) : bool :=
  match v with PStr t => String.eqb t s | _ => false end.

(** [ReviewResult.critical_issues_count] *)
Definition critical_issues_count (r : ReviewResult) : Z :=
  Z.of_nat (List.length (filter (fun issue => is_str (severity issue) "CRITICAL") (issues r))).

(** [ReviewResult.high_issues_count] *)
Definition high_issues_count (r : ReviewResult) : Z :=
  Z.of_nat (List.length (filter (fun issue => is_str (severity issue) "HIGH") (issues r))).

(** [ReviewResult.total_issues_count] *)
Definition total_issues_count (r : ReviewResult) : Z := Z.of_nat (List.length (issues r)).

(** A block of [response.content]. A block that is no [TextBlock] carries
    [str(block)]; a tool-use block is an instance of [ToolUseBlock] or a
    block whose [type] is ["tool_use"], with [getattr(block, "name", None)]
    and [getattr(block, "input", None)]. *)
Inductive block :=
| TextBlock (text : string)
| ToolUse (name : option string) (input : value) (as_str : string)
| OtherBlock (as_str : string).

(** The errors of the [anthropic] client. *)
Inductive api_error :=
| APIConnectionError (cause : string)
| RateLimitError
| APIStatusError (status_code : Z) (response : string)
| APIError (msg : string).

(** The surroundings of a review: the reasoning engine
    ([client.messages.create], by the prompt it is sent), the prompt
    template of the configured strictness, and the static-analysis text of
    the changed Python files ([_analyze_python_files]). [review_format] is
    the constant text that closes the prompt, the JSON format asked for. *)
Class Setting := {
  messages_create : string -> api_error + list block;
  review_template : string;
  review_format : string;
  _analyze_python_files : list Git.DiffInfo -> string
}.

(** The issue built from one item of the reply, in both tiers. *)
Definition issue_of (issue : value) : result ReviewIssue :=
  let* severity := get issue "severity" (PStr "MEDIUM") in
  let* file_path := get issue "file_path" (PStr "") in
  let* line_number := get issue "line_number" PNone in
  let* category := get issue "category" (PStr "quality") in
  let* description := get issue "description" (PStr "") in
  let* suggestion := get issue "suggestion" (PStr "") in
  let* code_example := get issue "code_example" PNone in
  ret (mkReviewIssue severity file_path line_number category description
         suggestion code_example).

(** The text the free-text tier decodes. *)
Definition json_text_of (response_text : string) : string :=
  if contains response_text "```json" then
    let start := Z.to_nat (find response_text "```json" 0 + 7) in
    let stop := find response_text "```" start in
    strip (slice response_text start stop)
  else if contains response_text "```" then
    let start := Z.to_nat (find response_text "```" 0 + 3) in
    let stop := find response_text "```" start in
    strip (slice response_text start stop)
  else response_text.

(** The result [_parse_review_response] falls back to. *)
Definition fallback_result (response_text : string) : ReviewResult :=
  mkReviewResult (PInt 50) [] (PStr (take 500 response_text))
    (PList [PStr "Unable to parse structured review. See summary for details."]) "".

(** The exceptions the [except] clause of [_parse_review_response] names. *)
Definition caught (e : exn) : bool :=
  match e with
  | JSONDecodeError | KeyError | ValueError => true
  | _ => false
  end.

Section Validation.
Context {rt : Runtime}.

(** The body of the [try] of [_parse_review_response]. *)
Definition parse_review_body (response_text : string) : result ReviewResult :=
  let json_text := json_text_of response_text in
  let* data := match json_loads json_text with
               | Some v => ret v
               | None => raise JSONDecodeError
               end in
  let* issues_field := get data "issues" (PList []) in
  let* items := iter issues_field in
  let* issues := map_result issue_of items in
  let* overall_score := get data "overall_score" (PInt 50) in
  let* summary := get data "summary" (PStr "") in
  let* recommendations := get data "recommendations" (PList []) in
  ret (mkReviewResult overall_score issues summary recommendations "").

(** [CodeReviewer._parse_review_response] *)
Definition _parse_review_response (response_text : string) (diffs : list Git.DiffInfo)
    : result ReviewResult :=
  match parse_review_body response_text with
  | inr r => ret r
  | inl e => if caught e then ret (fallback_result response_text) else raise e
  end.

(** [CodeReviewer._collect_text_blocks] *)
Definition _collect_text_blocks (content : list block) : string :=
  let texts := flat_map (fun b => match b with TextBlock t => [t] | _ => [] end) content in
  match texts with
  | _ :: _ => join (String NL "") texts
  | [] =>
      match content with
      | TextBlock t :: _ => t
      | ToolUse _ _ as_str :: _ => as_str
      | OtherBlock as_str :: _ => as_str
      | [] => ""
      end
  end.

(** [CodeReviewer._extract_review_tool_payload] *)
Fixpoint _extract_review_tool_payload (content : list block) : option value :=
  match content with
  | [] => None
  | ToolUse (Some "submit_review") raw_input _ :: rest =>
      match raw_input with
      | PDict _ => Some raw_input
      | PStr text => json_loads text
      | _ => _extract_review_tool_payload rest
      end
  | _ :: rest => _extract_review_tool_payload rest
  end.

(** [CodeReviewer._build_review_result] *)
Definition _build_review_result (payload : value) : result ReviewResult :=
  let* issues_field := get payload "issues" PNone in
  let issue_payloads := match issues_field with PList items => items | _ => [] end in
  let* issues := map_result issue_of issue_payloads in
  let* recs_field := get payload "recommendations" PNone in
  let recommendations :=
    match recs_field with
    | PList recs => map (fun rec => PStr (str rec)) recs
    | _ => []
    end in
  let* score_field := get payload "overall_score" (PInt 50) in
  let* score := int score_field in
  let* summary := get payload "summary" (PStr "") in
  ret (mkReviewResult (PInt score) issues summary (PList recommendations) "").

Definition set_diff_analyzed (r : ReviewResult) (diff_context : string) : ReviewResult :=
  mkReviewResult (overall_score r) (issues r) (summary r) (recommendations r) diff_context.

(** The two tiers of [_review_diffs]: what it makes of the reply. *)
Definition review_of_reply (content : list block) (diffs : list Git.DiffInfo)
    (diff_context : string) : result ReviewResult :=
  let* result :=
    match _extract_review_tool_payload content with
    | Some tool_payload =>
        if truthy tool_payload then _build_review_result tool_payload
        else _parse_review_response (_collect_text_blocks content) diffs
    | None => _parse_review_response (_collect_text_blocks content) diffs
    end in
  ret (set_diff_analyzed result diff_context).

(** [str(n)] for an integer. *)
Definition str_of_int (n : Z) : string := NilZero.string_of_int (Z.to_int n).

Definition LF : string := String NL "".

(** The lines [_build_diff_context] adds for one change. *)
Definition diff_context_parts (d : Git.DiffInfo) : list string :=
  [LF ++ "## File: " ++ Git.file_path d;
   "Change type: " ++ Git.change_type d;
   "Changes: +" ++ str_of_int (Git.additions d) ++ "/-" ++ str_of_int (Git.deletions d)]
  ++ (if Git.truthy_path (Git.old_path d)
      then ["Renamed from: " ++ Git.str_of_path (Git.old_path d)] else [])
  ++ (if String.eqb (Git.diff_content d) "" then []
      else [LF ++ "```diff" ++ LF ++ Git.diff_content d ++ LF ++ "```"]).

(** [CodeReviewer._build_diff_context] *)
Definition _build_diff_context (diffs : list Git.DiffInfo) : string :=
  join LF
    (("# Code Changes Review" ++ LF ++ LF ++ "Total files changed: "
      ++ str_of_int (Z.of_nat (List.length diffs)) ++ LF)
     :: flat_map diff_context_parts diffs).

Context {setting : Setting}.

(** [CodeReviewer._build_review_prompt] *)
Definition _build_review_prompt (diff_context ast_context : string) : string :=
  join LF
    ([review_template; LF ++ LF ++ "# Code Changes to Review" ++ LF; diff_context]
     ++ (if String.eqb ast_context "" then []
         else [LF ++ LF ++ "# Static Analysis Results" ++ LF; ast_context])
     ++ [LF ++ LF ++ "# Your Task" ++ LF;
         "Provide a comprehensive code review in the following JSON format:" ++ LF;
         review_format]).

(** A result with the defaults of [ReviewResult] for what is not given. *)
Definition plain_result (score : Z) (summary : string) : ReviewResult :=
  mkReviewResult (PInt score) [] (PStr summary) (PList []) "".

(** [CodeReviewer._review_diffs], with the prompts it sent to the engine. *)
Definition _review_diffs (diffs : list Git.DiffInfo) : result ReviewResult * list string :=
  let python_diffs := filter Git.is_python_file diffs in
  let diff_context := _build_diff_context diffs in
  let ast_context := _analyze_python_files python_diffs in
  let review_prompt := _build_review_prompt diff_context ast_context in
  (match messages_create review_prompt with
   | inr content => review_of_reply content diffs diff_context
   | inl (APIConnectionError cause) => ret (plain_result 0 ("Network error: " ++ cause))
   | inl RateLimitError =>
       ret (plain_result 0 "Rate limit exceeded. Please wait and try again.")
   | inl (APIStatusError status_code response) =>
       ret (plain_result 0 ("API error (status " ++ str_of_int status_code ++ "): " ++ response))
   | inl (APIError msg) => ret (plain_result 0 ("API Error: " ++ msg))
   end,
   [review_prompt]).

(** [CodeReviewer.review_staged_changes]: an exception of
    [get_staged_diff] is not caught here. *)
Definition review_staged_changes (repo : Git.Repo) : result ReviewResult * list string :=
  match Git.get_staged_diff repo with
  | inl Git.BadName => (raise BadName, [])
  | inr diffs =>
      match diffs with
      | [] => (ret (plain_result 100 "No staged changes to review."), [])
      | _ :: _ => _review_diffs diffs
      end
  end.

(** [CodeReviewer.review_unstaged_changes] *)
Definition review_unstaged_changes (repo : Git.Repo) : result ReviewResult * list string :=
  let diffs := Git.get_unstaged_diff repo in
  match diffs with
  | [] => (ret (plain_result 100 "No unstaged changes to review."), [])
  | _ :: _ => _review_diffs diffs
  end.

End Validation.

(** ** The free-text tier *)

(** A runtime for the closed examples: a decoder that knows the texts
    [[]] and [{}] and rejects any other text given to it here, as
    [json.loads] rejects [not json] and the empty text. *)
Definition literal_runtime : Runtime := {|
  json_loads := fun text =>
    if String.eqb text "[]" then Some (PList [])
    else if String.eqb text "{}" then Some (PDict [])
    else None;
  repr := fun _ => "";
  int_of_str := fun _ => None
|}.

(** On a decode failure the parser degrades to the minimal result: score
    50, the first 500 characters of the reply as summary, no issue, and the
    one recommendation that says the structured parse failed. *)
Lemma parse_review_response_fallback
    (rt : Runtime) (response_text : string) (diffs : list Git.DiffInfo) :
  json_loads (json_text_of response_text) = None ->
  _parse_review_response response_text diffs
  = ret (mkReviewResult (PInt 50) [] (PStr (take 500 response_text))
           (PList [PStr "Unable to parse structured review. See summary for details."]) "").
Proof.
  intros H. unfold _parse_review_response, parse_review_body. now rewrite H.
Qed.

(** A reply that decodes to an object whose issues are objects is mapped
    without raising. *)
Lemma parse_review_response_object
    (rt : Runtime) (response_text : string) (diffs : list Git.DiffInfo)
    (data : list (string * value)) (items : list (list (string * value))) :
  json_loads (json_text_of response_text) = Some (PDict data) ->
  match lookup data "issues" with Some v => v | None => PList [] end
  = PList (map PDict items) ->
  exists r, _parse_review_response response_text diffs = ret r
            /\ List.length (issues r) = List.length items.
Proof.
  intros Hdata Hissues.
  unfold _parse_review_response, parse_review_body. rewrite Hdata.
  cbn [bind ret get]. rewrite Hissues. cbn [iter bind ret].
  assert (Hmap : exists l, map_result issue_of (map PDict items) = inr l
                           /\ List.length l = List.length items).
  { clear. induction items as [|it items (l & Hl & Hlen)]; [now exists []|].
    cbn [map map_result]. unfold issue_of at 1. cbn [get bind ret].
    rewrite Hl. cbn [bind ret]. eexists. split; [reflexivity|]. cbn. now rewrite Hlen. }
  destruct Hmap as (l & -> & Hlen). cbn [bind ret].
  eexists. split; [reflexivity|]. exact Hlen.
Qed.

(** C3 at a reply that is valid JSON and no object: the text [[]] decodes
    to an empty list, [data.get] raises [AttributeError], and the [except]
    clause of the parser does not name it: the exception leaves the
    parser, where the claim says a well-formed result is returned. *)
Theorem parse_review_response_raises
    (rt : Runtime) (diffs : list Git.DiffInfo) :
  json_loads "[]" = Some (PList []) ->
  _parse_review_response "[]" diffs = raise AttributeError.
Proof.
  intros H. unfold _parse_review_response, parse_review_body.
  change (json_text_of "[]") with "[]". now rewrite H.
Qed.

Lemma parse_review_response_raises_witness :
  _parse_review_response (rt := literal_runtime) "[]" [] = raise AttributeError.
Proof.
  apply (parse_review_response_raises literal_runtime []). reflexivity.
Defined.

(** The scenario of the specification: the reply [not json]. *)
Example parse_review_response_not_json (rt : Runtime) :
  json_loads "not json" = None ->
  _parse_review_response "not json" []
  = ret (mkReviewResult (PInt 50) [] (PStr "not json")
           (PList [PStr "Unable to parse structured review. See summary for details."]) "").
Proof. intros H. now apply parse_review_response_fallback. Qed.

(** ** The structured tier *)

(** [d.get(key, default)] on the items of a dict. *)
Definition field (d : list (string * value)) (key : string) (default : value) : value :=
  match lookup d key with Some v => v | None => default end.

(** The issue an object of the reply is mapped to: each field it holds,
    and the default of each field it lacks. *)
Definition issue_with_defaults (d : list (string * value)) : ReviewIssue :=
  mkReviewIssue (field d "severity" (PStr "MEDIUM")) (field d "file_path" (PStr ""))
    (field d "line_number" PNone) (field d "category" (PStr "quality"))
    (field d "description" (PStr "")) (field d "suggestion" (PStr ""))
    (field d "code_example" PNone).

(** The issue made of nothing but defaults. *)
Definition default_issue : ReviewIssue :=
  mkReviewIssue (PStr "MEDIUM") (PStr "") PNone (PStr "quality") (PStr "") (PStr "") PNone.

(** The integer a finite float stands for once its fraction is dropped:
    the quotient that rounds toward zero. *)
Definition truncation (sign : bool) (m : positive) (e : Z) : Z :=
  let signed := if sign then Z.neg m else Z.pos m in
  if (0 <=? e)%Z then (signed * 2 ^ e)%Z else Z.quot signed (2 ^ (- e)).

Lemma issue_of_dict (d : list (string * value)) :
  issue_of (PDict d) = ret (issue_with_defaults d).
Proof. reflexivity. Qed.

Lemma map_issue_of_dicts (items : list (list (string * value))) :
  map_result issue_of (map PDict items) = ret (map issue_with_defaults items).
Proof.
  induction items as [|d items IH]; [reflexivity|].
  cbn [map map_result]. rewrite issue_of_dict, IH. reflexivity.
Qed.

Lemma int_of_float_truncation (sign : bool) (m : positive) (e : Z) :
  int_of_float (S754_finite sign m e) = ret (truncation sign m e).
Proof.
  unfold int_of_float, truncation. f_equal.
  destruct (0 <=? e)%Z eqn:He.
  - destruct sign; lia.
  - apply Z.leb_gt in He.
    assert (0 < 2 ^ (- e))%Z by (apply Z.pow_pos_nonneg; lia).
    destruct sign.
    + change (Z.neg m) with (- Z.pos m)%Z.
      rewrite Z.quot_opp_l by lia. rewrite Z.quot_div_nonneg by lia. reflexivity.
    + rewrite Z.quot_div_nonneg by lia. reflexivity.
Qed.

(** A block the search for the tool payload passes over: anything but a
    [submit_review] tool use whose input is a dict or a string. *)
Definition passed_over (b : block) : bool :=
  match b with
  | ToolUse (Some "submit_review") (PDict _) _ => false
  | ToolUse (Some "submit_review") (PStr _) _ => false
  | _ => true
  end.

Lemma extract_passes_over (rt : Runtime) (pre rest : list block) :
  forallb passed_over pre = true ->
  _extract_review_tool_payload (pre ++ rest) = _extract_review_tool_payload rest.
Proof.
  induction pre as [|b pre IH]; intros H; [reflexivity|].
  cbn [forallb] in H. apply andb_prop in H as [Hb Hpre].
  specialize (IH Hpre). rewrite <- IH. clear IH Hpre.
  change ((b :: pre) ++ rest)%list with (b :: (pre ++ rest))%list.
  destruct b as [t|name input repr_|repr_]; try reflexivity.
  unfold passed_over in Hb. cbn [_extract_review_tool_payload].
  repeat match goal with
         | |- context [match ?x with _ => _ end] => destruct x; try reflexivity; try discriminate
         end.
Qed.

(** C4, as stated, fails: a reply that holds the [submit_review] tool
    payload [{}] and the text [not json] is answered from the text, by the
    fallback of the free-text tier, and not from the payload, which maps
    to the result of defaults. *)
Lemma review_of_reply_empty_payload_loses :
  (forall rt : Runtime, json_loads "not json" = None ->
     review_of_reply [ToolUse (Some "submit_review") (PDict []) "ToolUseBlock"; TextBlock "not json"]
       [] "context"
     = ret (mkReviewResult (PInt 50) [] (PStr "not json")
              (PList [PStr "Unable to parse structured review. See summary for details."])
              "context"))
  /\ (forall rt : Runtime,
        _build_review_result (PDict [])
        = ret (mkReviewResult (PInt 50) [] (PStr "") (PList []) "")).
Proof.
  split; intros rt; [intros H|reflexivity].
  unfold review_of_reply. cbn [_extract_review_tool_payload truthy _collect_text_blocks flat_map app join].
  rewrite parse_review_response_fallback by exact H. reflexivity.
Qed.

(** C4 (amended): a reply whose first [submit_review] tool input is a dict
    that is not empty is answered from that payload, whatever text blocks
    stand before or behind it; the free-text tier answers when the search
    for the payload yields nothing or a payload that is empty (falsy). *)
Theorem review_of_reply_tiers
    (rt : Runtime) (diffs : list Git.DiffInfo) (diff_context : string) :
  (forall pre post d as_str,
     forallb passed_over pre = true -> d <> [] ->
     review_of_reply (pre ++ ToolUse (Some "submit_review") (PDict d) as_str :: post)
       diffs diff_context
     = (let* r := _build_review_result (PDict d) in ret (set_diff_analyzed r diff_context)))
  /\ (forall content,
        match _extract_review_tool_payload content with
        | Some payload => truthy payload = false
        | None => True
        end ->
        review_of_reply content diffs diff_context
        = (let* r := _parse_review_response (_collect_text_blocks content) diffs in
           ret (set_diff_analyzed r diff_context))).
Proof.
  split.
  - intros pre post d as_str Hpre Hd. unfold review_of_reply.
    rewrite extract_passes_over by exact Hpre.
    cbn [_extract_review_tool_payload]. destruct d; [contradiction|reflexivity].
  - intros content H. unfold review_of_reply.
    destruct (_extract_review_tool_payload content) as [payload|]; [|reflexivity].
    now rewrite H.
Qed.

(** A reply with a text block before and behind the tool payload. *)
Definition mixed_reply : list block :=
  [TextBlock "Here is my review."; 
   ToolUse (Some "submit_review")
     (PDict [("overall_score", PInt 90); ("summary", PStr "Fine.")]) "ToolUseBlock";
   TextBlock "```json {} ```"].

Lemma review_of_reply_tiers_witness :
  review_of_reply (rt := literal_runtime) mixed_reply [] "context"
  = ret (mkReviewResult (PInt 90) [] (PStr "Fine.") (PList []) "context").
Proof.
  destruct (review_of_reply_tiers literal_runtime [] "context") as [Hstructured _].
  exact (Hstructured [TextBlock "Here is my review."] [TextBlock "```json {} ```"]
           [("overall_score", PInt 90); ("summary", PStr "Fine.")] "ToolUseBlock"
           eq_refl ltac:(discriminate)).
Defined.

(** C5, as stated, fails: an issue item that lacks every required field is
    not skipped; it is kept as the issue of defaults, and the result is
    not the one of a payload without that item. *)
Lemma build_review_result_keeps_bare_item :
  (forall rt : Runtime,
     _build_review_result (PDict [("issues", PList [PDict []])])
     = ret (mkReviewResult (PInt 50) [default_issue] (PStr "") (PList []) ""))
  /\ (forall rt : Runtime,
        _build_review_result (PDict [("issues", PList [])])
        = ret (mkReviewResult (PInt 50) [] (PStr "") (PList []) "")).
Proof. split; intros rt; reflexivity. Qed.

(** C5 (amended): for every structured payload whose issue items are
    objects, every item is kept, each field it lacks taking its default
    (severity MEDIUM, category quality, text fields the empty string,
    line number and code example [None]); a missing score is 50, a missing
    summary the empty string, a missing list the empty list; and a score
    given as a finite non-integer number is cut to the integer toward
    zero. *)
Theorem build_review_result_defaults
    (rt : Runtime) (d : list (string * value)) (items : list (list (string * value))) :
  match lookup d "issues" with Some (PList l) => l | _ => [] end = map PDict items ->
  _build_review_result (PDict d)
  = (let* score := int (field d "overall_score" (PInt 50)) in
     ret (mkReviewResult (PInt score) (map issue_with_defaults items)
            (field d "summary" (PStr ""))
            (PList match lookup d "recommendations" with
                   | Some (PList recs) => map (fun rec => PStr (str rec)) recs
                   | _ => []
                   end) ""))
  /\ issue_with_defaults [] = default_issue
  /\ int (field [] "overall_score" (PInt 50)) = ret 50%Z
  /\ (forall sign m e,
        int (PFloat (S754_finite sign m e)) = ret (truncation sign m e)).
Proof.
  intros Hitems. repeat split.
  - unfold _build_review_result. cbn [get bind ret].
    replace (match match lookup d "issues" with Some x => x | None => PNone end with
             | PList items0 => items0 | _ => [] end)
      with (map PDict items).
    2:{ rewrite <- Hitems. destruct (lookup d "issues") as [[]|]; reflexivity. }
    rewrite map_issue_of_dicts. cbn [bind ret]. unfold field.
    destruct (int _) as [e|score]; [reflexivity|]. cbn [bind ret].
    repeat f_equal. destruct (lookup d "recommendations") as [[]|]; reflexivity.
  - intros sign m e. apply int_of_float_truncation.
Qed.

(** A payload with a score of 87.9 and one issue that names its file only. *)
Definition sparse_payload : list (string * value) :=
  [("overall_score", PFloat (S754_finite false 6185412613216666 (-46)));
   ("issues", PList [PDict [("file_path", PStr "a.py")]])].

Lemma build_review_result_defaults_witness :
  _build_review_result (rt := literal_runtime) (PDict sparse_payload)
  = ret (mkReviewResult (PInt 87)
           [mkReviewIssue (PStr "MEDIUM") (PStr "a.py") PNone (PStr "quality")
              (PStr "") (PStr "") PNone]
           (PStr "") (PList []) "").
Proof.
  destruct (build_review_result_defaults literal_runtime sparse_payload
              [[("file_path", PStr "a.py")]] eq_refl) as [-> _].
  vm_compute. reflexivity.
Defined.

(** ** Reviews of an empty change set *)

(** A review of changes sends one prompt to the engine. *)
Lemma review_diffs_one_call
    (rt : Runtime) (setting : Setting) (diffs : list Git.DiffInfo) :
  List.length (snd (_review_diffs diffs)) = 1%nat.
Proof. reflexivity. Qed.

(** C10: when the staged (unstaged) change set is empty, the review is the
    result with score 100, the summary that there are no staged (unstaged)
    changes to review, no issue and no recommendation, and no prompt is
    sent to the reasoning engine. *)
Theorem review_empty_change_set
    (rt : Runtime) (setting : Setting) (repo : Git.Repo) :
  (Git.get_staged_diff repo = inr [] ->
   review_staged_changes repo
   = (ret (mkReviewResult (PInt 100) [] (PStr "No staged changes to review.") (PList []) ""),
      []))
  /\ (Git.get_unstaged_diff repo = [] ->
      review_unstaged_changes repo
      = (ret (mkReviewResult (PInt 100) [] (PStr "No unstaged changes to review.") (PList []) ""),
         [])).
Proof.
  unfold review_staged_changes, review_unstaged_changes.
  split; intros ->; reflexivity.
Qed.

(** A repository with a commit and nothing changed, and an engine that is
    out of reach. *)
Definition clean_repo : Git.Repo := Git.mkRepo [] (Git.HeadDiff []) [] ∅.

Definition offline_setting : Setting := {|
  messages_create := fun _ => inl (APIConnectionError "Connection refused");
  review_template := "";
  review_format := "";
  _analyze_python_files := fun _ => ""
|}.

Lemma review_empty_change_set_witness :
  review_staged_changes (rt := literal_runtime) (setting := offline_setting) clean_repo
  = (ret (mkReviewResult (PInt 100) [] (PStr "No staged changes to review.") (PList []) ""),
     [])
  /\ review_unstaged_changes (rt := literal_runtime) (setting := offline_setting) clean_repo
     = (ret (mkReviewResult (PInt 100) [] (PStr "No unstaged changes to review.") (PList []) ""),
        []).
Proof.
  destruct (review_empty_change_set literal_runtime offline_setting clean_repo)
    as [Hstaged Hunstaged].
  split; [apply Hstaged | apply Hunstaged]; reflexivity.
Defined.

(** ** Counts of issues *)

Lemma filter_exclusive_length {A} (f g : A -> bool) (l : list A) :
  (forall x, f x = true -> g x = false) ->
  (List.length (filter f l) + List.length (filter g l) <= List.length l)%nat.
Proof.
  intros Hfg. induction l as [|x l IH]; [reflexivity|].
  cbn [filter List.length]. destruct (f x) eqn:Hf.
  - rewrite (Hfg x Hf). cbn [List.length]. lia.
  - destruct (g x); cbn [List.length]; lia.
Qed.

(** X7: for every review result the counts of critical and of high issues
    are not negative and together do not exceed the total count of
    issues, and the issues of any other severity make up the rest. *)
Theorem issue_counts_bounded (r : ReviewResult) :
  (0 <= critical_issues_count r)%Z /\ (0 <= high_issues_count r)%Z
  /\ (critical_issues_count r + high_issues_count r <= total_issues_count r)%Z
  /\ (total_issues_count r - critical_issues_count r - high_issues_count r
      = Z.of_nat (List.length
          (filter (fun issue => negb (is_str (severity issue) "CRITICAL")
                                && negb (is_str (severity issue) "HIGH"))
                  (issues r))))%Z.
Proof.
  unfold critical_issues_count, high_issues_count, total_issues_count.
  assert (Hex : forall issue, is_str (severity issue) "CRITICAL" = true ->
                              is_str (severity issue) "HIGH" = false).
  { intros issue. unfold is_str. destruct (severity issue); try discriminate.
    intros H. apply String.eqb_eq in H. now subst. }
  pose proof (filter_exclusive_length _ _ (issues r) Hex) as Hle.
  repeat split; try lia.
  induction (issues r) as [|issue l IH]; [reflexivity|].
  cbn [filter List.length] in *.
  specialize (Hex issue).
  pose proof (filter_exclusive_length
                (fun issue => is_str (severity issue) "CRITICAL")
                (fun issue => is_str (severity issue) "HIGH") l
                (fun x H => ltac:(unfold is_str in *; destruct (severity x);
                                  try discriminate; apply String.eqb_eq in H;
                                  now subst))) as Hl.
  specialize (IH Hl).
  destruct (is_str (severity issue) "CRITICAL") eqn:Hc.
  - rewrite (Hex eq_refl). cbn [negb andb List.length]. lia.
  - destruct (is_str (severity issue) "HIGH"); cbn [negb andb List.length]; lia.
Qed.

(** ** The text between the fences *)

(** X8: a reply that holds a block fenced with [```json] and closed with
    [```], with no backtick before the block or inside it, is decoded
    from the body of the block, stripped of surrounding white space,
    whatever follows the closing fence. *)
Theorem json_text_of_fenced (pre body post : string) :
  lacks "`" pre = true -> lacks "`" body = true ->
  json_text_of (pre ++ "```json" ++ body ++ "```" ++ post) = strip body.
Proof.
  intros Hpre Hbody. unfold json_text_of.
  assert (contains (pre ++ "```json" ++ body ++ "```" ++ post) "```json" = true) as ->.
  { apply contains_occurs. exists pre, (body ++ "```" ++ post). reflexivity. }
  f_equal. apply (between_fenced "``json" pre body post Hpre Hbody).
Qed.

Lemma json_text_of_fenced_witness :
  json_text_of ("Review:" ++ LF ++ "```json" ++ LF ++ "{}" ++ LF ++ "```" ++ LF ++ "Done.")
  = "{}".
Proof.
  exact (json_text_of_fenced ("Review:" ++ LF) (LF ++ "{}" ++ LF) (LF ++ "Done.")
           eq_refl eq_refl).
Defined.

(** X9: a reply whose [```json] fence is never closed, with no backtick
    before the fence or behind it, is decoded from the text behind the
    fence without its last character. *)
Theorem json_text_of_unclosed (pre body : string) :
  lacks "`" pre = true -> lacks "`" body = true ->
  json_text_of (pre ++ "```json" ++ body) = strip (take (String.length body - 1) body).
Proof.
  intros Hpre Hbody. unfold json_text_of.
  assert (contains (pre ++ "```json" ++ body) "```json" = true) as ->.
  { apply contains_occurs. exists pre, body. reflexivity. }
  f_equal. apply (between_unclosed "``json" pre body Hpre Hbody).
Qed.

Lemma json_text_of_unclosed_witness :
  json_text_of ("```json" ++ "{}") = "{".
Proof. exact (json_text_of_unclosed "" "{}" eq_refl eq_refl). Defined.

(** ** The fallback result *)

(** X10: when the text to decode is no JSON, the parser returns a result
    with score 50 and no issue whose summary is a prefix of the reply of
    at most 500 characters, the whole reply when it has no more. *)
Theorem parse_review_response_summary
    (rt : Runtime) (response_text : string) (diffs : list Git.DiffInfo) :
  json_loads (json_text_of response_text) = None ->
  exists summary_text,
    _parse_review_response response_text diffs
    = ret (mkReviewResult (PInt 50) [] (PStr summary_text)
             (PList [PStr "Unable to parse structured review. See summary for details."]) "")
    /\ (String.length summary_text <= 500)%nat
    /\ String.prefix summary_text response_text = true
    /\ ((String.length response_text <= 500)%nat -> summary_text = response_text).
Proof.
  intros H. exists (take 500 response_text).
  split; [now apply parse_review_response_fallback|].
  split; [apply take_length|]. split; [apply take_prefix | apply take_all].
Qed.

Lemma parse_review_response_summary_witness :
  exists summary_text,
    _parse_review_response (rt := literal_runtime) "not json" []
    = ret (mkReviewResult (PInt 50) [] (PStr summary_text)
             (PList [PStr "Unable to parse structured review. See summary for details."]) "")
    /\ (String.length summary_text <= 500)%nat
    /\ String.prefix summary_text "not json" = true
    /\ ((String.length "not json" <= 500)%nat -> summary_text = "not json").
Proof. apply (parse_review_response_summary literal_runtime "not json" []). reflexivity. Defined.

(** ** Agreement of the tiers *)

(** The fields of an object are of the types the review schema gives
    them: an integer score, a list of objects as issues, a list of strings
    as recommendations, each where the field is present. *)
Definition schema_typed (d : list (string * value)) : Prop :=
  (lookup d "overall_score" = None \/ exists z, lookup d "overall_score" = Some (PInt z))
  /\ (lookup d "issues" = None
      \/ exists items, lookup d "issues" = Some (PList (map PDict items)))
  /\ (lookup d "recommendations" = None
      \/ exists recs, lookup d "recommendations" = Some (PList (map PStr recs))).

(** X11: when the free text decodes to an object whose fields are typed
    as the schema says, the free-text tier returns what the structured
    tier returns for that object. *)
Theorem tiers_agree
    (rt : Runtime) (response_text : string) (diffs : list Git.DiffInfo)
    (d : list (string * value)) :
  json_loads (json_text_of response_text) = Some (PDict d) ->
  schema_typed d ->
  _parse_review_response response_text diffs = _build_review_result (PDict d).
Proof.
  intros Hloads (Hscore & Hissues & Hrecs).
  unfold _parse_review_response, parse_review_body, _build_review_result.
  rewrite Hloads. cbn [bind ret get].
  assert (Hi : exists items,
             match lookup d "issues" with Some x => x | None => PList [] end
             = PList (map PDict items)
             /\ match match lookup d "issues" with Some x => x | None => PNone end with
                | PList l => l | _ => [] end = map PDict items).
  { destruct Hissues as [-> | (items & ->)]; [now exists [] | now exists items]. }
  destruct Hi as (items & -> & ->). cbn [iter bind ret].
  rewrite map_issue_of_dicts. cbn [bind ret].
  assert (Hs : exists z,
             match lookup d "overall_score" with Some x => x | None => PInt 50 end = PInt z).
  { destruct Hscore as [-> | (z & ->)]; now eexists. }
  destruct Hs as (z & ->). cbn [int bind ret].
  destruct Hrecs as [-> | (recs & ->)]; [reflexivity|].
  rewrite map_map. repeat f_equal.
Qed.

Lemma tiers_agree_witness :
  _parse_review_response (rt := literal_runtime) "{}" []
  = _build_review_result (rt := literal_runtime) (PDict []).
Proof.
  apply (tiers_agree literal_runtime "{}" [] []); [reflexivity|].
  repeat split; now left.
Defined.

(** ** Replies and failures of the engine *)

(** The prompt [_review_diffs] sends for a change set. *)
Definition prompt_of {setting : Setting} (diffs : list Git.DiffInfo) : string :=
  _build_review_prompt (_build_diff_context diffs)
    (_analyze_python_files (filter Git.is_python_file diffs)).

(** X12: when the call of the engine fails with an API error, the review
    does not raise: it is a result with score 0, no issue, no
    recommendation and an empty diff context whose summary names the
    failure, and the one prompt was sent. *)
Theorem review_diffs_engine_failure
    (rt : Runtime) (setting : Setting) (diffs : list Git.DiffInfo) (e : api_error) :
  messages_create (prompt_of diffs) = inl e ->
  exists summary_text,
    _review_diffs diffs
    = (ret (mkReviewResult (PInt 0) [] (PStr summary_text) (PList []) ""),
       [prompt_of diffs])
    /\ summary_text
       = match e with
         | APIConnectionError cause => "Network error: " ++ cause
         | RateLimitError => "Rate limit exceeded. Please wait and try again."
         | APIStatusError status_code response =>
             "API error (status " ++ str_of_int status_code ++ "): " ++ response
         | APIError msg => "API Error: " ++ msg
         end.
Proof.
  intros H. unfold _review_diffs. fold (prompt_of diffs). rewrite H.
  destruct e; eexists; split; reflexivity.
Qed.

Lemma review_diffs_engine_failure_witness :
  exists summary_text,
    _review_diffs (rt := literal_runtime) (setting := offline_setting) []
    = (ret (mkReviewResult (PInt 0) [] (PStr summary_text) (PList []) ""),
       [prompt_of (setting := offline_setting) []])
    /\ summary_text = "Network error: " ++ "Connection refused".
Proof.
  exact (review_diffs_engine_failure literal_runtime offline_setting []
           (APIConnectionError "Connection refused") eq_refl).
Defined.

(** X13: every result a review makes of a reply of the engine, from the
    tool payload or from the text, carries the diff context of the
    reviewed changes, and one prompt was sent for it. *)
Theorem review_diffs_diff_analyzed
    (rt : Runtime) (setting : Setting) (diffs : list Git.DiffInfo)
    (content : list block) (r : ReviewResult) :
  messages_create (prompt_of diffs) = inr content ->
  fst (_review_diffs diffs) = ret r ->
  diff_analyzed r = _build_diff_context diffs
  /\ snd (_review_diffs diffs) = [prompt_of diffs].
Proof.
  intros Hreply. unfold _review_diffs. fold (prompt_of diffs). rewrite Hreply.
  cbn [fst snd]. unfold review_of_reply. intros Hr. split; [|reflexivity].
  destruct (match _extract_review_tool_payload content with
            | Some tool_payload =>
                if truthy tool_payload then _build_review_result tool_payload
                else _parse_review_response (_collect_text_blocks content) diffs
            | None => _parse_review_response (_collect_text_blocks content) diffs
            end) as [e|result]; [discriminate|].
  cbn [bind ret] in Hr. injection Hr as <-. reflexivity.
Qed.

(** An engine that answers every prompt with the tool payload of a score. *)
Definition scoring_setting : Setting := {|
  messages_create := fun _ =>
    inr [ToolUse (Some "submit_review") (PDict [("overall_score", PInt 70)]) "ToolUseBlock"];
  review_template := "";
  review_format := "";
  _analyze_python_files := fun _ => ""
|}.

Lemma review_diffs_diff_analyzed_witness :
  diff_analyzed (mkReviewResult (PInt 70) [] (PStr "") (PList []) (_build_diff_context []))
  = _build_diff_context []
  /\ snd (_review_diffs (rt := literal_runtime) (setting := scoring_setting) [])
     = [prompt_of (setting := scoring_setting) []].
Proof.
  exact (review_diffs_diff_analyzed literal_runtime scoring_setting []
           [ToolUse (Some "submit_review") (PDict [("overall_score", PInt 70)]) "ToolUseBlock"]
           (mkReviewResult (PInt 70) [] (PStr "") (PList []) (_build_diff_context []))
           eq_refl eq_refl).
Defined.

(** ** The blocks of a reply *)

Definition is_text (b : block) : bool :=
  match b with TextBlock _ => true | _ => false end.

Definition text_of (b : block) : list string :=
  match b with TextBlock t => [t] | _ => [] end.

(** X14: the text collected from a reply that holds a text block is the
    texts of its text blocks, in order, joined by line feeds: the blocks
    that are no text change nothing; a reply without a text block gives
    the string form of its first block, and an empty reply the empty
    text. *)
Theorem collect_text_blocks_texts (content : list block) :
  (filter is_text content <> [] ->
   _collect_text_blocks content = join (String NL "") (flat_map text_of content)
   /\ _collect_text_blocks content = _collect_text_blocks (filter is_text content))
  /\ (filter is_text content = [] ->
      _collect_text_blocks content
      = match content with
        | ToolUse _ _ as_str :: _ => as_str
        | OtherBlock as_str :: _ => as_str
        | _ => ""
        end).
Proof.
  assert (Hflat : forall l, flat_map text_of (filter is_text l) = flat_map text_of l).
  { induction l as [|b l IH]; [reflexivity|].
    destruct b; cbn [filter is_text flat_map text_of app]; now rewrite ?IH. }
  assert (Hnil : forall l, flat_map text_of l = [] <-> filter is_text l = []).
  { induction l as [|b l IH]; [split; reflexivity|].
    destruct b; cbn [filter is_text flat_map text_of app]; try exact IH.
    split; discriminate. }
  unfold _collect_text_blocks. fold text_of. split.
  - intros Hsome. rewrite Hflat.
    destruct (flat_map text_of content) as [|t ts] eqn:E.
    + apply Hnil in E. contradiction.
    + split; reflexivity.
  - intros Hnone. apply Hnil in Hnone. rewrite Hnone.
    destruct content as [|[t| |] rest]; try reflexivity. discriminate.
Qed.

Lemma collect_text_blocks_texts_witness :
  _collect_text_blocks mixed_reply
  = join (String NL "") ["Here is my review."; "```json {} ```"].
Proof.
  destruct (collect_text_blocks_texts mixed_reply) as [Htexts _].
  destruct Htexts as [H _]; [discriminate | exact H].
Defined.

(** X15: the search for the tool payload stops at the first
    [submit_review] tool use whose input is a dict or a string: a dict is
    the payload, a string is decoded as JSON and gives nothing when it does
    not decode, whatever blocks follow; and a reply with no such block
    gives nothing. *)
Theorem extract_review_tool_payload_first
    (rt : Runtime) (pre post : list block) (as_str : string) :
  forallb passed_over pre = true ->
  (forall d, _extract_review_tool_payload
               (pre ++ ToolUse (Some "submit_review") (PDict d) as_str :: post)
             = Some (PDict d))
  /\ (forall text, _extract_review_tool_payload
                     (pre ++ ToolUse (Some "submit_review") (PStr text) as_str :: post)
                   = json_loads text)
  /\ _extract_review_tool_payload pre = None.
Proof.
  intros Hpre. repeat split.
  - intros d. now rewrite extract_passes_over.
  - intros text. now rewrite extract_passes_over.
  - rewrite <- (app_nil_r pre). now rewrite extract_passes_over.
Qed.

Lemma extract_review_tool_payload_first_witness :
  _extract_review_tool_payload (rt := literal_runtime)
    [TextBlock "Review"; ToolUse (Some "submit_review") (PStr "not json") "ToolUseBlock";
     ToolUse (Some "submit_review") (PDict []) "ToolUseBlock"]
  = None.
Proof.
  destruct (extract_review_tool_payload_first literal_runtime [TextBlock "Review"]
              [ToolUse (Some "submit_review") (PDict []) "ToolUseBlock"] "ToolUseBlock"
              eq_refl) as (_ & Hstring & _).
  exact (Hstring "not json").
Defined.

(** ** The diff context *)

(** X22: the diff context of a change set names every changed file, with
    its kind and its counts, and holds the patch of every change that has
    one, verbatim. *)
Theorem build_diff_context_covers (diffs : list Git.DiffInfo) (d : Git.DiffInfo) :
  In d diffs ->
  occurs ("## File: " ++ Git.file_path d) (_build_diff_context diffs)
  /\ occurs ("Change type: " ++ Git.change_type d) (_build_diff_context diffs)
  /\ occurs ("Changes: +" ++ str_of_int (Git.additions d) ++ "/-"
             ++ str_of_int (Git.deletions d))
            (_build_diff_context diffs)
  /\ (Git.diff_content d <> "" ->
      occurs (Git.diff_content d) (_build_diff_context diffs)).
Proof.
  intros Hin. unfold _build_diff_context.
  assert (Hpart : forall part, In part (diff_context_parts d) ->
            In part (("# Code Changes Review" ++ LF ++ LF ++ "Total files changed: "
                      ++ str_of_int (Z.of_nat (List.length diffs)) ++ LF)
                     :: flat_map diff_context_parts diffs)).
  { intros part Hp. right. apply in_flat_map. now exists d. }
  repeat split.
  - apply (occurs_trans _ (LF ++ "## File: " ++ Git.file_path d)).
    + apply occurs_app_r, occurs_refl.
    + apply occurs_join, Hpart. unfold diff_context_parts. now left.
  - apply occurs_join, Hpart. unfold diff_context_parts. right. now left.
  - apply occurs_join, Hpart. unfold diff_context_parts. right. right. now left.
  - intros Hpatch.
    apply (occurs_trans _ (LF ++ "```diff" ++ LF ++ Git.diff_content d ++ LF ++ "```")).
    + exists (LF ++ "```diff" ++ LF), (LF ++ "```"). now rewrite !append_assoc.
    + apply occurs_join, Hpart. unfold diff_context_parts.
      apply in_or_app. right. apply in_or_app. right.
      apply String.eqb_neq in Hpatch. rewrite Hpatch. now left.
Qed.

Lemma build_diff_context_covers_witness :
  occurs ("## File: " ++ "a.py")
         (_build_diff_context [Git.mkDiffInfo "a.py" "M" 1 0 "+x" None])
  /\ occurs ("Change type: " ++ "M")
            (_build_diff_context [Git.mkDiffInfo "a.py" "M" 1 0 "+x" None])
  /\ occurs ("Changes: +" ++ str_of_int 1 ++ "/-" ++ str_of_int 0)
            (_build_diff_context [Git.mkDiffInfo "a.py" "M" 1 0 "+x" None])
  /\ ("+x" <> "" -> occurs "+x" (_build_diff_context [Git.mkDiffInfo "a.py" "M" 1 0 "+x" None])).
Proof.
  apply (build_diff_context_covers [Git.mkDiffInfo "a.py" "M" 1 0 "+x" None]
           (Git.mkDiffInfo "a.py" "M" 1 0 "+x" None)).
  now left.
Defined.

End Review.

(* ===================================================================== *)
(** * config.py *)
(* ===================================================================== *)

Module Config.

(** [Config]; the temperature, a float, is read as a rational. *)
Record Config := mkConfig {
  anthropic_api_key : option string;
  model : string;
  max_tokens : Z;
  temperature : Q;
  review_strictness : string;     (* options: normal, harsh, strict *)
  enable_security_checks : bool;
  enable_performance_checks : bool;
  enable_best_practices : bool;
  test_framework : string;        (* options: pytest, unittest *)
  generate_docstrings : bool
}.

(** [s in options] for a list of strings. *)
Definition among (s : string) (options : list string) : bool :=
  existsb (String.eqb s) options.

(** [Config.validate]: the text of the [ValueError] it raises, or nothing. *)
Definition validate (c : Config) : string + unit :=
  if negb (match anthropic_api_key c with
           | Some key => negb (String.eqb key "")
           | None => false
           end)
  then inl ("ANTHROPIC_API_KEY environment variable is required. "
            ++ "Please set it with: export ANTHROPIC_API_KEY='your-api-key'")
  else if negb (among (review_strictness c) ["normal"; "harsh"; "strict"])
  then inl ("Invalid review_strictness: " ++ review_strictness c)
  else if negb (among (test_framework c) ["pytest"; "unittest"])
  then inl ("Invalid test_framework: " ++ test_framework c)
  else inr tt.

Lemma validate_test_framework (c : Config) :
  validate c = inr tt -> test_framework c = "pytest" \/ test_framework c = "unittest".
Proof.
  unfold validate.
  destruct (negb match anthropic_api_key c with
                 | Some key => negb (String.eqb key "") | None => false end);
    [discriminate|].
  destruct (negb (among (review_strictness c) ["normal"; "harsh"; "strict"]));
    [discriminate|].
  destruct (among (test_framework c) ["pytest"; "unittest"]) eqn:H; [|discriminate].
  intros _. unfold among in H. cbn [existsb] in H.
  apply orb_prop in H as [H|H]; [left; now apply String.eqb_eq in H|].
  apply orb_prop in H as [H|H]; [right; now apply String.eqb_eq in H | discriminate].
Qed.

End Config.

(* ===================================================================== *)
(** * test_generator.py *)
(* ===================================================================== *)

Module TestGen.
Import PyStr.

(** [GeneratedTest] *)
Record GeneratedTest := mkGeneratedTest {
  test_name : string;
  test_code : string;
  tested_function : string;
  test_file_path : string;
  framework : string   (* pytest or unittest *)
}.

(** The dictionary [_discover_test_patterns] returns, by its keys. *)
Record Patterns := mkPatterns {
  p_framework : string;
  p_imports : list string;
  p_fixtures : list string;
  p_test_structure : string;
  p_examples : list Ast.FunctionInfo
}.

(** What [pathlib] reports of the test directory: whether it exists, and
    the matches of [**/test_*.py] and of [**/*_test.py] under it, each in
    the order [glob] yields them. *)
Record TestDir := mkTestDir {
  dir_exists : bool;
  glob_test_prefix : list string;
  glob_test_suffix : list string
}.

Definition LF : string := String NL "".

(** [TestGenerator._get_test_imports] *)
Definition _get_test_imports (framework : string) : string :=
  if String.eqb framework "pytest"
  then "import pytest" ++ LF ++ "from unittest.mock import Mock, patch"
  else "import unittest" ++ LF ++ "from unittest.mock import Mock, patch".

(** [TestGenerator.write_test_to_file]: the disk after the call and the
    value returned, or the exception that leaves the call. *)
Definition write_test_to_file (d : Os.disk) (test : GeneratedTest) (overwrite : bool)
    : Os.error + (Os.disk * bool) :=
  let test_path := Os.parts (test_file_path test) in
  match Os.mkdir_parents d (Os.parent test_path) with
  | inl e => inl e
  | inr d1 =>
      if Os.exists_ d1 test_path && negb overwrite then
        match Os.read_text d1 test_path with
        | inl e => inl e
        | inr existing_content =>
            if contains existing_content ("def " ++ test_name test) then inr (d1, false)
            else
              match Os.append_text d1 test_path (LF ++ LF ++ test_code test ++ LF) with
              | inl e => inl e
              | inr d2 => inr (d2, true)
              end
        end
      else
        let imports := _get_test_imports (framework test) in
        match Os.write_text d1 test_path (imports ++ LF ++ LF ++ test_code test ++ LF) with
        | inl e => inl e
        | inr d2 => inr (d2, true)
        end
  end.

(** The import loop of [_discover_test_patterns]: module names not yet in
    the list are appended. *)
Definition add_imports (known : list string) (imps : list Ast.ImportInfo) : list string :=
  fold_left (fun acc imp =>
               if existsb (String.eqb (Ast.module imp)) acc then acc
               else (acc ++ [Ast.module imp])%list)
            imps known.

(** The framework loop of [_discover_test_patterns]. *)
Definition detect_framework (current : string) (imps : list Ast.ImportInfo) : string :=
  fold_left (fun fw imp =>
               if String.eqb (Ast.module imp) "pytest" then "pytest"
               else if String.eqb (Ast.module imp) "unittest" then "unittest"
               else fw)
            imps current.

Section Patterns.
Context {ext : Ast.Externals}.
Variable fs : gmap string Fs.file.

(** The body of the loop of [_discover_test_patterns] for one test file. *)
Definition learn_file (patterns : Patterns) (test_file : string) : Patterns :=
  let analysis := Ast.analyze_file fs test_file in
  let imports := add_imports (p_imports patterns) (Ast.imports analysis) in
  let test_functions := Ast.find_test_functions fs test_file in
  let examples := (p_examples patterns ++ firstn 2 test_functions)%list in
  let framework := detect_framework (p_framework patterns) (Ast.imports analysis) in
  mkPatterns framework imports (p_fixtures patterns) (p_test_structure patterns) examples.

(** [TestGenerator._discover_test_patterns]; [test_framework] is the
    framework of the configuration. *)
Definition _discover_test_patterns (test_framework : string) (test_dir : TestDir) : Patterns :=
  let patterns := mkPatterns test_framework [] [] "" [] in
  if negb (dir_exists test_dir) then patterns
  else
    let test_files := (glob_test_prefix test_dir ++ glob_test_suffix test_dir)%list in
    match test_files with
    | [] => patterns
    | _ :: _ => fold_left learn_file (firstn 3 test_files) patterns
    end.

End Patterns.

(** ** Pattern learning *)

(** A module name that names a known testing framework. *)
Definition known_framework (m : string) : bool :=
  String.eqb m "pytest" || String.eqb m "unittest".

(** The module names the imports of a file hold, in order. *)
Definition imported_modules {ext : Ast.Externals} (fs : gmap string Fs.file) (f : string)
    : list string :=
  map Ast.module (Ast.imports (Ast.analyze_file fs f)).

(** The test files the scan analyzes. *)
Definition scanned (test_dir : TestDir) : list string :=
  firstn 3 (glob_test_prefix test_dir ++ glob_test_suffix test_dir).

Lemma last_cons {A} (x d : A) (l : list A) : last (x :: l) d = last l x.
Proof.
  revert x d. induction l as [|y l IH]; intros x d; [reflexivity|].
  change (last (x :: y :: l) d) with (last (y :: l) d).
  now rewrite (IH y d), (IH y x).
Qed.

Lemma last_append {A} (l1 l2 : list A) (d : A) :
  last (l1 ++ l2) d = last l2 (last l1 d).
Proof.
  revert d. induction l1 as [|x l1 IH]; intros d; [reflexivity|].
  change ((x :: l1) ++ l2)%list with (x :: (l1 ++ l2))%list.
  now rewrite !last_cons, IH.
Qed.

Lemma detect_framework_last (imps : list Ast.ImportInfo) (current : string) :
  detect_framework current imps
  = last (filter known_framework (map Ast.module imps)) current.
Proof.
  unfold detect_framework. revert current.
  induction imps as [|imp imps IH]; intros current; [reflexivity|].
  cbn [fold_left map filter]. rewrite IH.
  assert (Hknown : known_framework (Ast.module imp)
                   = (String.eqb (Ast.module imp) "pytest"
                      || String.eqb (Ast.module imp) "unittest")) by reflexivity.
  rewrite Hknown. clear Hknown.
  destruct (String.eqb (Ast.module imp) "pytest") eqn:Hp.
  - apply String.eqb_eq in Hp. cbn [orb]. now rewrite last_cons, Hp.
  - destruct (String.eqb (Ast.module imp) "unittest") eqn:Hu; cbn [orb]; [|reflexivity].
    apply String.eqb_eq in Hu. now rewrite last_cons, Hu.
Qed.

Section PatternFacts.
Context {ext : Ast.Externals}.

Lemma learn_files_examples (fs : gmap string Fs.file) (files : list string) (p : Patterns) :
  p_examples (fold_left (learn_file fs) files p)
  = (p_examples p ++ flat_map (fun f => firstn 2 (Ast.find_test_functions fs f)) files)%list.
Proof.
  revert p. induction files as [|f files IH]; intros p; cbn [fold_left flat_map].
  - now rewrite app_nil_r.
  - rewrite IH. cbn [learn_file p_examples]. now rewrite <- app_assoc.
Qed.

Lemma learn_files_framework (fs : gmap string Fs.file) (files : list string) (p : Patterns) :
  p_framework (fold_left (learn_file fs) files p)
  = last (filter known_framework (flat_map (imported_modules fs) files)) (p_framework p).
Proof.
  revert p. induction files as [|f files IH]; intros p; cbn [fold_left flat_map]; [reflexivity|].
  rewrite IH. cbn [learn_file p_framework]. rewrite detect_framework_last.
  unfold imported_modules at 2. now rewrite filter_app, last_append.
Qed.

Lemma flat_map_length_le {A B} (g : A -> list B) (n : nat) (l : list A) :
  (forall a, List.length (g a) <= n)%nat ->
  (List.length (flat_map g l) <= n * List.length l)%nat.
Proof.
  intros Hg. induction l as [|a l IH]; cbn [flat_map List.length]; [lia|].
  rewrite length_app. specialize (Hg a). lia.
Qed.

Lemma analyze_file_local (fs fs' : gmap string Fs.file) (f : string) :
  fs' !! f = fs !! f -> Ast.analyze_file fs' f = Ast.analyze_file fs f.
Proof.
  intros H. unfold Ast.analyze_file, Fs.read_text. now rewrite H.
Qed.

Lemma learn_files_local (fs fs' : gmap string Fs.file) (files : list string) (p : Patterns) :
  (forall f, In f files -> fs' !! f = fs !! f) ->
  fold_left (learn_file fs') files p = fold_left (learn_file fs) files p.
Proof.
  revert p. induction files as [|f files IH]; intros p H; [reflexivity|].
  cbn [fold_left]. rewrite IH by (intros g Hg; apply H; now right).
  unfold learn_file, Ast.find_test_functions.
  now rewrite (analyze_file_local fs fs' f) by (apply H; now left).
Qed.

Lemma discover_scanned (fs : gmap string Fs.file) (fw : string) (test_dir : TestDir) :
  dir_exists test_dir = true ->
  _discover_test_patterns fs fw test_dir
  = fold_left (learn_file fs) (scanned test_dir) (mkPatterns fw [] [] "" []).
Proof.
  intros H. unfold _discover_test_patterns, scanned. rewrite H. cbn [negb].
  now destruct (glob_test_prefix test_dir ++ glob_test_suffix test_dir)%list.
Qed.

End PatternFacts.

(** Two test files and their syntax trees. *)
Local Open Scope Z_scope.

Definition test_def (name : string) (line : Z) : ast.node :=
  ast.Node ast.FunctionDef (ast.mkAttributes name None None line 0 (Some (line + 1)))
    [("args", ast.Node ast.arguments (ast.mkAttributes "" None None line 0 None) []);
     ("body", ast.Node (ast.Other "Pass") (ast.mkAttributes "" None None (line + 1) 4 None) [])].

Definition test_module (framework first second : string) : ast.node :=
  ast.Node ast.Module_ (ast.mkAttributes "" None None 0 0 None)
    [("body", ast.Node ast.Import_ (ast.mkAttributes "" None None 1 0 (Some 1))
                [("names", ast.Node ast.alias (ast.mkAttributes framework None None 1 7 (Some 1)) [])]);
     ("body", test_def first 3);
     ("body", test_def second 6)].

Local Close Scope Z_scope.

Definition test_source (framework first second : string) : string :=
  "import " ++ framework ++ LF ++ LF
  ++ "def " ++ first ++ "():" ++ LF ++ "    pass" ++ LF ++ LF
  ++ "def " ++ second ++ "():" ++ LF ++ "    pass" ++ LF.

(** Externals for the closed examples: a parser that knows the two test
    files and reports a syntax error on any other text. *)
Definition corpus_externals : Ast.Externals := {|
  Ast.ast_parse := fun source _ =>
    if String.eqb source (test_source "pytest" "test_a" "test_b")
    then inr (test_module "pytest" "test_a" "test_b")
    else if String.eqb source (test_source "unittest" "test_c" "test_d")
    then inr (test_module "unittest" "test_c" "test_d")
    else inl "invalid syntax (<unknown>, line 1)";
  Ast.ast_unparse := fun n => ast.name (ast.attrs n);
  Ast.ast_get_docstring := fun _ => None;
  Ast.cc_visit := fun _ => None;
  Ast.mi_visit := fun _ => None;
  Ast.h_visit := fun _ => None
|}.

Definition corpus : gmap string Fs.file :=
  {[ "tests/test_one.py" := Fs.TextFile (test_source "pytest" "test_a" "test_b");
     "tests/test_two.py" := Fs.TextFile (test_source "unittest" "test_c" "test_d") ]}.

Definition corpus_dir : TestDir :=
  mkTestDir true ["tests/test_one.py"; "tests/test_two.py"] [].

(** C9, as stated, fails: the scan of two test files that define two test
    functions each gathers four examples, two per file, where the claim
    allows two overall. *)
Lemma discover_test_patterns_four_examples :
  map Ast.name
      (p_examples (_discover_test_patterns (ext := corpus_externals) corpus "pytest" corpus_dir))
  = ["test_a"; "test_b"; "test_c"; "test_d"].
Proof. vm_compute. reflexivity. Qed.

(** C9 (amended): a scan analyzes the first three matches of the test-file
    patterns and no other file; it gathers the first two test functions of
    each analyzed file, so at most two examples per file and six overall;
    the framework is the last known testing-framework import met in the
    analyzed files in scan order, or the configured framework when there
    is none; and a missing test root yields the empty pattern set with the
    configured framework. *)
Theorem discover_test_patterns_scan
    (ext : Ast.Externals) (fs : gmap string Fs.file) (fw : string) (test_dir : TestDir) :
  (List.length (scanned test_dir) <= 3)%nat
  /\ (forall fs' : gmap string Fs.file,
        (forall f, In f (scanned test_dir) -> fs' !! f = fs !! f) ->
        _discover_test_patterns fs' fw test_dir = _discover_test_patterns fs fw test_dir)
  /\ (dir_exists test_dir = true ->
      p_examples (_discover_test_patterns fs fw test_dir)
      = flat_map (fun f => firstn 2 (Ast.find_test_functions fs f)) (scanned test_dir))
  /\ (List.length (p_examples (_discover_test_patterns fs fw test_dir))
      <= 2 * List.length (scanned test_dir) <= 6)%nat
  /\ (dir_exists test_dir = true ->
      p_framework (_discover_test_patterns fs fw test_dir)
      = last (filter known_framework (flat_map (imported_modules fs) (scanned test_dir))) fw)
  /\ (dir_exists test_dir = false ->
      _discover_test_patterns fs fw test_dir = mkPatterns fw [] [] "" []).
Proof.
  assert (Hthree : (List.length (scanned test_dir) <= 3)%nat).
  { unfold scanned. rewrite length_firstn. lia. }
  split; [exact Hthree|].
  destruct (dir_exists test_dir) eqn:Hdir.
  - repeat split; try discriminate.
    + intros fs' Hsame. rewrite !discover_scanned by exact Hdir.
      now apply learn_files_local.
    + intros _. rewrite discover_scanned by exact Hdir. now rewrite learn_files_examples.
    + rewrite discover_scanned by exact Hdir. rewrite learn_files_examples.
      cbn [p_examples app].
      apply flat_map_length_le. intros f. rewrite length_firstn. lia.
    + lia.
    + intros _. rewrite discover_scanned by exact Hdir. now rewrite learn_files_framework.
  - unfold _discover_test_patterns. rewrite Hdir. cbn [negb p_examples List.length].
    repeat split; try discriminate; try reflexivity; lia.
Qed.

Lemma discover_test_patterns_scan_witness :
  p_framework (_discover_test_patterns (ext := corpus_externals) corpus "pytest" corpus_dir)
  = "unittest"
  /\ _discover_test_patterns (ext := corpus_externals) corpus "pytest"
       (mkTestDir false [] [])
     = mkPatterns "pytest" [] [] "" [].
Proof.
  split.
  - destruct (discover_test_patterns_scan corpus_externals corpus "pytest" corpus_dir)
      as (_ & _ & _ & _ & Hframework & _).
    rewrite Hframework by reflexivity. vm_compute. reflexivity.
  - destruct (discover_test_patterns_scan corpus_externals corpus "pytest"
                (mkTestDir false [] []))
      as (_ & _ & _ & _ & _ & Hmissing).
    apply Hmissing. reflexivity.
Defined.

(** ** Placement of a generated test *)

(** The path a test is written to. *)
Definition target (test : GeneratedTest) : list string := Os.parts (test_file_path test).

(** The text of a file created for a test. *)
Definition new_file_text (test : GeneratedTest) : string :=
  _get_test_imports (framework test) ++ LF ++ LF ++ test_code test ++ LF.


(** The disk with a text file at [p]. *)
Definition with_text (d : Os.disk) (p : list string) (text : string) : Os.disk :=
  Os.put d p (Os.Regular (Fs.TextFile text)).

(** Once the directories of the target are made, the target resolves to
    what stood there before. *)
Lemma target_after_mkdir (d d1 : Os.disk) (test : GeneratedTest) :
  Os.mkdir_parents d (Os.parent (target test)) = inr d1 ->
  Os.lookup_path d1 (target test) = inr (Os.stat d (target test))
  /\ Os.denied d1 = Os.denied d.
Proof.
  intros Hmk. apply Os.mkdir_parents_made in Hmk as [Hgrown Hdir].
  rewrite (Os.lookup_path_below _ _ Hdir), (Os.grown_parent_stat _ _ _ Hgrown).
  split; [reflexivity | apply Hgrown].
Qed.

Lemma write_fresh (d d1 : Os.disk) (test : GeneratedTest) (overwrite : bool) :
  Os.mkdir_parents d (Os.parent (target test)) = inr d1 ->
  Os.stat d (target test) = None ->
  Os.denied d (target test) = false ->
  write_test_to_file d test overwrite
  = inr (with_text d1 (target test) (new_file_text test), true).
Proof.
  intros Hmk Hnone Hfree. unfold write_test_to_file. fold (target test). rewrite Hmk.
  destruct (target_after_mkdir d d1 test Hmk) as [Hlook Hdenied].
  unfold Os.exists_, Os.write_text, Os.open_for_writing.
  rewrite Hlook, Hnone, Hdenied, Hfree. reflexivity.
Qed.

Lemma write_present (d d1 : Os.disk) (test : GeneratedTest) (existing : string) :
  Os.mkdir_parents d (Os.parent (target test)) = inr d1 ->
  Os.stat d (target test) = Some (Os.Regular (Fs.TextFile existing)) ->
  occurs ("def " ++ test_name test) existing ->
  write_test_to_file d test false = inr (d1, false).
Proof.
  intros Hmk Hfile Hocc. apply contains_occurs in Hocc.
  unfold write_test_to_file. fold (target test). rewrite Hmk.
  destruct (target_after_mkdir d d1 test Hmk) as [Hlook _].
  unfold Os.exists_, Os.read_text. rewrite Hlook, Hfile. cbn [andb negb].
  now rewrite Hocc.
Qed.










(** Writing a test whose body holds its own definition a second time
    returns [False] and leaves the disk as the first write made it. *)
Lemma write_test_twice (d d1 : Os.disk) (test : GeneratedTest) :
  Os.mkdir_parents d (Os.parent (target test)) = inr d1 ->
  Os.stat d (target test) = None ->
  Os.denied d (target test) = false ->
  occurs ("def " ++ test_name test) (test_code test) ->
  exists d2,
    write_test_to_file d test false = inr (d2, true)
    /\ write_test_to_file d2 test false = inr (d2, false).
Proof.
  intros Hmk Hnone Hfree (l & r & Hcode).
  exists (with_text d1 (target test) (new_file_text test)).
  split; [exact (write_fresh d d1 test false Hmk Hnone Hfree)|].
  pose proof (Os.stat_none_anchored _ _ Hnone) as Hanchor.
  destruct (Os.mkdir_parents_made _ _ _ Hmk) as [Hgrown Hdir].
  pose proof (Os.grown_parent_stat _ _ _ Hgrown) as Hsame. rewrite Hnone in Hsame.
  apply (write_present _ _ _ (new_file_text test)).
  - apply Os.mkdir_parents_there. apply Os.is_dir_walk. apply Os.is_dir_walk in Hdir.
    apply (Os.walk_dirs_keeps d1); [|exact Hdir].
    intros q Hq. unfold with_text. rewrite Os.stat_put_ne; [exact Hq|].
    intros ->. congruence.
  - unfold with_text. now apply Os.stat_put_eq.
  - unfold new_file_text. rewrite Hcode.
    exists (_get_test_imports (framework test) ++ LF ++ LF ++ l), (r ++ LF).
    now rewrite !append_assoc.
Qed.

(** ** Effects of a write *)





(** ** Test functions of a file *)

Lemma filter_map_commute {A B} (p : B -> bool) (f : A -> B) (l : list A) :
  filter p (map f l) = map f (filter (fun a => p (f a)) l).
Proof.
  induction l as [|a l IH]; [reflexivity|]. cbn [map filter].
  destruct (p (f a)); cbn [map]; now rewrite IH.
Qed.

(** X17: the test functions found in a file that parses are the records
    of exactly the definition nodes of its tree that stand in no class body
    and whose names begin with [test_]; in a tree whose definitions stand on
    different lines no record found has the line of a definition in a class
    body, so no method of a class is returned; every record found is a
    function of the analysis; and a file that fails to read or to parse has
    none. *)
Theorem find_test_functions_top_level
    (ext : Ast.Externals) (fs : gmap string Fs.file) (path : string) :
  (forall source tree,
     Fs.read_text fs path = inr source -> Ast.ast_parse source path = inr tree ->
     (exists nodes,
        Ast.find_test_functions fs path = map Ast._parse_function nodes
        /\ forall n, In n nodes <->
             In n (ast.subtree tree) /\ Ast.is_def n = true
             /\ ~ Ast.in_class_body tree n
             /\ startswith (ast.name (ast.attrs n)) "test_" = true)
     /\ (Ast.distinct_def_lines tree ->
         forall n, In n (ast.subtree tree) -> Ast.is_def n = true ->
           Ast.in_class_body tree n ->
           forall f, In f (Ast.find_test_functions fs path) ->
             Ast.lineno f <> ast.lineno (ast.attrs n)))
  /\ (forall f, In f (Ast.find_test_functions fs path) ->
        startswith (Ast.name f) "test_" = true
        /\ In f (Ast.functions (Ast.analyze_file fs path)))
  /\ (Ast.parse_errors (Ast.analyze_file fs path) <> [] ->
      Ast.find_test_functions fs path = []).
Proof.
  unfold Ast.find_test_functions, Ast.analyze_file. split; [|split].
  - intros source tree -> ->. cbn [Ast.functions]. split.
    + destruct (Ast.function_nodes ext tree) as (nodes & -> & Hnodes).
      rewrite filter_map_commute. eexists. split; [reflexivity|].
      intros n. rewrite filter_In, Hnodes. cbn [Ast._parse_function Ast.name]. tauto.
    + intros Hlines n Hn Hdef Hbody f Hf. apply filter_In in Hf as [Hf _].
      now apply (Ast.method_line_not_function ext tree n).
  - intros f Hf. apply filter_In in Hf as [Hin Hname]. now split.
  - destruct (Fs.read_text fs path) as [e|source]; [reflexivity|].
    destruct (Ast.ast_parse source path) as [e|tree]; [reflexivity|].
    cbn [Ast.parse_errors Ast.new_analysis]. intros H. now contradiction H.
Qed.

(** A test file in the style of [unittest]: a test case class with one
    test method, followed by one test function. *)
Local Open Scope Z_scope.

Definition test_method : ast.node :=
  ast.Node ast.FunctionDef (ast.mkAttributes "test_m" None None 4 4 (Some 5))
    [("args", ast.Node ast.arguments (ast.mkAttributes "" None None 4 15 None)
                [("args", ast.Node ast.arg (ast.mkAttributes "self" None None 4 15 (Some 4)) [])]);
     ("body", ast.Node (ast.Other "Pass") (ast.mkAttributes "" None None 5 8 None) [])].

Definition test_case_class : ast.node :=
  ast.Node ast.ClassDef (ast.mkAttributes "TestK" None None 3 0 (Some 5))
    [("body", test_method)].

Definition test_case_module : ast.node :=
  ast.Node ast.Module_ (ast.mkAttributes "" None None 0 0 None)
    [("body", ast.Node ast.Import_ (ast.mkAttributes "" None None 1 0 (Some 1))
                [("names", ast.Node ast.alias (ast.mkAttributes "unittest" None None 1 7 (Some 1)) [])]);
     ("body", test_case_class);
     ("body", test_def "test_top" 7)].

Local Close Scope Z_scope.

Definition test_case_source : string :=
  "import unittest" ++ LF ++ LF
  ++ "class TestK:" ++ LF
  ++ "    def test_m(self):" ++ LF ++ "        pass" ++ LF ++ LF
  ++ "def test_top():" ++ LF ++ "    pass" ++ LF.

Definition test_case_externals : Ast.Externals := {|
  Ast.ast_parse := fun source _ =>
    if String.eqb source test_case_source then inr test_case_module
    else inl "invalid syntax (<unknown>, line 1)";
  Ast.ast_unparse := fun n => ast.name (ast.attrs n);
  Ast.ast_get_docstring := fun _ => None;
  Ast.cc_visit := fun _ => None;
  Ast.mi_visit := fun _ => None;
  Ast.h_visit := fun _ => None
|}.

Definition test_case_files : gmap string Fs.file :=
  {[ "tests/test_k.py" := Fs.TextFile test_case_source ]}.

Lemma test_case_module_lines : Ast.distinct_def_lines test_case_module.
Proof.
  intros a b Ha Hb Hda Hdb Hline. cbn in Ha, Hb.
  repeat (destruct Ha as [<-|Ha]); try contradiction; try discriminate Hda;
    repeat (destruct Hb as [<-|Hb]); try contradiction; try discriminate Hdb;
    try reflexivity; discriminate Hline.
Qed.

Lemma find_test_functions_top_level_witness :
  (forall f, In f (Ast.find_test_functions (ext := test_case_externals)
                     test_case_files "tests/test_k.py") ->
     Ast.lineno f <> 4%Z)
  /\ Ast.find_test_functions (ext := test_case_externals) test_case_files "tests/missing.py"
     = [].
Proof.
  destruct (find_test_functions_top_level test_case_externals test_case_files
              "tests/test_k.py") as (Hparsed & _).
  destruct (Hparsed test_case_source test_case_module eq_refl eq_refl) as (_ & Hmethods).
  split.
  - apply (Hmethods test_case_module_lines test_method); [cbn; auto 10 | reflexivity |].
    exists test_case_class. split; [cbn; auto 10|]. split; [reflexivity | now left].
  - destruct (find_test_functions_top_level test_case_externals test_case_files
                "tests/missing.py") as (_ & _ & Hfailed).
    apply Hfailed. vm_compute. discriminate.
Defined.

Example find_test_functions_test_case :
  map Ast.name (Ast.find_test_functions (ext := test_case_externals)
                  test_case_files "tests/test_k.py")
  = ["test_top"].
Proof. vm_compute. reflexivity. Qed.

(** ** The code of a reply *)

(** [TestGenerator._extract_test_code] *)
Definition _extract_test_code (response_text : string) : string :=
  if contains response_text "```python" then
    let start := Z.to_nat (find response_text "```python" 0 + 9) in
    let stop := find response_text "```" start in
    strip (slice response_text start stop)
  else if contains response_text "```" then
    let start := Z.to_nat (find response_text "```" 0 + 3) in
    let stop := find response_text "```" start in
    strip (slice response_text start stop)
  else strip response_text.

Lemma contains_lacks (c : ascii) (sub s : string) :
  lacks c s = true -> contains s (String c sub) = false.
Proof.
  induction s as [|a s IH]; intros Hs; [reflexivity|].
  cbn [lacks] in Hs. apply andb_prop in Hs as [Ha Hs]. apply negb_true_iff in Ha.
  cbn [contains]. rewrite prefix_cons, Ascii.eqb_sym, Ha. cbn [andb]. now apply IH.
Qed.

(** X18: the test code taken from a reply is the stripped body of its
    block fenced with [```python], when no backtick stands before the
    block or inside it, whatever follows the closing fence; and the
    stripped reply, when the reply holds no backtick. *)
Theorem extract_test_code_fenced :
  (forall pre body post,
     lacks "`" pre = true -> lacks "`" body = true ->
     _extract_test_code (pre ++ "```python" ++ body ++ "```" ++ post) = strip body)
  /\ (forall text, lacks "`" text = true -> _extract_test_code text = strip text).
Proof.
  split.
  - intros pre body post Hpre Hbody. unfold _extract_test_code.
    assert (contains (pre ++ "```python" ++ body ++ "```" ++ post) "```python" = true) as ->.
    { apply contains_occurs. exists pre, (body ++ "```" ++ post). reflexivity. }
    f_equal. apply (between_fenced "``python" pre body post Hpre Hbody).
  - intros text Htext. unfold _extract_test_code.
    change "```python" with (String "`" "``python").
    change "```" with (String "`" "``").
    now rewrite !contains_lacks.
Qed.

Lemma extract_test_code_fenced_witness :
  _extract_test_code ("Here:" ++ LF ++ "```python" ++ LF ++ "def test_foo(): pass" ++ LF ++ "```")
  = "def test_foo(): pass"
  /\ _extract_test_code "  def test_foo(): pass  " = "def test_foo(): pass".
Proof.
  destruct extract_test_code_fenced as [Hfenced Hplain]. split.
  - exact (Hfenced ("Here:" ++ LF) (LF ++ "def test_foo(): pass" ++ LF) "" eq_refl eq_refl).
  - exact (Hplain "  def test_foo(): pass  " eq_refl).
Defined.

(** ** The framework of the patterns *)

Lemma last_Forall {A} (P : A -> Prop) (l : list A) (d : A) :
  Forall P l -> P d -> P (last l d).
Proof.
  intros Hl. revert d. induction Hl as [|x l Hx Hl IH]; intros d Hd; [exact Hd|].
  rewrite last_cons. now apply IH.
Qed.

(** X19: with a configuration that [validate] accepts, the framework of
    the learned patterns is [pytest] or [unittest], whatever the test
    files import, and the imports written for it name that framework. *)
Theorem discovered_framework_known
    (ext : Ast.Externals) (fs : gmap string Fs.file) (c : Config.Config)
    (test_dir : TestDir) :
  Config.validate c = inr tt ->
  let fw := p_framework (_discover_test_patterns fs (Config.test_framework c) test_dir) in
  (fw = "pytest" \/ fw = "unittest")
  /\ _get_test_imports fw
     = "import " ++ fw ++ LF ++ "from unittest.mock import Mock, patch".
Proof.
  intros Hvalid fw.
  assert (Hfw : fw = "pytest" \/ fw = "unittest").
  { apply Config.validate_test_framework in Hvalid. subst fw.
    destruct (dir_exists test_dir) eqn:Hdir.
    - rewrite discover_scanned by exact Hdir. rewrite learn_files_framework.
      apply (last_Forall (fun m => m = "pytest" \/ m = "unittest")); [|exact Hvalid].
      apply Forall_forall. intros m Hm. apply filter_In in Hm as [_ Hm].
      unfold known_framework in Hm.
      apply orb_prop in Hm as [Hm|Hm]; apply String.eqb_eq in Hm; auto.
    - unfold _discover_test_patterns. rewrite Hdir. exact Hvalid. }
  split; [exact Hfw|]. destruct Hfw as [-> | ->]; reflexivity.
Qed.

Definition default_config : Config.Config :=
  Config.mkConfig (Some "key") "claude-sonnet-4-20250514" 8000 (7 # 10) "harsh"
    true true true "pytest" true.

Lemma discovered_framework_known_witness :
  let fw := p_framework (_discover_test_patterns (ext := corpus_externals) corpus
                           (Config.test_framework default_config) corpus_dir) in
  (fw = "pytest" \/ fw = "unittest")
  /\ _get_test_imports fw
     = "import " ++ fw ++ LF ++ "from unittest.mock import Mock, patch".
Proof.
  apply (discovered_framework_known corpus_externals corpus default_config corpus_dir).
  reflexivity.
Defined.

(** ** The path of a test file *)

(** A path is the list of its parts, as [Path(...).parts] gives them on a
    POSIX system: the root [/] first when the path is absolute, then the
    names between the separators. *)

(** [Path(...).name]: the last part, unless it is the root. *)
Definition path_name (parts : list string) : string :=
  let p := last parts "" in
  if String.eqb p "/" then "" else p.

(** [name.rfind(".")] *)
Fixpoint rfind_dot (name : string) : option nat :=
  match name with
  | EmptyString => None
  | String c name' =>
      match rfind_dot name' with
      | Some i => Some (S i)
      | None => if Ascii.eqb c "." then Some 0%nat else None
      end
  end.

(** [Path(...).stem]: the name without its last suffix; a name that
    begins or ends with its only last dot has no suffix. *)
Definition path_stem (parts : list string) : string :=
  let name := path_name parts in
  match rfind_dot name with
  | Some i =>
      if ((0 <? i)%nat && (Z.of_nat i <? Z.of_nat (String.length name) - 1)%Z)%bool
      then take i name else name
  | None => name
  end.

(** [base.joinpath] over the parts: a part that is the root starts the path
    anew. *)
Definition joinpath (base parts : list string) : list string :=
  fold_left (fun path part => if String.eqb part "/" then ["/"] else (path ++ [part])%list)
            parts base.

(** [str(path)] *)
Definition path_str (parts : list string) : string :=
  match parts with
  | "/" :: rest => "/" ++ join "/" rest
  | _ => join "/" parts
  end.

(** [parts[parts.index(x) + 1:]], when [x] is among the parts. *)
Fixpoint after_first (x : string) (parts : list string) : option (list string) :=
  match parts with
  | [] => None
  | p :: rest => if String.eqb p x then Some rest else after_first x rest
  end.

(** [TestGenerator._get_test_file_path], from the parts of the source path. *)
Definition _get_test_file_path (source_parts : list string) (framework : string) : string :=
  let relative_parts :=
    match after_first "src" source_parts with
    | Some rest => rest
    | None => source_parts
    end in
  let test_filename := "test_" ++ path_stem source_parts ++ ".py" in
  path_str (joinpath (joinpath ["tests"] (removelast relative_parts)) [test_filename]).

Lemma after_first_app (x : string) (pre rest : list string) :
  ~ In x pre -> after_first x (pre ++ x :: rest) = Some rest.
Proof.
  induction pre as [|p pre IH]; intros Hpre.
  - cbn [app after_first]. now rewrite String.eqb_refl.
  - change ((p :: pre) ++ x :: rest)%list with (p :: (pre ++ x :: rest))%list.
    cbn [after_first]. destruct (String.eqb p x) eqn:E.
    + apply String.eqb_eq in E. subst. contradiction Hpre. now left.
    + apply IH. intros H. apply Hpre. now right.
Qed.

Lemma after_first_none (x : string) (parts : list string) :
  ~ In x parts -> after_first x parts = None.
Proof.
  induction parts as [|p parts IH]; intros H; [reflexivity|].
  cbn [after_first]. destruct (String.eqb p x) eqn:E.
  - apply String.eqb_eq in E. subst. contradiction H. now left.
  - apply IH. intros Hin. apply H. now right.
Qed.

Lemma joinpath_names (base names : list string) :
  Forall (fun d => d <> "/") names -> joinpath base names = (base ++ names)%list.
Proof.
  unfold joinpath. intros H. revert base.
  induction H as [|d names Hd _ IH]; intros base; cbn [fold_left].
  - now rewrite app_nil_r.
  - apply String.eqb_neq in Hd. rewrite Hd, IH, <- app_assoc. reflexivity.
Qed.

Lemma rfind_dot_lacks (s : string) : lacks "." s = true -> rfind_dot s = None.
Proof.
  induction s as [|c s IH]; intros H; [reflexivity|].
  cbn [lacks] in H. apply andb_prop in H as [Hc H]. apply negb_true_iff in Hc.
  cbn [rfind_dot]. now rewrite IH, Hc.
Qed.

Lemma rfind_dot_suffix (base suffix : string) :
  lacks "." suffix = true ->
  rfind_dot (base ++ "." ++ suffix) = Some (String.length base).
Proof.
  intros H. induction base as [|c base IH].
  - change ("" ++ "." ++ suffix) with (String "." suffix).
    cbn [rfind_dot]. now rewrite rfind_dot_lacks.
  - change (String c base ++ "." ++ suffix) with (String c (base ++ "." ++ suffix)).
    cbn [rfind_dot]. now rewrite IH.
Qed.

Lemma path_stem_suffix (dirs : list string) (base suffix : string) :
  base <> "" -> suffix <> "" -> lacks "." suffix = true ->
  path_stem (dirs ++ [base ++ "." ++ suffix]) = base.
Proof.
  intros Hbase Hsuffix Hlacks. unfold path_stem, path_name.
  rewrite last_last.
  assert (String.eqb (base ++ "." ++ suffix) "/" = false) as ->.
  { apply String.eqb_neq. intros H. apply (f_equal String.length) in H.
    rewrite !str_length_app in H. cbn in H.
    destruct suffix; [contradiction|]. cbn in H. lia. }
  rewrite rfind_dot_suffix by exact Hlacks. rewrite !str_length_app.
  assert ((0 <? String.length base)%nat = true) as ->.
  { apply Nat.ltb_lt. destruct base; [contradiction | cbn; lia]. }
  assert ((Z.of_nat (String.length base)
           <? Z.of_nat (String.length base + (String.length "." + String.length suffix)) - 1)%Z
          = true) as ->.
  { apply Z.ltb_lt. destruct suffix; [contradiction | cbn; lia]. }
  apply str_take_app.
Qed.

(** X20: the test file of a source file [base.suffix] that lies under a
    [src] directory is [test_base.py], under [tests], in the directories
    that follow the first [src] part of the source path; the parts before
    that [src] are dropped. *)
Theorem get_test_file_path_under_src
    (pre dirs : list string) (base suffix framework : string) :
  ~ In "src" pre -> Forall (fun d => d <> "/") dirs ->
  base <> "" -> suffix <> "" -> lacks "." suffix = true ->
  _get_test_file_path (pre ++ "src" :: dirs ++ [base ++ "." ++ suffix]) framework
  = join "/" ("tests" :: dirs ++ ["test_" ++ base ++ ".py"]).
Proof.
  intros Hpre Hdirs Hbase Hsuffix Hlacks. unfold _get_test_file_path.
  rewrite after_first_app by exact Hpre.
  rewrite removelast_last.
  replace (pre ++ "src" :: dirs ++ [(base ++ "." ++ suffix)%string])%list
    with ((pre ++ "src" :: dirs) ++ [(base ++ "." ++ suffix)%string])%list
    by (now rewrite <- app_assoc).
  rewrite path_stem_suffix by assumption.
  rewrite (joinpath_names ["tests"] dirs) by exact Hdirs.
  rewrite joinpath_names by (repeat constructor; discriminate).
  reflexivity.
Qed.

Lemma get_test_file_path_under_src_witness :
  _get_test_file_path ["proj"; "src"; "pkg"; "mod.py"] "pytest" = "tests/pkg/test_mod.py".
Proof.
  apply (get_test_file_path_under_src ["proj"] ["pkg"] "mod" "py" "pytest");
    try discriminate; try reflexivity.
  - intros [H|[]]. discriminate.
  - repeat constructor. discriminate.
Defined.

(** X21: the test file of a source file given by an absolute path with
    no [src] part is not placed under [tests]: it is [test_base.py] in the
    directory of the source file. *)
Theorem get_test_file_path_absolute
    (dirs : list string) (base suffix framework : string) :
  ~ In "src" dirs -> Forall (fun d => d <> "/") dirs ->
  base <> "" -> suffix <> "" -> lacks "." suffix = true ->
  base ++ "." ++ suffix <> "src" ->
  _get_test_file_path ("/" :: dirs ++ [base ++ "." ++ suffix]) framework
  = "/" ++ join "/" (dirs ++ ["test_" ++ base ++ ".py"]).
Proof.
  intros Hsrc Hdirs Hbase Hsuffix Hlacks Hfile. unfold _get_test_file_path.
  rewrite after_first_none.
  2:{ intros [H|H]; [discriminate|].
      apply in_app_or in H as [H|[H|[]]]; [now apply Hsrc | now apply Hfile]. }
  replace ("/" :: dirs ++ [(base ++ "." ++ suffix)%string])%list
    with (("/" :: dirs) ++ [(base ++ "." ++ suffix)%string])%list by reflexivity.
  rewrite removelast_last, path_stem_suffix by assumption.
  assert (Hroot : joinpath ["tests"] ("/" :: dirs) = ("/" :: dirs)%list).
  { change (joinpath ["tests"] ("/" :: dirs)) with (joinpath ["/"] dirs).
    now apply joinpath_names. }
  rewrite Hroot.
  rewrite joinpath_names by (repeat constructor; discriminate).
  reflexivity.
Qed.

Lemma get_test_file_path_absolute_witness :
  _get_test_file_path ["/"; "home"; "proj"; "mod.py"] "pytest" = "/home/proj/test_mod.py".
Proof.
  apply (get_test_file_path_absolute ["home"; "proj"] "mod" "py" "pytest");
    try discriminate; try reflexivity.
  - intros [H|[H|[]]]; discriminate.
  - repeat constructor; discriminate.
Defined.

End TestGen.

(* ===================================================================== *)
(** * cli.py *)
(* ===================================================================== *)

Module Cli.
Import PyStr Py Review.

(** [text * n] *)
Fixpoint times (text : string) (n : nat) : string :=
  match n with
  | O => ""
  | S k => text ++ times text k
  end.

(** [enumerate(items, 1)] *)
Definition enumerate1 {A} (items : list A) : list (Z * A) :=
  combine (map Z.of_nat (seq 1 (List.length items))) items.

Section Output.
Context {rt : Runtime}.

(** The lines [format_review_output] appends for one issue. *)
Definition issue_lines (i : Z) (issue : ReviewIssue) : list string :=
  List.app
  [LF ++ "### Issue #" ++ str_of_int i ++ ": " ++ str (severity issue);
   "**File:** " ++ str (file_path issue)
   ++ (if truthy (line_number issue) then " (line " ++ str (line_number issue) ++ ")"
       else "");
   "**Category:** " ++ str (category issue);
   "**Description:** " ++ str (description issue);
   "**Suggestion:** " ++ str (suggestion issue)]
  (if truthy (code_example issue)
   then [LF ++ "**Fix Example:**" ++ LF ++ "```python" ++ LF
         ++ str (code_example issue) ++ LF ++ "```"]
   else []).

(** [CodeReviewer.format_review_output]: the loop over the recommendations
    raises [TypeError] when they are truthy and do not iterate, and the
    final [join] when the summary, the one line that is no literal, is no
    string. *)
Definition format_review_output (result : ReviewResult) : Py.result string :=
  let head :=
    [times "=" 80;
     "CODE REVIEW RESULTS";
     times "=" 80;
     LF ++ "Overall Score: " ++ str (overall_score result) ++ "/100";
     LF ++ "Total Issues: " ++ str_of_int (total_issues_count result);
     "  - Critical: " ++ str_of_int (critical_issues_count result);
     "  - High: " ++ str_of_int (high_issues_count result);
     "  - Medium/Low: "
     ++ str_of_int (total_issues_count result - critical_issues_count result
                    - high_issues_count result);
     LF ++ times "-" 80;
     LF ++ "## Summary" ++ LF] in
  let issue_part :=
    match issues result with
    | [] => []
    | _ :: _ =>
        List.app
          [LF ++ times "-" 80; LF ++ "## Issues Found" ++ LF]
          (flat_map (fun '(i, issue) => issue_lines i issue) (enumerate1 (issues result)))
    end in
  let* recommendation_part :=
    if truthy (recommendations result) then
      let* recs := iter (recommendations result) in
      ret (List.app
             [LF ++ times "-" 80; LF ++ "## General Recommendations" ++ LF]
             (map (fun '(i, rec) => str_of_int i ++ ". " ++ str rec) (enumerate1 recs)))
    else ret [] in
  match summary result with
  | PStr summary_text =>
      ret (join LF (List.concat [head; [summary_text]; issue_part; recommendation_part;
                                 [LF ++ times "=" 80]]))
  | _ => raise TypeError
  end.

End Output.

(** Where the [review] command puts its text: on the standard output, or
    in the file of [--output], which the operating system lets it write or
    not. *)
Inductive output_target :=
| Echo
| Save (writable : bool).

Section Command.
Context {rt : Runtime}.

(** The text the command puts out: [json.dumps] of the fields of the
    result, which are values of JSON and so serialize, or
    [format_review_output]; only whether the step raises matters to the
    exit status, so the JSON text is left out. *)
Definition render (output_json : bool) (result : ReviewResult) : Py.result unit :=
  if output_json then ret tt
  else let* _ := format_review_output result in ret tt.

(** The exit status by the severities of the issues. *)
Definition severity_status (result : ReviewResult) : Z :=
  if (0 <? critical_issues_count result)%Z then 2%Z
  else if (0 <? high_issues_count result)%Z then 1%Z
  else 0%Z.

(** The exit status of the [review] command, once the reviewer is built:
    1 when the review raises ([except Exception: sys.exit(1)]); 1 when
    rendering or saving the text raises, which nothing catches; and
    otherwise 2 when the result counts a critical issue, 1 when it counts a
    high issue and no critical one, and 0 when it counts neither. *)
Definition review_exit_status (output_json : bool) (output : output_target)
    (outcome : Py.result ReviewResult) : Z :=
  match outcome with
  | inl _ => 1%Z
  | inr result =>
      match render output_json result with
      | inl _ => 1%Z
      | inr _ =>
          match output with
          | Save false => 1%Z
          | _ => severity_status result
          end
      end
  end.

End Command.

Lemma count_positive {A} (f : A -> bool) (l : list A) :
  (0 < Z.of_nat (List.length (filter f l)))%Z <-> exists x, In x l /\ f x = true.
Proof.
  split.
  - destruct (filter f l) as [|x rest] eqn:E; [cbn; lia|]. intros _.
    exists x. apply filter_In. rewrite E. now left.
  - intros (x & Hin & Hf).
    assert (Hx : In x (filter f l)) by (now apply filter_In).
    destruct (filter f l); [contradiction | cbn [List.length]; lia].
Qed.

Lemma is_str_eq (v : value) (s : string) : is_str v s = true <-> v = PStr s.
Proof.
  unfold is_str. destruct v; try (split; discriminate).
  rewrite String.eqb_eq. split; [now intros -> | now intros [= ->]].
Qed.

(** The result holds an issue of the severity. *)
Definition has_severity (r : ReviewResult) (s : string) : Prop :=
  exists issue, In issue (issues r) /\ severity issue = PStr s.

Lemma severity_status_spec (r : ReviewResult) :
  (severity_status r = 2%Z <-> has_severity r "CRITICAL")
  /\ (severity_status r = 0%Z
      <-> ~ has_severity r "CRITICAL" /\ ~ has_severity r "HIGH")
  /\ (severity_status r = 2%Z \/ severity_status r = 1%Z \/ severity_status r = 0%Z).
Proof.
  assert (Hcount : forall s,
            (0 <? Z.of_nat (List.length
                    (filter (fun issue => is_str (severity issue) s) (issues r))))%Z = true
            <-> has_severity r s).
  { intros s. rewrite Z.ltb_lt, count_positive. unfold has_severity.
    split; intros (issue & Hin & Hs); exists issue; (split; [exact Hin|]);
      now apply is_str_eq. }
  unfold severity_status, critical_issues_count, high_issues_count.
  destruct (0 <? Z.of_nat (List.length
              (filter (fun issue => is_str (severity issue) "CRITICAL") (issues r))))%Z
    eqn:Ec.
  - apply (Hcount "CRITICAL") in Ec. split; [tauto|]. split; [|now left].
    split; [discriminate|]. intros [Hno _]. contradiction.
  - assert (Hnc : ~ has_severity r "CRITICAL")
      by (intros H; apply (Hcount "CRITICAL") in H; congruence).
    destruct (0 <? Z.of_nat (List.length
                (filter (fun issue => is_str (severity issue) "HIGH") (issues r))))%Z
      eqn:Eh.
    + apply (Hcount "HIGH") in Eh. split; [split; [discriminate | contradiction]|].
      split; [|right; now left]. split; [discriminate|]. intros [_ Hno]. contradiction.
    + assert (Hnh : ~ has_severity r "HIGH")
        by (intros H; apply (Hcount "HIGH") in H; congruence).
      split; [split; [discriminate | contradiction]|].
      split; [|right; now right]. split; [intros _; now split | reflexivity].
Qed.

(** When [format_review_output] returns. *)
Lemma format_review_output_returns (rt : Runtime) (r : ReviewResult) :
  (exists text, format_review_output r = ret text)
  <-> (exists summary_text, summary r = PStr summary_text)
      /\ (truthy (recommendations r) = true ->
          exists recs, iter (recommendations r) = ret recs).
Proof.
  unfold format_review_output. split.
  - intros (text & Htext). split.
    + destruct (truthy (recommendations r)); [destruct (iter (recommendations r))|];
        cbn [bind ret] in Htext; try discriminate;
        (destruct (summary r); try discriminate; now eexists).
    + intros Htruthy. rewrite Htruthy in Htext.
      destruct (iter (recommendations r)) as [e|recs]; [discriminate | now exists recs].
  - intros [(summary_text & ->) Hrecs].
    destruct (truthy (recommendations r)).
    + destruct (Hrecs eq_refl) as (recs & ->). cbn [bind ret]. now eexists.
    + cbn [bind ret]. now eexists.
Qed.

(** The text is put out: it renders and, when it is saved, the file can
    be written. *)
Definition put_out {rt : Runtime} (output_json : bool) (output : output_target)
    (r : ReviewResult) : Prop :=
  (output_json = true \/ exists text, format_review_output r = ret text)
  /\ output <> Save false.

Lemma review_exit_status_put_out (rt : Runtime) (output_json : bool)
    (output : output_target) (r : ReviewResult) :
  (put_out output_json output r ->
   review_exit_status output_json output (ret r) = severity_status r)
  /\ (~ put_out output_json output r ->
      review_exit_status output_json output (ret r) = 1%Z).
Proof.
  unfold put_out, review_exit_status, render, ret. split.
  - intros [Hrender Hsave]. destruct output_json.
    + destruct output as [|[]]; try reflexivity. now contradiction Hsave.
    + destruct Hrender as [Hjson|(text & ->)]; [discriminate|]. cbn [bind].
      destruct output as [|[]]; try reflexivity. now contradiction Hsave.
  - intros Hnot. destruct output_json.
    + destruct output as [|[]]; try reflexivity;
        (exfalso; apply Hnot; split; [now left | discriminate]).
    + destruct (format_review_output r) as [e|text]; [reflexivity|]. cbn [bind].
      destruct output as [|[]]; try reflexivity;
        (exfalso; apply Hnot; split; [right; now exists text | discriminate]).
Qed.

(** X23: the [review] command ends with status 2 exactly when its text is
    put out and the result holds an issue whose severity is the string
    [CRITICAL], and with status 0 exactly when its text is put out and the
    result holds no issue of severity [CRITICAL] or [HIGH]; it ends with
    status 1 when the review raises, as a review of staged changes does in
    a repository where [HEAD] names no object, and when the text is not put
    out: the plain text does not render for a result whose summary is no
    string, whatever its issues, and a file that cannot be written is not
    saved. A review that ends in an API error of the engine, and a review
    of an empty staged change set, render and end with status 0 on the
    standard output. *)
Theorem review_exit_status_spec (rt : Runtime) (setting : Setting) :
  (forall output_json output r,
     (review_exit_status output_json output (ret r) = 2%Z
      <-> put_out output_json output r /\ has_severity r "CRITICAL")
     /\ (review_exit_status output_json output (ret r) = 0%Z
         <-> put_out output_json output r
             /\ ~ has_severity r "CRITICAL" /\ ~ has_severity r "HIGH")
     /\ (~ put_out output_json output r ->
         review_exit_status output_json output (ret r) = 1%Z))
  /\ (forall output_json output e,
        review_exit_status output_json output (raise e : Py.result ReviewResult) = 1%Z)
  /\ (forall output r,
        (forall summary_text, summary r <> PStr summary_text) ->
        review_exit_status false output (ret r) = 1%Z)
  /\ (forall output_json r, review_exit_status output_json (Save false) (ret r) = 1%Z)
  /\ (forall output_json diffs e,
        messages_create (prompt_of diffs) = inl e ->
        review_exit_status output_json Echo (fst (_review_diffs diffs)) = 0%Z)
  /\ (forall output_json repo,
        Git.get_staged_diff repo = inr [] ->
        review_exit_status output_json Echo (fst (review_staged_changes repo)) = 0%Z)
  /\ (forall output_json output repo,
        Git.get_staged_diff repo = inl Git.BadName ->
        review_exit_status output_json output (fst (review_staged_changes repo)) = 1%Z).
Proof.
  assert (Hplain : forall output_json score text,
            review_exit_status output_json Echo (ret (plain_result score text)) = 0%Z).
  { intros output_json score text.
    destruct (review_exit_status_put_out rt output_json Echo (plain_result score text))
      as [Hout _].
    rewrite Hout; [reflexivity|]. split; [|discriminate]. right.
    apply format_review_output_returns. split; [now eexists | discriminate]. }
  split; [|split; [reflexivity|split; [|split; [|split; [|split]]]]].
  - intros output_json output r.
    destruct (review_exit_status_put_out rt output_json output r) as [Hout Hnot].
    destruct (severity_status_spec r) as (Hcritical & Hnone & Hrange).
    split; [|split; [|exact Hnot]].
    + split.
      * intros Hstatus.
        assert (Hput : put_out output_json output r).
        { unfold put_out.
          destruct output_json; [split; [now left|]|].
          - intros ->. unfold review_exit_status, render, ret in Hstatus.
            cbn in Hstatus. discriminate.
          - unfold review_exit_status, render, ret in Hstatus.
            destruct (format_review_output r) as [e|text]; [discriminate|].
            split; [right; now exists text|]. intros ->. cbn in Hstatus. discriminate. }
        split; [exact Hput|]. apply Hcritical. now rewrite <- (Hout Hput).
      * intros [Hput Hc]. rewrite (Hout Hput). now apply Hcritical.
    + split.
      * intros Hstatus.
        assert (Hput : put_out output_json output r).
        { unfold put_out.
          destruct output_json; [split; [now left|]|].
          - intros ->. unfold review_exit_status, render, ret in Hstatus.
            cbn in Hstatus. discriminate.
          - unfold review_exit_status, render, ret in Hstatus.
            destruct (format_review_output r) as [e|text]; [discriminate|].
            split; [right; now exists text|]. intros ->. cbn in Hstatus. discriminate. }
        split; [exact Hput|]. apply Hnone. now rewrite <- (Hout Hput).
      * intros [Hput Hc]. rewrite (Hout Hput). now apply Hnone.
  - intros output r Hsummary.
    apply (review_exit_status_put_out rt false output r).
    intros [[Hjson|Hrender] _]; [discriminate|].
    apply format_review_output_returns in Hrender as [(summary_text & Hs) _].
    now apply (Hsummary summary_text).
  - intros output_json r. apply (review_exit_status_put_out rt output_json (Save false) r).
    intros [_ Hsave]. now contradiction Hsave.
  - intros output_json diffs e He. unfold _review_diffs. fold (prompt_of diffs).
    rewrite He. cbn [fst]. destruct e; apply Hplain.
  - intros output_json repo Hempty. unfold review_staged_changes. rewrite Hempty.
    cbn [fst]. apply Hplain.
  - intros output_json output repo Hraise. unfold review_staged_changes. now rewrite Hraise.
Qed.

(** A result with a critical issue and no summary. *)
Definition critical_without_summary : ReviewResult :=
  mkReviewResult (PInt 10)
    [mkReviewIssue (PStr "CRITICAL") (PStr "a.py") PNone (PStr "security")
       (PStr "") (PStr "") PNone]
    PNone (PList []) "".

Lemma review_exit_status_spec_witness :
  review_exit_status (rt := literal_runtime) false Echo (ret critical_without_summary) = 1%Z
  /\ review_exit_status (rt := literal_runtime) true Echo (ret critical_without_summary) = 2%Z
  /\ review_exit_status (rt := literal_runtime) false Echo
       (fst (_review_diffs (rt := literal_runtime) (setting := offline_setting) [])) = 0%Z
  /\ review_exit_status (rt := literal_runtime) false Echo
       (fst (review_staged_changes (rt := literal_runtime) (setting := offline_setting)
               clean_repo)) = 0%Z
  /\ review_exit_status (rt := literal_runtime) false Echo
       (fst (review_staged_changes (rt := literal_runtime) (setting := offline_setting)
               Git.two_line_repo)) = 1%Z.
Proof.
  destruct (review_exit_status_spec literal_runtime offline_setting)
    as (Hstatus & _ & Hsummary & _ & Hfailure & Hempty & Hraise).
  split; [|split; [|split; [|split]]].
  - apply Hsummary. discriminate.
  - apply (Hstatus true Echo critical_without_summary). split.
    + split; [now left | discriminate].
    + eexists. split; [now left | reflexivity].
  - exact (Hfailure false [] (APIConnectionError "Connection refused") eq_refl).
  - exact (Hempty false clean_repo eq_refl).
  - exact (Hraise false Echo Git.two_line_repo eq_refl).
Defined.

End Cli.
